(** * Linux Driver Development Guide: verified models of the example modules

    A shallow embedding of the example kernel modules whose behaviour the
    guide's specification describes, followed by the theorems that settle
    each statement of the specification against the code (C1 to C10) and
    by further properties of the same modules (numbered from X1).

    Part I holds the models, one Rocq module per example directory.
    Part II holds the proofs, one Rocq module per example.

    Conventions:
    - a C integer is a [Z]; every place where the C type would wrap is
      written with [CInt.u32], [CInt.u64], [CInt.s32] or [CInt.s64];
    - kernel memory objects of a fixed extent are lists (small arrays) or
      offset-indexed functions with a recorded extent (the RAM disk);
    - transfers from and to user space can fault; the model takes the
      accessibility of the user buffer as an input of the operation;
    - a [mutex] is a flag in the state: taking a held mutex cannot
      proceed in a sequential model and yields no result;
    - a function of the kernel that an example calls but the repository
      does not contain is a parameter of the model, or is modelled by
      what it computes where a statement depends on it. *)

From Stdlib Require Import ZArith Lia List Bool String Ascii.
From Stdlib.Strings Require Import Byte.
From stdpp Require Import base list.

Local Open Scope Z_scope.

(* ===================================================================== *)
(** * Part I: models                                                      *)
(* ===================================================================== *)

(** ** C integer types *)

Module CInt.

(** Value of [z] after conversion to an unsigned type of [w] bits. *)
Definition wrap_unsigned (w z : Z) : Z := z mod 2 ^ w.

(** Value of [z] after conversion to a signed two's complement type of
    [w] bits (the kernel is built with wrapping signed arithmetic). *)
Definition wrap_signed (w z : Z) : Z :=
  (z + 2 ^ (w - 1)) mod 2 ^ w - 2 ^ (w - 1).

Definition u32 : Z -> Z := wrap_unsigned 32.
Definition u64 : Z -> Z := wrap_unsigned 64.
Definition s32 : Z -> Z := wrap_signed 32.
Definition s64 : Z -> Z := wrap_signed 64.

Definition S64_MAX : Z := 2 ^ 63 - 1.
Definition U64_MAX : Z := 2 ^ 64 - 1.

End CInt.

(** ** Error numbers (include/uapi/asm-generic/errno-base.h) *)

Module Errno.
Definition ENOMEM : Z := 12.
Definition EFAULT : Z := 14.
Definition ENODEV : Z := 19.
Definition EINVAL : Z := 22.
Definition ENOTTY : Z := 25.
Definition ENOSPC : Z := 28.
End Errno.

(** ** The corpus: every file under examples/ *)

Module Corpus.

Local Open Scope string_scope.

(** What a source file declares at file scope, as far as the module
    loader and the linker see it: whether it is a header, whether it
    defines [main], the functions named in [module_init] and
    [module_exit], the [module_*_driver] helper macro it invokes (which
    expands to both), whether it registers a KUnit suite, the symbols it
    exports with [EXPORT_SYMBOL] or [EXPORT_SYMBOL_GPL], the functions
    and variables it declares [extern], the local headers it includes,
    the file-scope variables it defines with external linkage (every
    other file-scope variable is [static]), the device paths it opens
    when it is a user-space program, and the device nodes it creates
    (with [device_create], [misc_register] or as a disk name) when it is
    a module.  uio_demo.c registers a UIO device, whose node the UIO
    core numbers; it is /dev/uio0, the path uio_userspace.c opens unless
    it is given another, when no other UIO device is registered. *)
Record source_file : Type := {
  example : string;
  file_name : string;
  is_header : bool;
  defines_main : bool;
  kunit_suite : bool;
  module_init : option string;
  module_exit : option string;
  driver_macro : option string;
  exports : list string;
  externs : list string;
  includes : list string;
  globals : list string;
  opens : list string;
  creates : list string
}.

Definition source (example file_name : string)
    (is_header defines_main kunit_suite : bool)
    (module_init module_exit driver_macro : option string)
    (exports externs includes : list string) : source_file :=
  {| example := example; file_name := file_name;
     is_header := is_header; defines_main := defines_main;
     kunit_suite := kunit_suite;
     module_init := module_init; module_exit := module_exit;
     driver_macro := driver_macro;
     exports := exports; externs := externs; includes := includes;
     globals := []; opens := []; creates := [] |}.

(** A file that defines the variables [vars] with external linkage,
    opens the device paths [paths], or creates the device nodes
    [nodes]. *)
Definition defining (vars : list string) (f : source_file) : source_file :=
  {| example := example f; file_name := file_name f;
     is_header := is_header f; defines_main := defines_main f;
     kunit_suite := kunit_suite f;
     module_init := module_init f; module_exit := module_exit f;
     driver_macro := driver_macro f;
     exports := exports f; externs := externs f; includes := includes f;
     globals := vars; opens := opens f; creates := creates f |}.

Definition opening (paths : list string) (f : source_file) : source_file :=
  {| example := example f; file_name := file_name f;
     is_header := is_header f; defines_main := defines_main f;
     kunit_suite := kunit_suite f;
     module_init := module_init f; module_exit := module_exit f;
     driver_macro := driver_macro f;
     exports := exports f; externs := externs f; includes := includes f;
     globals := globals f; opens := paths; creates := creates f |}.

Definition creating (nodes : list string) (f : source_file) : source_file :=
  {| example := example f; file_name := file_name f;
     is_header := is_header f; defines_main := defines_main f;
     kunit_suite := kunit_suite f;
     module_init := module_init f; module_exit := module_exit f;
     driver_macro := driver_macro f;
     exports := exports f; externs := externs f; includes := includes f;
     globals := globals f; opens := opens f; creates := nodes |}.

Definition corpus : list source_file := [
  source "appendices/kunit-test" "kunit_example_test.c"
    false false true
    None None None
    [] [] [];
  source "appendices/sysfs-demo" "sysfs_demo.c"
    false false false
    (Some "sysfs_demo_init") (Some "sysfs_demo_exit") None
    [] [] [];
  creating ["/dev/uio0"] (source "appendices/uio-demo" "uio_demo.c"
    false false false
    (Some "uio_demo_init") (Some "uio_demo_exit") (Some "module_platform_driver")
    [] [] []);
  opening ["/dev/uio0"] (source "appendices/uio-demo" "uio_userspace.c"
    false true false
    None None None
    [] [] []);
  source "part1/hello-world" "hello.c"
    false false false
    (Some "hello_init") (Some "hello_exit") None
    [] [] [];
  source "part10/hwmon-driver" "hwmon_demo.c"
    false false false
    (Some "demo_hwmon_init") (Some "demo_hwmon_exit") None
    [] [] [];
  source "part10/input-device" "input_demo.c"
    false false false
    (Some "input_demo_init") (Some "input_demo_exit") None
    [] [] [];
  source "part10/led-driver" "led_demo.c"
    false false false
    (Some "demo_leds_init") (Some "demo_leds_exit") None
    [] [] [];
  source "part10/pwm-driver" "pwm_demo.c"
    false false false
    (Some "demo_pwm_init") (Some "demo_pwm_exit") None
    [] [] [];
  source "part10/watchdog-driver" "watchdog_demo.c"
    false false false
    (Some "demo_wdt_init") (Some "demo_wdt_exit") None
    [] [] [];
  source "part11/iio-adc" "iio_adc_demo.c"
    false false false
    (Some "demo_adc_init") (Some "demo_adc_exit") None
    [] [] [];
  source "part11/rtc-driver" "rtc_demo.c"
    false false false
    (Some "demo_rtc_init") (Some "demo_rtc_exit") None
    [] [] [];
  source "part12/virtual-netdev" "vnet_demo.c"
    false false false
    (Some "vnet_init") (Some "vnet_exit") None
    [] [] [];
  creating ["/dev/ramdemo0"] (source "part13/ramdisk" "ramdisk_demo.c"
    false false false
    (Some "ramdisk_init") (Some "ramdisk_exit") None
    [] [] []);
  creating ["/dev/usb_demo"] (source "part14/usb-device" "usb_demo.c"
    false false false
    None None (Some "module_usb_driver")
    [] [] []);
  source "part15/pci-skeleton" "pci_skeleton.c"
    false false false
    None None (Some "module_pci_driver")
    [] [] [];
  source "part16/pm-driver" "pm_demo.c"
    false false false
    (Some "pm_demo_init") (Some "pm_demo_exit") None
    [] [] [];
  source "part2/data-structures" "data_structures_demo.c"
    false false false
    (Some "data_structures_demo_init") (Some "data_structures_demo_exit") None
    [] [] [];
  source "part2/export-symbol" "mylib.c"
    false false false
    (Some "mylib_init") (Some "mylib_exit") None
    ["mylib_increment"; "mylib_get_count"; "mylib_reset"; "mylib_multiply"] [] [];
  source "part2/export-symbol" "myuser.c"
    false false false
    (Some "myuser_init") (Some "myuser_exit") None
    [] ["mylib_increment"; "mylib_get_count"; "mylib_reset"; "mylib_multiply"] [];
  source "part2/module-params" "params.c"
    false false false
    (Some "params_init") (Some "params_exit") None
    [] [] [];
  creating ["/dev/ioctl_example"] (source "part3/ioctl-device" "ioctl_device.c"
    false false false
    (Some "ioctl_init") (Some "ioctl_exit") None
    [] [] ["ioctl_example.h"]);
  source "part3/ioctl-device" "ioctl_example.h"
    true false false
    None None None
    [] [] [];
  opening ["/dev/ioctl_example"] (source "part3/ioctl-device" "test_ioctl.c"
    false true false
    None None None
    [] [] ["ioctl_example.h"]);
  creating ["/dev/simple_char"] (source "part3/simple-char" "simple_char.c"
    false false false
    (Some "simple_init") (Some "simple_exit") None
    [] [] []);
  source "part4/kthread-demo" "kthread_demo.c"
    false false false
    (Some "kthread_demo_init") (Some "kthread_demo_exit") None
    [] [] [];
  defining ["percpu_counter"] (source "part4/spinlock-demo" "spinlock_demo.c"
    false false false
    (Some "spinlock_demo_init") (Some "spinlock_demo_exit") None
    [] [] []);
  source "part4/timer-demo" "timer_demo.c"
    false false false
    (Some "timer_demo_init") (Some "timer_demo_exit") None
    [] [] [];
  source "part4/workqueue-demo" "workqueue_demo.c"
    false false false
    (Some "workqueue_demo_init") (Some "workqueue_demo_exit") None
    [] [] [];
  source "part5/dma-demo" "dma_demo.c"
    false false false
    (Some "dma_demo_init") (Some "dma_demo_exit") None
    [] [] [];
  source "part5/kmem-cache-demo" "kmem_cache_demo.c"
    false false false
    (Some "kmem_cache_demo_init") (Some "kmem_cache_demo_exit") None
    [] [] [];
  source "part6/platform-driver" "platform_driver_demo.c"
    false false false
    None None (Some "module_platform_driver")
    [] [] [];
  source "part7/threaded-irq-demo" "threaded_irq_demo.c"
    false false false
    (Some "demo_init") (Some "demo_exit") None
    [] [] [];
  source "part8/dt-platform-driver" "dt_platform_demo.c"
    false false false
    None None (Some "module_platform_driver")
    [] [] [];
  source "part9/gpio-driver" "gpio_chip_demo.c"
    false false false
    (Some "demo_gpio_init") (Some "demo_gpio_exit") None
    [] [] [];
  source "part9/i2c-sensor" "i2c_sensor_demo.c"
    false false false
    None None (Some "module_i2c_driver")
    [] [] [];
  creating ["/dev/demo_flash"] (source "part9/spi-device" "spi_flash_demo.c"
    false false false
    None None (Some "module_spi_driver")
    [] [] [])
].

Definition is_some {A : Type} (o : option A) : bool :=
  match o with Some _ => true | None => false end.

(** The file names an entry point and an exit point with [module_init]
    and [module_exit]. *)
Definition has_init_and_exit (f : source_file) : bool :=
  is_some (module_init f) && is_some (module_exit f).

(** The number of entry points and of exit points the file defines: one
    for a [module_init] and for a [module_exit], one of each for a
    [module_*_driver] macro. *)
Definition entry_points (f : source_file) : nat :=
  (if is_some (module_init f) then 1 else 0) + (if is_some (driver_macro f) then 1 else 0).

Definition exit_points (f : source_file) : nat :=
  (if is_some (module_exit f) then 1 else 0) + (if is_some (driver_macro f) then 1 else 0).

(** The file is neither a header, nor a user-space program, nor a KUnit
    suite. *)
Definition module_source (f : source_file) : bool :=
  negb (is_header f) && negb (defines_main f) && negb (kunit_suite f).

Definition same_file (f g : source_file) : bool :=
  String.eqb (example f) (example g) && String.eqb (file_name f) (file_name g).

(** [f] declares [extern] a function that [g] exports: code of [f] calls
    into [g]. *)
Definition calls_into (f g : source_file) : bool :=
  existsb (fun sym => existsb (String.eqb sym) (exports g)) (externs f).



(** The file declares nothing [extern]: every function and variable it
    uses is its own or the kernel's, and the module built from it loads
    without any other module of the repository. *)
Definition self_contained (f : source_file) : bool :=
  match externs f with [] => true | _ :: _ => false end.






End Corpus.

(** ** part2/export-symbol/mylib.c and myuser.c *)

Module ExportSymbol.
Import CInt.

(** mylib.c: the module's state is the counter [mylib_counter]. *)
Definition mylib_init : Z := 0.

(** Each function takes the counter and returns its result and the
    counter. *)
Definition mylib_increment (counter : Z) : Z * Z :=
  let c := s32 (counter + 1) in (c, c).

Definition mylib_get_count (counter : Z) : Z * Z := (counter, counter).


Definition mylib_multiply (a b : Z) : Z := s32 (a * b).

(** myuser.c.  What the module shows of itself is what it prints: the
    numbers of its [pr_info] lines, in order.  The loop runs
    [iterations] times, not at all when the parameter is not positive. *)
Fixpoint myuser_loop (n : nat) (i : Z) (counter : Z) : list Z * Z :=
  match n with
  | O => ([], counter)
  | S n' =>
      let '(result, counter1) := mylib_increment counter in
      let '(lines, counter2) := myuser_loop n' (s32 (i + 1)) counter1 in
      (s32 (i + 1) :: result :: lines, counter2)
  end.

(** [myuser_init] with the module parameter [iterations]: the value
    returned, the numbers printed (initial count, the parameter, the
    step and the count after each increment, the product, the final
    count) and the counter of mylib afterwards. *)
Definition myuser_init (iterations : Z) (counter : Z) : Z * list Z * Z :=
  let '(initial, counter0) := mylib_get_count counter in
  let '(lines, counter1) := myuser_loop (Z.to_nat iterations) 0 counter0 in
  let product := mylib_multiply 6 7 in
  let '(final, counter2) := mylib_get_count counter1 in
  (0, [initial; iterations] ++ lines ++ [product; final], counter2).


End ExportSymbol.

(** ** part13/ramdisk/ramdisk_demo.c *)

Module Ramdisk.
Import CInt.

Definition DISK_SIZE_MB : Z := 16.
Definition DISK_SIZE : Z := DISK_SIZE_MB * 1024 * 1024.
Definition SECTOR_SIZE : Z := 512.
(** [SECTOR_SHIFT] comes from <linux/blk_types.h>. *)
Definition SECTOR_SHIFT : Z := 9.

Inductive blk_status_t : Type := BLK_STS_OK | BLK_STS_IOERR.

(** [rq_data_dir(rq)] *)
Inductive data_dir : Type := READ | WRITE.

(** [struct ramdisk_dev]: [data] is the vzalloc'ed backing store, read
    at a byte offset; [size] is its extent in bytes.  The gendisk and
    the tag set play no part in request processing. *)
Record ramdisk_dev : Type := {
  data : Z -> byte;
  size : Z
}.

(** A segment ([struct bio_vec]) is the window of [bv_len] bytes at
    [bv_offset] in the mapped page: the bytes the driver sees through
    [buf]. *)
Abbreviation bio_vec := (list byte).

Definition bv_len (bvec : bio_vec) : Z := Z.of_nat (length bvec).

(** [struct request], as far as [ramdisk_queue_rq] reads it:
    [blk_rq_pos], [rq_data_dir] and the segments in iteration order. *)
Record request : Type := {
  rq_sector : Z;
  rq_dir : data_dir;
  rq_bvecs : list bio_vec
}.

(** What a call leaves behind: the status the request was completed
    with (the value also returned), the device, and the segment buffers;
    or a kernel fault when a [memcpy] leaves the backing store. *)
Inductive outcome : Type :=
| Completed (status : blk_status_t) (dev : ramdisk_dev) (bvecs : list bio_vec)
| Oops.

(** [memcpy(dev->data + pos, buf, len)] *)
Definition memcpy_to_data (d : Z -> byte) (pos : Z) (buf : list byte) : Z -> byte :=
  fun a =>
    if (pos <=? a) && (a <? pos + bv_len buf)
    then nth (Z.to_nat (a - pos)) buf x00
    else d a.

(** [memcpy(buf, dev->data + pos, len)] *)
Definition memcpy_from_data (d : Z -> byte) (pos : Z) (len : nat) : list byte :=
  map (fun i => d (pos + Z.of_nat i)) (seq 0 len).

(** The range [pos, pos + len) lies inside the allocation. *)
Definition in_backing_store (dev : ramdisk_dev) (pos len : Z) : bool :=
  (0 <=? pos) && (pos + len <=? size dev).

(** The body of [rq_for_each_segment] with its loop state [pos]. *)
Fixpoint rq_for_each_segment (dir : data_dir) (dev_size : Z)
    (bvecs : list bio_vec) (pos : Z) (dev : ramdisk_dev) : outcome :=
  match bvecs with
  | [] => Completed BLK_STS_OK dev []
  | bvec :: rest =>
      let len := bv_len bvec in
      if s64 (pos + len) >? dev_size then
        Completed BLK_STS_IOERR dev bvecs
      else if negb (in_backing_store dev pos len) then
        Oops
      else
        let '(dev1, bvec1) :=
          match dir with
          | WRITE =>
              ({| data := memcpy_to_data (data dev) pos bvec;
                  size := size dev |}, bvec)
          | READ =>
              (dev, memcpy_from_data (data dev) pos (length bvec))
          end in
        match rq_for_each_segment dir dev_size rest (s64 (pos + len)) dev1 with
        | Completed status dev' out => Completed status dev' (bvec1 :: out)
        | Oops => Oops
        end
  end.

Definition ramdisk_queue_rq (dev : ramdisk_dev) (rq : request) : outcome :=
  let pos := s64 (u64 (Z.shiftl (rq_sector rq) SECTOR_SHIFT)) in
  let dev_size := s64 (size dev) in
  rq_for_each_segment (rq_dir rq) dev_size (rq_bvecs rq) pos dev.

(** The device [ramdisk_init] leaves behind when every allocation and
    registration succeeds: [DISK_SIZE] zeroed bytes. *)
Definition ramdisk_init : ramdisk_dev :=
  {| data := fun _ => x00; size := DISK_SIZE |}.

(** Byte position of segment [k] of a request: where the request starts,
    advanced by the lengths of the segments before it. *)
Definition total_len (bvecs : list bio_vec) : Z :=
  Z.of_nat (length (concat bvecs)).

Definition seg_pos (rq : request) (k : nat) : Z :=
  rq_sector rq * SECTOR_SIZE + total_len (take k (rq_bvecs rq)).

(** Every segment of the request lies inside the device. *)
Definition segments_within (dev : ramdisk_dev) (rq : request) : Prop :=
  forall k bvec, rq_bvecs rq !! k = Some bvec ->
    seg_pos rq k + bv_len bvec <= size dev.

(** Some segment, at its position in iteration order, ends after the
    last byte of the device. *)
Definition segment_past_end (dev : ramdisk_dev) (rq : request) : Prop :=
  exists k bvec, rq_bvecs rq !! k = Some bvec /\
    seg_pos rq k + bv_len bvec > size dev.

(** Example requests.  [write_two_sectors] writes sectors 3 and 4;
    [read_two_sectors] reads them back; [write_across_end] starts at the
    last sector and carries a second segment that does not fit;
    [write_at_loff_t_limit] is a one-segment write whose end is 2^63. *)
Definition write_two_sectors : request :=
  {| rq_sector := 3; rq_dir := WRITE;
     rq_bvecs := [repeat x01 512; repeat x02 512] |}.

Definition read_two_sectors : request :=
  {| rq_sector := 3; rq_dir := READ;
     rq_bvecs := [repeat x00 512; repeat x00 512] |}.

Definition write_across_end : request :=
  {| rq_sector := 32767; rq_dir := WRITE;
     rq_bvecs := [repeat x01 512; repeat x02 512] |}.

Definition write_at_loff_t_limit : request :=
  {| rq_sector := 2 ^ 54 - 1; rq_dir := WRITE;
     rq_bvecs := [repeat x01 512] |}.

(** *** Module load and unload *)

(** What the loaded module holds: the backing store, the tag set, the
    gendisk with the capacity set on it (in sectors), and the disk's
    registration. *)
Record ramdisk_module : Type := {
  store : option ramdisk_dev;
  tag_set : bool;
  disk : option Z;
  disk_added : bool
}.

Definition ramdisk_unloaded : ramdisk_module :=
  {| store := None; tag_set := false; disk := None; disk_added := false |}.

(** The kernel calls of [ramdisk_init] and [ramdisk_exit] on that state.
    The calls that set an object up are the successful ones; a call that
    releases an object has no result when the object is not held, or
    while something built on it still is. *)
Definition vzalloc (sz : Z) (m : ramdisk_module) : ramdisk_module :=
  {| store := Some {| data := fun _ => x00; size := sz |};
     tag_set := tag_set m; disk := disk m; disk_added := disk_added m |}.

Definition blk_mq_alloc_tag_set (m : ramdisk_module) : ramdisk_module :=
  {| store := store m; tag_set := true; disk := disk m; disk_added := disk_added m |}.

Definition blk_mq_alloc_disk (m : ramdisk_module) : ramdisk_module :=
  {| store := store m; tag_set := tag_set m; disk := Some 0;
     disk_added := disk_added m |}.

Definition set_capacity (sectors : Z) (m : ramdisk_module) : option ramdisk_module :=
  match disk m with
  | Some _ =>
      Some {| store := store m; tag_set := tag_set m; disk := Some sectors;
              disk_added := disk_added m |}
  | None => None
  end.

Definition add_disk (m : ramdisk_module) : ramdisk_module :=
  {| store := store m; tag_set := tag_set m; disk := disk m; disk_added := true |}.

Definition del_gendisk (m : ramdisk_module) : option ramdisk_module :=
  if disk_added m
  then Some {| store := store m; tag_set := tag_set m; disk := disk m;
               disk_added := false |}
  else None.

Definition put_disk (m : ramdisk_module) : option ramdisk_module :=
  match disk m with
  | Some _ =>
      if disk_added m then None
      else Some {| store := store m; tag_set := tag_set m; disk := None;
                   disk_added := false |}
  | None => None
  end.

Definition blk_mq_free_tag_set (m : ramdisk_module) : option ramdisk_module :=
  match disk m with
  | Some _ => None
  | None =>
      if tag_set m
      then Some {| store := store m; tag_set := false; disk := None;
                   disk_added := disk_added m |}
      else None
  end.

Definition vfree (m : ramdisk_module) : option ramdisk_module :=
  match store m, disk m with
  | Some _, None =>
      Some {| store := None; tag_set := tag_set m; disk := None;
              disk_added := disk_added m |}
  | _, _ => None
  end.

(** The labels at the end of [ramdisk_init], each falling through to the
    next; [err] is the value returned. *)
Definition free_data (err : Z) (m : ramdisk_module) : option (Z * ramdisk_module) :=
  match vfree m with
  | Some m1 => Some (err, m1)
  | None => None
  end.

Definition free_tag_set (err : Z) (m : ramdisk_module) : option (Z * ramdisk_module) :=
  match blk_mq_free_tag_set m with
  | Some m1 => free_data err m1
  | None => None
  end.

Definition cleanup_disk (err : Z) (m : ramdisk_module) : option (Z * ramdisk_module) :=
  match put_disk m with
  | Some m1 => free_tag_set err m1
  | None => None
  end.

(** The capacity [ramdisk_init] sets: [ramdisk.size / SECTOR_SIZE]. *)
Definition ramdisk_capacity : Z := u64 DISK_SIZE / SECTOR_SIZE.

(** [ramdisk_init] as a function of what the kernel answers:
    [vzalloc_ok] says whether the allocation succeeds, [tag_set_err] and
    [add_disk_err] are the values [blk_mq_alloc_tag_set] and [add_disk]
    return, and [disk_err] is the error [blk_mq_alloc_disk] encodes in
    its result when it fails. *)
Definition ramdisk_module_init (vzalloc_ok : bool) (tag_set_err : Z)
    (disk_err : option Z) (add_disk_err : Z) (m : ramdisk_module)
    : option (Z * ramdisk_module) :=
  if negb vzalloc_ok then Some (- Errno.ENOMEM, m)
  else
    let m1 := vzalloc DISK_SIZE m in
    if negb (tag_set_err =? 0) then free_data tag_set_err m1
    else
      let m2 := blk_mq_alloc_tag_set m1 in
      match disk_err with
      | Some err => free_tag_set err m2
      | None =>
          match set_capacity ramdisk_capacity (blk_mq_alloc_disk m2) with
          | None => None
          | Some m3 =>
              if negb (add_disk_err =? 0) then cleanup_disk add_disk_err m3
              else Some (0, add_disk m3)
          end
      end.

(** [ramdisk_exit] *)
Definition ramdisk_module_exit (m : ramdisk_module) : option ramdisk_module :=
  match del_gendisk m with
  | None => None
  | Some m1 =>
      match put_disk m1 with
      | None => None
      | Some m2 =>
          match blk_mq_free_tag_set m2 with
          | None => None
          | Some m3 => vfree m3
          end
      end
  end.

(** The first step of [ramdisk_init] that fails, with the value it makes
    the function return. *)
Definition first_failure (vzalloc_ok : bool) (tag_set_err : Z)
    (disk_err : option Z) (add_disk_err : Z) : option Z :=
  if negb vzalloc_ok then Some (- Errno.ENOMEM)
  else if negb (tag_set_err =? 0) then Some tag_set_err
  else match disk_err with
       | Some err => Some err
       | None => if negb (add_disk_err =? 0) then Some add_disk_err else None
       end.

(** *** Requests in sequence *)

(** The request lies inside the capacity set on the disk, which is what
    the block layer checks before it hands a request to the driver. *)
Definition within_capacity (rq : request) : Prop :=
  0 <= rq_sector rq /\
  rq_sector rq * SECTOR_SIZE + total_len (rq_bvecs rq)
  <= ramdisk_capacity * SECTOR_SIZE.

(** The driver serves the requests one after the other; the statuses
    they were completed with and the buffers they leave, unless a copy
    leaves the backing store. *)
Fixpoint ramdisk_serve (rqs : list request) (dev : ramdisk_dev)
    : option (ramdisk_dev * list (blk_status_t * list bio_vec)) :=
  match rqs with
  | [] => Some (dev, [])
  | rq :: rest =>
      match ramdisk_queue_rq dev rq with
      | Oops => None
      | Completed status dev1 out =>
          match ramdisk_serve rest dev1 with
          | Some (dev2, done) => Some (dev2, (status, out) :: done)
          | None => None
          end
      end
  end.

(** A read of the last sector and of the 512 bytes after it. *)
Definition read_across_end : request :=
  {| rq_sector := 32767; rq_dir := READ;
     rq_bvecs := [repeat x07 512; repeat x09 512] |}.

End Ramdisk.

(** ** part3/simple-char/simple_char.c *)

Module SimpleChar.
Import CInt Errno.

Definition BUFFER_SIZE : Z := 4096.

(** [struct simple_device]: the byte buffer and the number of valid
    bytes ([size_t size]).  The [cdev] plays no part in the file
    operations; [lock] is taken on entry and released on every return
    path of each operation, so each operation is one atomic step. *)
Record simple_device : Type := {
  buffer : list byte;
  size : Z
}.

(** What a file operation leaves behind: the value returned, the device,
    the file position ([*ppos] or [file->f_pos]) and the bytes handed to
    the caller's buffer. *)
Record io_result : Type := {
  ret : Z;
  dev_after : simple_device;
  pos_after : Z;
  to_user : list byte
}.

(** [dev->buffer + pos], [n] bytes. *)
Definition buffer_read (buf : list byte) (pos n : Z) : list byte :=
  take (Z.to_nat n) (drop (Z.to_nat pos) buf).

(** Store [bytes] at [dev->buffer + pos]. *)
Definition buffer_write (buf : list byte) (pos : Z) (bytes : list byte) : list byte :=
  take (Z.to_nat pos) buf ++ bytes ++ drop (Z.to_nat pos + length bytes) buf.

(** [schar_read].  [uaccess] is the number of bytes of the caller's
    buffer that can be written: [copy_to_user] of [n] bytes succeeds
    exactly when [n <= uaccess], and when it does not it has stored the
    bytes that fit before it reports the fault.  The comparison of the
    [loff_t] position with the [size_t] size is unsigned. *)
Definition schar_read (dev : simple_device) (uaccess : Z) (count : Z) (ppos : Z)
    : io_result :=
  if u64 ppos >=? size dev then
    {| ret := 0; dev_after := dev; pos_after := ppos; to_user := [] |}
  else
    let available := u64 (size dev - ppos) in
    let count := if count >? available then available else count in
    if count >? uaccess then
      {| ret := - EFAULT; dev_after := dev; pos_after := ppos;
         to_user := take (Z.to_nat uaccess) (buffer_read (buffer dev) ppos count) |}
    else
      {| ret := s64 count;
         dev_after := dev;
         pos_after := s64 (ppos + count);
         to_user := buffer_read (buffer dev) ppos count |}.

(** [copy_from_user] of [n] bytes that faults after the readable bytes
    [ubuf]: the bytes read are stored and the rest of the destination is
    zeroed. *)
Definition copy_from_user_fault (ubuf : list byte) (n : Z) : list byte :=
  ubuf ++ repeat x00 (Z.to_nat n - length ubuf).

(** [schar_write].  [ubuf] holds the readable bytes of the caller's
    buffer: [copy_from_user] of [n] bytes succeeds exactly when
    [n <= length ubuf].  The position is compared with [BUFFER_SIZE] as
    a signed value and with [dev->size] as an unsigned one. *)
Definition schar_write (dev : simple_device) (ubuf : list byte) (count : Z) (ppos : Z)
    : io_result :=
  if ppos >=? BUFFER_SIZE then
    {| ret := - ENOSPC; dev_after := dev; pos_after := ppos; to_user := [] |}
  else
    let space := u64 (BUFFER_SIZE - ppos) in
    let count := if count >? space then space else count in
    if count >? Z.of_nat (length ubuf) then
      {| ret := - EFAULT;
         dev_after :=
           {| buffer := buffer_write (buffer dev) ppos (copy_from_user_fault ubuf count);
              size := size dev |};
         pos_after := ppos;
         to_user := [] |}
    else
      let ppos' := s64 (ppos + count) in
      {| ret := s64 count;
         dev_after :=
           {| buffer := buffer_write (buffer dev) ppos (take (Z.to_nat count) ubuf);
              size := if u64 ppos' >? size dev then u64 ppos' else size dev |};
         pos_after := ppos';
         to_user := [] |}.

Definition SEEK_SET : Z := 0.
Definition SEEK_CUR : Z := 1.
Definition SEEK_END : Z := 2.

(** [simple_llseek] *)
Definition simple_llseek (dev : simple_device) (f_pos : Z) (offset : Z) (whence : Z)
    : io_result :=
  let fail := {| ret := - EINVAL; dev_after := dev; pos_after := f_pos; to_user := [] |} in
  let seek newpos :=
    if newpos <? 0 then fail
    else {| ret := newpos; dev_after := dev; pos_after := newpos; to_user := [] |} in
  if whence =? SEEK_SET then seek offset
  else if whence =? SEEK_CUR then seek (s64 (f_pos + offset))
  else if whence =? SEEK_END then seek (s64 (u64 (size dev + offset)))
  else fail.

(** The device after [simple_init] (a static object, so the buffer is
    zeroed) and the position of a freshly opened file. *)
Definition simple_init : simple_device :=
  {| buffer := repeat x00 (Z.to_nat BUFFER_SIZE); size := 0 |}.

(** The calls a process can make on an open file of the device. *)
Inductive file_op : Type :=
| Read (uaccess : Z) (count : Z)
| Write (ubuf : list byte) (count : Z)
| Llseek (offset : Z) (whence : Z).

(** The arguments have the C types of the prototypes: [size_t count],
    [loff_t offset]. *)
Definition file_op_typed (op : file_op) : Prop :=
  match op with
  | Read uaccess count => 0 <= count <= U64_MAX
  | Write ubuf count => 0 <= count <= U64_MAX
  | Llseek offset whence => - 2 ^ 63 <= offset <= S64_MAX
  end.

(** One call on the open file [(dev, f_pos)]. *)
Definition file_step (op : file_op) (st : simple_device * Z) : io_result :=
  let '(dev, f_pos) := st in
  match op with
  | Read uaccess count => schar_read dev uaccess count f_pos
  | Write ubuf count => schar_write dev ubuf count f_pos
  | Llseek offset whence => simple_llseek dev f_pos offset whence
  end.

Definition file_next (st : simple_device * Z) (op : file_op) : simple_device * Z :=
  let r := file_step op st in (dev_after r, pos_after r).

(** The state a call on one open file keeps: the buffer has its declared
    size, the valid length stays inside it, and the file position is a
    non-negative [loff_t]. *)
Definition file_inv (st : simple_device * Z) : Prop :=
  length (buffer (fst st)) = Z.to_nat BUFFER_SIZE /\
  0 <= size (fst st) <= BUFFER_SIZE /\
  0 <= snd st <= S64_MAX.

(** The device with its open files, each with its own position.  A
    process opens the device ([schar_open] leaves the device alone and
    the new file starts at position 0) or makes a call on the open file
    [fd]; a call on a descriptor that is not open never reaches the
    driver. *)
Inductive sys_op : Type :=
| Open
| Call (fd : nat) (op : file_op).

Definition sys_op_typed (c : sys_op) : Prop :=
  match c with
  | Open => True
  | Call _ op => file_op_typed op
  end.

Definition sys_next (st : simple_device * list Z) (c : sys_op)
    : simple_device * list Z :=
  match c with
  | Open => (fst st, snd st ++ [0])
  | Call fd op =>
      match snd st !! fd with
      | None => st
      | Some pos =>
          let r := file_step op (fst st, pos) in
          (dev_after r, <[fd := pos_after r]> (snd st))
      end
  end.

Definition sys_run (ops : list sys_op) (st : simple_device * list Z)
    : simple_device * list Z :=
  fold_left sys_next ops st.

Definition sys_inv (st : simple_device * list Z) : Prop :=
  length (buffer (fst st)) = Z.to_nat BUFFER_SIZE /\
  0 <= size (fst st) <= BUFFER_SIZE /\
  Forall (fun pos => 0 <= pos <= S64_MAX) (snd st).

(** What a write does in the state [(dev, pos)]: no room at or past
    [BUFFER_SIZE]; otherwise [n = min(count, BUFFER_SIZE - pos)] bytes are
    stored when the caller's buffer holds them, and a fault leaves [size]
    and the position alone. *)
Definition write_contract (dev : simple_device) (pos : Z) : Prop :=
  forall ubuf count, 0 <= count <= U64_MAX ->
    let r := schar_write dev ubuf count pos in
    (BUFFER_SIZE <= pos ->
     ret r = - ENOSPC /\ dev_after r = dev /\ pos_after r = pos) /\
    (pos < BUFFER_SIZE ->
     let n := Z.min count (BUFFER_SIZE - pos) in
     (n <= Z.of_nat (length ubuf) ->
      ret r = n /\ pos_after r = pos + n /\
      size (dev_after r) = Z.max (size dev) (pos + n) /\
      buffer (dev_after r) = buffer_write (buffer dev) pos (take (Z.to_nat n) ubuf)) /\
     (Z.of_nat (length ubuf) < n ->
      ret r = - EFAULT /\ pos_after r = pos /\ size (dev_after r) = size dev)).

(** Reads and seeks leave the device, buffer and [size], as it was. *)
Definition read_llseek_keep_device (dev : simple_device) (pos : Z) : Prop :=
  (forall uaccess count, dev_after (schar_read dev uaccess count pos) = dev) /\
  (forall offset whence, dev_after (simple_llseek dev pos offset whence) = dev).

(** Example states and calls: four valid bytes at the start of the
    buffer; a short session on a freshly opened file. *)
Definition four_bytes : simple_device :=
  {| buffer := [x01; x02; x03; x04] ++ repeat x00 4092; size := 4 |}.

Definition short_session : list sys_op :=
  [ Open; Call 0 (Write [x01; x02; x03] 3); Call 0 (Llseek 0 SEEK_SET);
    Call 0 (Read 16 2); Call 0 (Write [] 4);
    Open; Call 1 (Llseek 4095 SEEK_SET); Call 1 (Write [x05; x06] 2);
    Call 1 (Write [x07] 1); Call 0 (Read 4096 4096) ].

(** *** Module load and unload *)

(** What the loaded module has registered with the kernel: the device
    number region, the cdev, the class and the device node. *)
Record simple_module : Type := {
  chrdev_region : bool;
  cdev_added : bool;
  class_created : bool;
  device_created : bool
}.

Definition simple_unloaded : simple_module :=
  {| chrdev_region := false; cdev_added := false;
     class_created := false; device_created := false |}.

(** The kernel calls of [simple_init] and [simple_exit] on that state.
    The calls that register are the successful ones; a call that
    releases has no result when its object is not registered, or while
    something registered on top of it still is. *)
Definition alloc_chrdev_region (m : simple_module) : simple_module :=
  {| chrdev_region := true; cdev_added := cdev_added m;
     class_created := class_created m; device_created := device_created m |}.

Definition cdev_add (m : simple_module) : simple_module :=
  {| chrdev_region := chrdev_region m; cdev_added := true;
     class_created := class_created m; device_created := device_created m |}.

Definition class_create (m : simple_module) : simple_module :=
  {| chrdev_region := chrdev_region m; cdev_added := cdev_added m;
     class_created := true; device_created := device_created m |}.

Definition device_create (m : simple_module) : simple_module :=
  {| chrdev_region := chrdev_region m; cdev_added := cdev_added m;
     class_created := class_created m; device_created := true |}.

Definition device_destroy (m : simple_module) : option simple_module :=
  if device_created m
  then Some {| chrdev_region := chrdev_region m; cdev_added := cdev_added m;
               class_created := class_created m; device_created := false |}
  else None.

Definition class_destroy (m : simple_module) : option simple_module :=
  if class_created m && negb (device_created m)
  then Some {| chrdev_region := chrdev_region m; cdev_added := cdev_added m;
               class_created := false; device_created := false |}
  else None.

Definition cdev_del (m : simple_module) : option simple_module :=
  if cdev_added m && negb (device_created m)
  then Some {| chrdev_region := chrdev_region m; cdev_added := false;
               class_created := class_created m; device_created := false |}
  else None.

Definition unregister_chrdev_region (m : simple_module) : option simple_module :=
  if chrdev_region m && negb (cdev_added m)
  then Some {| chrdev_region := false; cdev_added := false;
               class_created := class_created m;
               device_created := device_created m |}
  else None.

(** The labels at the end of [simple_init], each falling through to the
    next; [err] is the value returned. *)
Definition err_cdev (err : Z) (m : simple_module) : option (Z * simple_module) :=
  match unregister_chrdev_region m with
  | Some m1 => Some (err, m1)
  | None => None
  end.

Definition err_class (err : Z) (m : simple_module) : option (Z * simple_module) :=
  match cdev_del m with
  | Some m1 => err_cdev err m1
  | None => None
  end.

Definition err_device (err : Z) (m : simple_module) : option (Z * simple_module) :=
  match class_destroy m with
  | Some m1 => err_class err m1
  | None => None
  end.

(** [simple_init] as a function of what the kernel answers:
    [region_ret] and [cdev_ret] are the values [alloc_chrdev_region] and
    [cdev_add] return, [class_err] and [device_err] the errors
    [class_create] and [device_create] encode in their results when they
    fail. *)
Definition simple_module_init (region_ret cdev_ret : Z)
    (class_err device_err : option Z) (m : simple_module)
    : option (Z * simple_module) :=
  if region_ret <? 0 then Some (region_ret, m)
  else
    let m1 := alloc_chrdev_region m in
    if cdev_ret <? 0 then err_cdev cdev_ret m1
    else
      let m2 := cdev_add m1 in
      match class_err with
      | Some err => err_class err m2
      | None =>
          let m3 := class_create m2 in
          match device_err with
          | Some err => err_device err m3
          | None => Some (0, device_create m3)
          end
      end.

(** [simple_exit] *)
Definition simple_module_exit (m : simple_module) : option simple_module :=
  match device_destroy m with
  | None => None
  | Some m1 =>
      match class_destroy m1 with
      | None => None
      | Some m2 =>
          match cdev_del m2 with
          | None => None
          | Some m3 => unregister_chrdev_region m3
          end
      end
  end.

(** The first step of [simple_init] that fails, with the value it makes
    the function return. *)
Definition first_failure (region_ret cdev_ret : Z)
    (class_err device_err : option Z) : option Z :=
  if region_ret <? 0 then Some region_ret
  else if cdev_ret <? 0 then Some cdev_ret
  else match class_err with
       | Some err => Some err
       | None => device_err
       end.

End SimpleChar.

(** ** part7/threaded-irq-demo/threaded_irq_demo.c *)

Module ThreadedIrq.
Import CInt Errno.

Definition BUFFER_SIZE : Z := 64.

(** [struct irq_demo_device].  [timer] is the state of the [timer_list]:
    [Some ms] when the timer is pending, armed [ms] milliseconds ahead,
    [None] when it is not.  [data_mutex] is [true] while the mutex is
    held.  The wait queue has no reader in the module and is left out. *)
Record irq_demo_device : Type := {
  timer : option Z;
  pending_irq : Z;
  hw_data : Z;
  data_mutex : bool;
  data_buffer : list Z;
  data_head : Z;
  data_count : Z;
  hardirq_count : Z;
  thread_count : Z;
  spurious_count : Z;
  last_irq_time : Z;
  total_latency_ns : Z;
  running : bool;
  interval_ms : Z
}.

(** Field updates. *)
Definition set_timer (v : option Z) (d : irq_demo_device) : irq_demo_device :=
  {| timer := v; pending_irq := pending_irq d; hw_data := hw_data d;
     data_mutex := data_mutex d; data_buffer := data_buffer d;
     data_head := data_head d; data_count := data_count d;
     hardirq_count := hardirq_count d; thread_count := thread_count d;
     spurious_count := spurious_count d; last_irq_time := last_irq_time d;
     total_latency_ns := total_latency_ns d; running := running d;
     interval_ms := interval_ms d |}.

Definition set_hw (pending data : Z) (d : irq_demo_device) : irq_demo_device :=
  {| timer := timer d; pending_irq := pending; hw_data := data;
     data_mutex := data_mutex d; data_buffer := data_buffer d;
     data_head := data_head d; data_count := data_count d;
     hardirq_count := hardirq_count d; thread_count := thread_count d;
     spurious_count := spurious_count d; last_irq_time := last_irq_time d;
     total_latency_ns := total_latency_ns d; running := running d;
     interval_ms := interval_ms d |}.

Definition set_data_mutex (v : bool) (d : irq_demo_device) : irq_demo_device :=
  {| timer := timer d; pending_irq := pending_irq d; hw_data := hw_data d;
     data_mutex := v; data_buffer := data_buffer d;
     data_head := data_head d; data_count := data_count d;
     hardirq_count := hardirq_count d; thread_count := thread_count d;
     spurious_count := spurious_count d; last_irq_time := last_irq_time d;
     total_latency_ns := total_latency_ns d; running := running d;
     interval_ms := interval_ms d |}.

Definition set_ring (buf : list Z) (head count : Z) (d : irq_demo_device)
    : irq_demo_device :=
  {| timer := timer d; pending_irq := pending_irq d; hw_data := hw_data d;
     data_mutex := data_mutex d; data_buffer := buf;
     data_head := head; data_count := count;
     hardirq_count := hardirq_count d; thread_count := thread_count d;
     spurious_count := spurious_count d; last_irq_time := last_irq_time d;
     total_latency_ns := total_latency_ns d; running := running d;
     interval_ms := interval_ms d |}.

Definition set_stats (hardirq thread spurious last_irq total_latency : Z)
    (d : irq_demo_device) : irq_demo_device :=
  {| timer := timer d; pending_irq := pending_irq d; hw_data := hw_data d;
     data_mutex := data_mutex d; data_buffer := data_buffer d;
     data_head := data_head d; data_count := data_count d;
     hardirq_count := hardirq; thread_count := thread;
     spurious_count := spurious; last_irq_time := last_irq;
     total_latency_ns := total_latency; running := running d;
     interval_ms := interval_ms d |}.

Definition set_control (run : bool) (interval : Z) (d : irq_demo_device)
    : irq_demo_device :=
  {| timer := timer d; pending_irq := pending_irq d; hw_data := hw_data d;
     data_mutex := data_mutex d; data_buffer := data_buffer d;
     data_head := data_head d; data_count := data_count d;
     hardirq_count := hardirq_count d; thread_count := thread_count d;
     spurious_count := spurious_count d; last_irq_time := last_irq_time d;
     total_latency_ns := total_latency_ns d; running := run;
     interval_ms := interval |}.

(** [mutex_lock(&dev->data_mutex)]: no result when the mutex is held. *)
Definition mutex_lock (d : irq_demo_device) : option irq_demo_device :=
  if data_mutex d then None else Some (set_data_mutex true d).

Definition mutex_unlock (d : irq_demo_device) : irq_demo_device :=
  set_data_mutex false d.

(** The code between [mutex_lock] and [mutex_unlock], which reads and
    writes [data_buffer], [data_head] and [data_count]: it has a result
    only while the mutex is held. *)
Definition holding_mutex {A : Type} (d : irq_demo_device) (body : option A)
    : option A :=
  if data_mutex d then body else None.

(** [mod_timer(&dev->timer, jiffies + msecs_to_jiffies(dev->interval_ms))]
    and [del_timer_sync(&dev->timer)]. *)
Definition mod_timer (d : irq_demo_device) : irq_demo_device :=
  set_timer (Some (interval_ms d)) d.

Definition del_timer_sync (d : irq_demo_device) : irq_demo_device :=
  set_timer None d.

(** [trigger_simulated_irq], the timer callback; [rnd] is the value of
    [get_random_u32()] and [now] that of [ktime_get_ns()]. *)
Definition trigger_simulated_irq (rnd now : Z) (d : irq_demo_device)
    : irq_demo_device :=
  if negb (running d) then d
  else
    let d1 := set_hw 1 (Z.land (u32 rnd) 65535) d in
    let d2 := set_stats (hardirq_count d1) (thread_count d1) (spurious_count d1)
                (u64 now) (total_latency_ns d1) d1 in
    mod_timer d2.

(** The kernel runs the callback of a pending timer when it expires, and
    the timer is no longer pending while the callback runs. *)
Definition timer_expiry (rnd now : Z) (d : irq_demo_device) : irq_demo_device :=
  match timer d with
  | None => d
  | Some _ => trigger_simulated_irq rnd now (set_timer None d)
  end.

Inductive irqreturn_t : Type := IRQ_NONE | IRQ_HANDLED | IRQ_WAKE_THREAD.

(** [demo_hardirq] *)
Definition demo_hardirq (d : irq_demo_device) : irqreturn_t * irq_demo_device :=
  if pending_irq d =? 0 then
    (IRQ_NONE,
     set_stats (hardirq_count d) (thread_count d) (s32 (spurious_count d + 1))
       (last_irq_time d) (total_latency_ns d) d)
  else
    let d1 := set_hw 0 (hw_data d) d in
    (IRQ_WAKE_THREAD,
     set_stats (s32 (hardirq_count d1 + 1)) (thread_count d1) (spurious_count d1)
       (last_irq_time d1) (total_latency_ns d1) d1).

(** [dev->data_buffer[i] = v]; an index outside the array has no result. *)
Definition buffer_store (buf : list Z) (i v : Z) : option (list Z) :=
  if (0 <=? i) && (i <? Z.of_nat (length buf))
  then Some (<[Z.to_nat i := v]> buf)
  else None.

(** [dev->data_buffer[i]] *)
Definition buffer_load (buf : list Z) (i : Z) : option Z :=
  if 0 <=? i then buf !! Z.to_nat i else None.

(** [demo_thread_handler]; [now] is the value of [ktime_get_ns()]. *)
Definition demo_thread_handler (now : Z) (d : irq_demo_device)
    : option (irqreturn_t * irq_demo_device) :=
  let latency := u64 (u64 now - last_irq_time d) in
  let d1 := set_stats (hardirq_count d) (s32 (thread_count d + 1)) (spurious_count d)
              (last_irq_time d) (u64 (total_latency_ns d + latency)) d in
  match mutex_lock d1 with
  | None => None
  | Some d2 =>
      holding_mutex d2
        match buffer_store (data_buffer d2) (data_head d2) (hw_data d2) with
        | None => None
        | Some buf =>
            let head := Z.rem (s32 (data_head d2 + 1)) BUFFER_SIZE in
            let count :=
              if data_count d2 <? BUFFER_SIZE then s32 (data_count d2 + 1)
              else data_count d2 in
            Some (IRQ_HANDLED, mutex_unlock (set_ring buf head count d2))
        end
  end.

(** The loop of [data_show] over [i = from, ..., from + n - 1]: the
    lines [(i, data_buffer[idx])] it prints. *)
Fixpoint data_show_lines (d : irq_demo_device) (count : Z) (from : Z) (n : nat)
    : option (list (Z * Z)) :=
  match n with
  | O => Some []
  | S n' =>
      let idx := Z.rem (s32 (data_head d - count + from + BUFFER_SIZE)) BUFFER_SIZE in
      match buffer_load (data_buffer d) idx with
      | None => None
      | Some v =>
          match data_show_lines d count (from + 1) n' with
          | None => None
          | Some rest => Some ((from, v) :: rest)
          end
      end
  end.

(** [data_show] for a registered device: the value returned, the count
    printed in the heading, the lines, and the device. *)
Definition data_show (d : irq_demo_device)
    : option (Z * Z * list (Z * Z) * irq_demo_device) :=
  match mutex_lock d with
  | None => None
  | Some d1 =>
      holding_mutex d1
        (let count := data_count d1 in
         match data_show_lines d1 count 0 (Z.to_nat count) with
         | None => None
         | Some lines => Some (0, count, lines, mutex_unlock d1)
         end)
  end.

(** The values [stats_show] prints. *)
Record stats_report : Type := {
  rep_running : bool;
  rep_interval : Z;
  rep_hardirq : Z;
  rep_thread : Z;
  rep_spurious : Z;
  rep_avg_latency : Z;
  rep_data : Z
}.

(** [stats_show] for a registered device: the value returned and the
    values printed.  It does not take the mutex: the counters are
    atomic, and [data_count] is read as it is, whoever holds the
    mutex. *)
Definition stats_show (d : irq_demo_device) : Z * stats_report :=
  let thread_cnt := thread_count d in
  let avg_latency :=
    if thread_cnt >? 0 then total_latency_ns d / u64 thread_cnt else 0 in
  (0, {| rep_running := running d; rep_interval := interval_ms d;
         rep_hardirq := hardirq_count d; rep_thread := thread_cnt;
         rep_spurious := spurious_count d; rep_avg_latency := avg_latency;
         rep_data := data_count d |}).

(** The values of the buffer from oldest to newest, as [data_show]
    prints them. *)
Definition entries (d : irq_demo_device) : option (list Z) :=
  match data_show d with
  | Some (_, _, lines, _) => Some (map snd lines)
  | None => None
  end.

(** C strings: the bytes before the first NUL. *)
Fixpoint c_str (s : list ascii) : list ascii :=
  match s with
  | [] => []
  | c :: rest => if Ascii.eqb c zero then [] else c :: c_str rest
  end.

Definition ascii_list_eqb (a b : list ascii) : bool :=
  String.eqb (string_of_list_ascii a) (string_of_list_ascii b).

(** [strcmp(cmd, lit) == 0], for a literal without NUL. *)
Definition strcmp_eq (cmd : list ascii) (lit : string) : bool :=
  ascii_list_eqb (c_str cmd) (list_ascii_of_string lit).

(** [strncmp(cmd, lit, n) == 0], for a literal of at least [n] bytes
    without NUL. *)
Definition strncmp_eq (cmd : list ascii) (lit : string) (n : nat) : bool :=
  ascii_list_eqb (take n (c_str cmd)) (take n (list_ascii_of_string lit)).

(** The 32-byte [cmd] array of [control_write] after the copy, the
    terminator and the removal of a trailing newline: the first
    [len = min(count, 31)] bytes of the caller's buffer, without the last
    one when it is a newline. *)
Definition control_cmd (ubuf : list ascii) (len : Z) : list ascii :=
  let cmd := take (Z.to_nat len) ubuf in
  match last cmd with
  | Some c =>
      if Ascii.eqb c "010"%char then take (Z.to_nat len - 1) cmd else cmd
  | None => cmd
  end.

Section Control.

(** [kstrtouint(s, 10, &v)] of the kernel library: [Some v] when it
    returns 0 and stores [v], [None] when it returns an error. *)
Variable kstrtouint : list ascii -> option Z.

(** [control_write] for a registered device.  [ubuf] holds the readable
    bytes of the caller's buffer: [copy_from_user] of [len] bytes succeeds
    exactly when [len <= length ubuf]. *)
Definition control_write (ubuf : list ascii) (count : Z) (d : irq_demo_device)
    : option (Z * irq_demo_device) :=
  let len := if count <? 31 then count else 31 in
  if len >? Z.of_nat (length ubuf) then Some (- EFAULT, d)
  else
    let cmd := control_cmd ubuf len in
    if strcmp_eq cmd "start" then
      if negb (running d)
      then Some (s64 count, mod_timer (set_control true (interval_ms d) d))
      else Some (s64 count, d)
    else if strcmp_eq cmd "stop" then
      Some (s64 count, del_timer_sync (set_control false (interval_ms d) d))
    else if strcmp_eq cmd "reset" then
      let d1 := set_stats 0 0 0 (last_irq_time d) 0 d in
      match mutex_lock d1 with
      | None => None
      | Some d2 =>
          holding_mutex d2
            (Some (s64 count, mutex_unlock (set_ring (data_buffer d2) 0 0 d2)))
      end
    else if strncmp_eq cmd "interval " 9 then
      match kstrtouint (drop 9 (c_str cmd)) with
      | Some interval =>
          if interval >? 0
          then Some (s64 count, set_control (running d) interval d)
          else Some (s64 count, d)
      | None => Some (s64 count, d)
      end
    else Some (- EINVAL, d).

(** What can happen to a registered device: the timer expires, or a
    process writes the control file or reads the data file or the
    statistics file.  [IrqLine] is the dispatch of the interrupt core
    for a pair of handlers registered with [request_threaded_irq]: the
    hardirq handler runs and, when it asks for it, the threaded handler.
    The module registers its two handlers only in a comment of
    [demo_probe], and its timer callback does not call them, so in the
    module as written this event does not occur; it is kept among the
    events so that what is proved of every sequence of events also
    covers a build that registers the handlers. *)
Inductive event : Type :=
| TimerExpiry (rnd now : Z)
| IrqLine (now : Z)
| ControlWrite (ubuf : list ascii) (count : Z)
| DataShow
| StatsShow.

Definition irq_line (now : Z) (d : irq_demo_device) : option irq_demo_device :=
  match demo_hardirq d with
  | (IRQ_WAKE_THREAD, d1) =>
      match demo_thread_handler now d1 with
      | Some (_, d2) => Some d2
      | None => None
      end
  | (_, d1) => Some d1
  end.

Definition dev_step (ev : event) (d : irq_demo_device) : option irq_demo_device :=
  match ev with
  | TimerExpiry rnd now => Some (timer_expiry rnd now d)
  | IrqLine now => irq_line now d
  | ControlWrite ubuf count =>
      match control_write ubuf count d with
      | Some (_, d') => Some d'
      | None => None
      end
  | DataShow =>
      match data_show d with
      | Some (_, _, _, d') => Some d'
      | None => None
      end
  | StatsShow => Some d
  end.

Fixpoint dev_run (evs : list event) (d : irq_demo_device) : option irq_demo_device :=
  match evs with
  | [] => Some d
  | ev :: rest =>
      match dev_step ev d with
      | Some d' => dev_run rest d'
      | None => None
      end
  end.

(** The event is a write of the [start] command to the control file. *)
Definition is_start (ev : event) : bool :=
  match ev with
  | ControlWrite ubuf count =>
      let len := if count <? 31 then count else 31 in
      (len <=? Z.of_nat (length ubuf)) && strcmp_eq (control_cmd ubuf len) "start"
  | _ => false
  end.

End Control.

(** The module's own state: the driver data of the platform device (the
    [devm_kzalloc] object), whether the global [demo_dev] points to it,
    and the entries under the proc directory when it exists. *)
Record demo_module : Type := {
  drvdata : option irq_demo_device;
  demo_dev : bool;
  proc_dir : option (list string)
}.

Definition demo_unbound : demo_module :=
  {| drvdata := None; demo_dev := false; proc_dir := None |}.

(** [demo_probe]; [alloc_ok] and [mkdir_ok] say whether [devm_kzalloc]
    and [proc_mkdir] succeed.  The allocation is zeroed. *)
Definition demo_probe (alloc_ok mkdir_ok : bool) (m : demo_module)
    : Z * demo_module :=
  if negb alloc_ok then (- ENOMEM, m)
  else
    let dev :=
      {| timer := None; pending_irq := 0; hw_data := 0;
         data_mutex := false; data_buffer := repeat 0 (Z.to_nat BUFFER_SIZE);
         data_head := 0; data_count := 0;
         hardirq_count := 0; thread_count := 0; spurious_count := 0;
         last_irq_time := 0; total_latency_ns := 0;
         running := false; interval_ms := 100 |} in
    (0, {| drvdata := Some dev; demo_dev := true;
           proc_dir := if mkdir_ok then Some ["stats"; "data"; "control"]%string
                       else None |}).

(** [demo_remove]; it has no result when the platform device carries no
    driver data. *)
Definition demo_remove (m : demo_module) : option (Z * demo_module) :=
  match drvdata m with
  | None => None
  | Some dev =>
      let dev1 := del_timer_sync (set_control false (interval_ms dev) dev) in
      Some (0, {| drvdata := Some dev1; demo_dev := false; proc_dir := None |})
  end.

(** [kstrtouint(s, 10, &v)] as the kernel library defines it, for the
    examples: an optional [+], one or more decimal digits, an optional
    newline and nothing after it; the value must fit an [unsigned int]. *)
Definition digit_value (c : ascii) : option Z :=
  let n := Z.of_nat (nat_of_ascii c) in
  if (48 <=? n) && (n <=? 57) then Some (n - 48) else None.

(** The value of the leading digits, and what follows them. *)
Fixpoint parse_integer (acc : Z) (s : list ascii) : Z * list ascii :=
  match s with
  | [] => (acc, [])
  | c :: rest =>
      match digit_value c with
      | Some v => parse_integer (acc * 10 + v) rest
      | None => (acc, s)
      end
  end.

Definition kstrtouint_dec (s : list ascii) : option Z :=
  let digits :=
    match s with
    | c :: rest => if Ascii.eqb c "+"%char then rest else s
    | [] => s
    end in
  match digits with
  | [] => None
  | c :: _ =>
      match digit_value c with
      | None => None
      | Some _ =>
          let '(v, rest) := parse_integer 0 digits in
          let at_end :=
            match rest with
            | [] => true
            | [c'] => Ascii.eqb c' "010"%char
            | _ => false
            end in
          if at_end && (v <=? 4294967295) then Some v else None
      end
  end.

(** Example device: a full ring holding 0, 1, ..., 63 with the oldest
    entry at index 5, and 48879 waiting in the hardware register. *)
Definition full_ring : irq_demo_device :=
  {| timer := Some 100; pending_irq := 0; hw_data := 48879;
     data_mutex := false;
     data_buffer := map (fun i => (Z.of_nat i + 59) mod 64) (seq 0 64);
     data_head := 5; data_count := 64;
     hardirq_count := 200; thread_count := 200; spurious_count := 0;
     last_irq_time := 0; total_latency_ns := 0;
     running := true; interval_ms := 100 |}.

(** The ring read from oldest to newest: [count] entries ending just
    before [head]. *)
Definition ring_values (buf : list Z) (head count : Z) : list Z :=
  map (fun i => default 0 (buf !! Z.to_nat ((head - count + Z.of_nat i + 64) mod 64)))
      (seq 0 (Z.to_nat count)).

(** The ring buffer is well formed and its mutex is free. *)
Definition ring_inv (d : irq_demo_device) : Prop :=
  length (data_buffer d) = Z.to_nat BUFFER_SIZE /\
  0 <= data_count d <= BUFFER_SIZE /\
  0 <= data_head d < BUFFER_SIZE /\
  data_mutex d = false.

(** Nothing has happened and nothing is scheduled. *)
Definition quiescent (d : irq_demo_device) : Prop :=
  running d = false /\ timer d = None /\ pending_irq d = 0 /\
  hardirq_count d = 0 /\ thread_count d = 0 /\
  data_count d = 0 /\ data_head d = 0 /\ data_mutex d = false /\
  length (data_buffer d) = Z.to_nat BUFFER_SIZE.

(** *** The running device *)


(** The hardware register and every slot of the buffer hold a 16-bit
    value. *)
Definition sample_inv (d : irq_demo_device) : Prop :=
  0 <= hw_data d < 65536 /\
  Forall (fun v => 0 <= v < 65536) (data_buffer d).

End ThreadedIrq.

(** ** part3/ioctl-device/ioctl_example.h and ioctl_device.c *)

Module IoctlDevice.
Import CInt Errno.

(** The command encoding of <asm-generic/ioctl.h>: number in bits 0-7,
    type in bits 8-15, size in bits 16-29, direction in bits 30-31. *)
Definition _IOC_NONE : Z := 0.
Definition _IOC_WRITE : Z := 1.
Definition _IOC_READ : Z := 2.

Definition _IOC (dir type nr size : Z) : Z :=
  Z.lor (Z.lor (Z.shiftl dir 30) (Z.shiftl type 8))
        (Z.lor (Z.shiftl nr 0) (Z.shiftl size 16)).

Definition _IOC_TYPE (cmd : Z) : Z := Z.land (Z.shiftr cmd 8) 255.
Definition _IOC_NR (cmd : Z) : Z := Z.land (Z.shiftr cmd 0) 255.

Definition _IO (type nr : Z) : Z := _IOC _IOC_NONE type nr 0.
Definition _IOR (type nr size : Z) : Z := _IOC _IOC_READ type nr size.
Definition _IOW (type nr size : Z) : Z := _IOC _IOC_WRITE type nr size.
Definition _IOWR (type nr size : Z) : Z := _IOC (Z.lor _IOC_READ _IOC_WRITE) type nr size.

(** ioctl_example.h.  The sizes are those of an LP64 target. *)
Definition IOCTL_MAGIC : Z := 69.  (* 'E' *)

Definition sizeof_int : Z := 4.
Definition sizeof_ioctl_config : Z := 40.
Definition sizeof_ioctl_stats : Z := 32.

Record ioctl_config : Type := {
  cfg_speed : Z;
  cfg_mode : Z;
  cfg_name : list ascii
}.

Record ioctl_stats : Type := {
  reads : Z;
  writes : Z;
  ioctls : Z;
  stats_last_error : Z
}.

Definition IOCTL_RESET : Z := _IO IOCTL_MAGIC 0.
Definition IOCTL_GET_STATS : Z := _IOR IOCTL_MAGIC 1 sizeof_ioctl_stats.
Definition IOCTL_GET_VALUE : Z := _IOR IOCTL_MAGIC 2 sizeof_int.
Definition IOCTL_SET_CONFIG : Z := _IOW IOCTL_MAGIC 3 sizeof_ioctl_config.
Definition IOCTL_SET_VALUE : Z := _IOW IOCTL_MAGIC 4 sizeof_int.
Definition IOCTL_XFER_CONFIG : Z := _IOWR IOCTL_MAGIC 5 sizeof_ioctl_config.
Definition IOCTL_MAXNR : Z := 5.

(** [struct ioctl_device].  [lock] is [true] while the mutex is held;
    [name] is the 32-byte array. *)
Record ioctl_device : Type := {
  lock : bool;
  speed : Z;
  mode : Z;
  name : list ascii;
  value : Z;
  read_count : Z;
  write_count : Z;
  ioctl_count : Z;
  last_error : Z
}.

Definition set_lock (v : bool) (d : ioctl_device) : ioctl_device :=
  {| lock := v; speed := speed d; mode := mode d; name := name d; value := value d;
     read_count := read_count d; write_count := write_count d;
     ioctl_count := ioctl_count d; last_error := last_error d |}.

Definition set_ioctl_count (n : Z) (d : ioctl_device) : ioctl_device :=
  {| lock := lock d; speed := speed d; mode := mode d; name := name d; value := value d;
     read_count := read_count d; write_count := write_count d;
     ioctl_count := n; last_error := last_error d |}.

Definition set_last_error (e : Z) (d : ioctl_device) : ioctl_device :=
  {| lock := lock d; speed := speed d; mode := mode d; name := name d; value := value d;
     read_count := read_count d; write_count := write_count d;
     ioctl_count := ioctl_count d; last_error := e |}.

Definition set_value (v : Z) (d : ioctl_device) : ioctl_device :=
  {| lock := lock d; speed := speed d; mode := mode d; name := name d; value := v;
     read_count := read_count d; write_count := write_count d;
     ioctl_count := ioctl_count d; last_error := last_error d |}.

Definition set_config (s m : Z) (n : list ascii) (d : ioctl_device) : ioctl_device :=
  {| lock := lock d; speed := s; mode := m; name := n; value := value d;
     read_count := read_count d; write_count := write_count d;
     ioctl_count := ioctl_count d; last_error := last_error d |}.

(** [mutex_lock(&dev->lock)]: no result when the mutex is held. *)
Definition mutex_lock (d : ioctl_device) : option ioctl_device :=
  if lock d then None else Some (set_lock true d).

Definition mutex_unlock (d : ioctl_device) : ioctl_device := set_lock false d.

(** C strings: the bytes before the first NUL. *)
Fixpoint c_str (s : list ascii) : list ascii :=
  match s with
  | [] => []
  | c :: rest => if Ascii.eqb c zero then [] else c :: c_str rest
  end.

(** [strscpy(dest, src, 32)]: at most 31 bytes of the source string, a
    terminator, and the rest of [dest] as it was. *)
Definition strscpy32 (dest src : list ascii) : list ascii :=
  let s := take 31 (c_str src) in
  s ++ [zero] ++ drop (length s + 1) dest.

(** What the caller's [arg] points to: the configuration and the [int]
    that can be read there, when they can, and whether the driver can
    write there. *)
Record user_arg : Type := {
  arg_config : option ioctl_config;
  arg_int : option Z;
  arg_writable : bool
}.

(** What the driver stored at [arg]. *)
Inductive user_out : Type :=
| NoOut
| OutStats (st : ioctl_stats)
| OutInt (v : Z)
| OutConfig (cfg : ioctl_config).

(** The body of the switch, entered with the mutex held and the counter
    incremented. *)
Definition ioctl_switch (d : ioctl_device) (cmd : Z) (arg : user_arg)
    : Z * ioctl_device * user_out :=
  let fault := (- EFAULT, set_last_error (- EFAULT) d, NoOut) in
  if cmd =? IOCTL_RESET then
    (0, {| lock := lock d;
           speed := 0; mode := 0; name := repeat zero 32; value := 0;
           read_count := 0; write_count := 0; ioctl_count := 0; last_error := 0 |},
     NoOut)
  else if cmd =? IOCTL_GET_STATS then
    if arg_writable arg
    then (0, d, OutStats {| reads := read_count d; writes := write_count d;
                            ioctls := ioctl_count d;
                            stats_last_error := last_error d |})
    else fault
  else if cmd =? IOCTL_GET_VALUE then
    if arg_writable arg then (0, d, OutInt (value d)) else fault
  else if cmd =? IOCTL_SET_CONFIG then
    match arg_config arg with
    | None => fault
    | Some config =>
        if (cfg_speed config <? 0) || (cfg_speed config >? 1000) then
          (- EINVAL, set_last_error (- EINVAL) d, NoOut)
        else if (cfg_mode config <? 0) || (cfg_mode config >? 3) then
          (- EINVAL, set_last_error (- EINVAL) d, NoOut)
        else
          (0, set_config (cfg_speed config) (cfg_mode config)
                (strscpy32 (name d) (cfg_name config)) d, NoOut)
    end
  else if cmd =? IOCTL_SET_VALUE then
    match arg_int arg with
    | None => fault
    | Some v => (0, set_value v d, NoOut)
    end
  else if cmd =? IOCTL_XFER_CONFIG then
    match arg_config arg with
    | None => fault
    | Some config =>
        if arg_writable arg
        then (0, d, OutConfig {| cfg_speed := speed d; cfg_mode := mode d;
                                 cfg_name := strscpy32 (cfg_name config) (name d) |})
        else fault
    end
  else
    (- ENOTTY, set_last_error (- ENOTTY) d, NoOut).

(** [ioctl_ioctl]; [cmd] is an [unsigned int], [ioctl_count] an
    [unsigned long]. *)
Definition ioctl_ioctl (d : ioctl_device) (cmd : Z) (arg : user_arg)
    : option (Z * ioctl_device * user_out) :=
  if negb (_IOC_TYPE cmd =? IOCTL_MAGIC) then Some (- ENOTTY, d, NoOut)
  else if _IOC_NR cmd >? IOCTL_MAXNR then Some (- ENOTTY, d, NoOut)
  else
    match mutex_lock d with
    | None => None
    | Some d1 =>
        let '(ret, d2, out) :=
          ioctl_switch (set_ioctl_count (u64 (ioctl_count d1 + 1)) d1) cmd arg in
        Some (ret, mutex_unlock d2, out)
    end.

(** The six commands of the header. *)
Definition known_commands : list Z :=
  [IOCTL_RESET; IOCTL_GET_STATS; IOCTL_GET_VALUE;
   IOCTL_SET_CONFIG; IOCTL_SET_VALUE; IOCTL_XFER_CONFIG].

(** The device after [ioctl_init]: a static object with the name set. *)
Definition ioctl_init : ioctl_device :=
  {| lock := false; speed := 0; mode := 0;
     name := strscpy32 (repeat zero 32) (list_ascii_of_string "default");
     value := 0; read_count := 0; write_count := 0; ioctl_count := 0;
     last_error := 0 |}.

Definition no_arg : user_arg :=
  {| arg_config := None; arg_int := None; arg_writable := false |}.

(** *** Reading and writing the device name *)

Definition set_read_count (n : Z) (d : ioctl_device) : ioctl_device :=
  {| lock := lock d; speed := speed d; mode := mode d; name := name d; value := value d;
     read_count := n; write_count := write_count d;
     ioctl_count := ioctl_count d; last_error := last_error d |}.

Definition set_write_count (n : Z) (d : ioctl_device) : ioctl_device :=
  {| lock := lock d; speed := speed d; mode := mode d; name := name d; value := value d;
     read_count := read_count d; write_count := n;
     ioctl_count := ioctl_count d; last_error := last_error d |}.

Definition set_name (n : list ascii) (d : ioctl_device) : ioctl_device :=
  set_config (speed d) (mode d) n d.

(** [ioctl_read].  [uaccess] is the number of bytes of the caller's
    buffer that can be written: [copy_to_user] of [n] bytes succeeds
    exactly when [n <= uaccess], and stores the bytes it can when it
    does not.  The result is the value returned, the device, [*ppos] and
    the bytes stored in the caller's buffer. *)
Definition ioctl_read (d : ioctl_device) (uaccess : Z) (count : Z) (ppos : Z)
    : option (Z * ioctl_device * Z * list ascii) :=
  match mutex_lock d with
  | None => None
  | Some d1 =>
      let d2 := mutex_unlock (set_read_count (u64 (read_count d1 + 1)) d1) in
      if ppos >? 0 then Some (0, d2, ppos, [])
      else
        let count := if count >? 32 then 32 else count in
        if count >? uaccess
        then Some (- EFAULT, d2, ppos, take (Z.to_nat uaccess) (name d2))
        else Some (s64 count, d2, s64 count, take (Z.to_nat count) (name d2))
  end.

(** [memcpy]-like store of [bytes] at the start of the array [dest]. *)
Definition array_store (dest bytes : list ascii) : list ascii :=
  bytes ++ drop (length bytes) dest.

(** [ioctl_write].  [ubuf] holds the readable bytes of the caller's
    buffer: [copy_from_user] of [n] bytes succeeds exactly when
    [n <= length ubuf]; when it faults, the bytes read are stored and
    the rest of the [n] bytes are zeroed.  [*ppos] is left alone. *)
Definition ioctl_write (d : ioctl_device) (ubuf : list ascii) (count : Z)
    : option (Z * ioctl_device) :=
  match mutex_lock d with
  | None => None
  | Some d1 =>
      let d2 := set_write_count (u64 (write_count d1 + 1)) d1 in
      let count := if count >? 31 then 31 else count in
      if count >? Z.of_nat (length ubuf) then
        let bytes := ubuf ++ repeat zero (Z.to_nat count - length ubuf) in
        let d3 := set_name (array_store (name d2) bytes) d2 in
        Some (- EFAULT, mutex_unlock (set_last_error (- EFAULT) d3))
      else
        let copied := array_store (name d2) (take (Z.to_nat count) ubuf) in
        Some (s64 count,
              mutex_unlock (set_name (<[Z.to_nat count := zero]> copied) d2))
  end.

(** The calls a process can make on the open device. *)
Inductive dev_op : Type :=
| DoIoctl (cmd : Z) (arg : user_arg)
| DoRead (uaccess count ppos : Z)
| DoWrite (ubuf : list ascii) (count : Z).

Definition dev_next (op : dev_op) (d : ioctl_device) : option ioctl_device :=
  match op with
  | DoIoctl cmd arg =>
      match ioctl_ioctl d cmd arg with
      | Some (_, d', _) => Some d'
      | None => None
      end
  | DoRead uaccess count ppos =>
      match ioctl_read d uaccess count ppos with
      | Some (_, d', _, _) => Some d'
      | None => None
      end
  | DoWrite ubuf count =>
      match ioctl_write d ubuf count with
      | Some (_, d') => Some d'
      | None => None
      end
  end.

Fixpoint dev_run (ops : list dev_op) (d : ioctl_device) : option ioctl_device :=
  match ops with
  | [] => Some d
  | op :: rest =>
      match dev_next op d with
      | Some d' => dev_run rest d'
      | None => None
      end
  end.

(** The name array has its 32 bytes and holds a terminated string, and
    the mutex is free. *)
Definition name_inv (d : ioctl_device) : Prop :=
  length (name d) = 32%nat /\ (length (c_str (name d)) < 32)%nat /\ lock d = false.

(** The configuration passes the checks of [IOCTL_SET_CONFIG]. *)
Definition config_valid (config : ioctl_config) : Prop :=
  0 <= cfg_speed config <= 1000 /\ 0 <= cfg_mode config <= 3.

(** *** test_ioctl.c *)

(** [strncpy(dest, src, 32)] into a 32-byte array: the string, padded
    with NULs, or its first 32 bytes. *)
Definition strncpy32 (src : string) : list ascii :=
  take 32 (list_ascii_of_string src ++ repeat zero 32).

(** [ioctl(fd, cmd, arg)] as the program sees it: the value returned and
    [errno] when it is -1. *)
Definition sys_ioctl (d : ioctl_device) (cmd : Z) (arg : user_arg)
    : option (Z * Z * ioctl_device * user_out) :=
  match ioctl_ioctl d cmd arg with
  | None => None
  | Some (r, d', out) =>
      if r <? 0 then Some (-1, - r, d', out) else Some (r, 0, d', out)
  end.

(** The argument of a call that passes the address of a local
    [struct ioctl_config], of a local [int], or of a local
    [struct ioctl_stats]. *)
Definition config_arg (config : ioctl_config) : user_arg :=
  {| arg_config := Some config; arg_int := Some (cfg_speed config);
     arg_writable := true |}.

Definition int_arg (v : Z) : user_arg :=
  {| arg_config := None; arg_int := Some v; arg_writable := true |}.

Definition stats_arg : user_arg :=
  {| arg_config := None; arg_int := None; arg_writable := true |}.

(** What a test of the program prints: the values of its success branch,
    numbers and a string, or the error of its failure branch. *)
Inductive test_output : Type :=
| Passed (numbers : list Z) (text : list ascii)
| Failed (errno : Z).

Definition stats_numbers (st : ioctl_stats) : list Z :=
  [reads st; writes st; ioctls st; stats_last_error st].

(** [main] once the device is open: the eight tests and the final
    statistics, with the output of each and the device it leaves. *)
Definition test_ioctl_main (d0 : ioctl_device)
    : option (list test_output * ioctl_device) :=
  (* Test 1: RESET *)
  match sys_ioctl d0 IOCTL_RESET no_arg with
  | None => None
  | Some (ret1, errno1, d1, _) =>
  let out1 := if ret1 <? 0 then Failed errno1 else Passed [] [] in
  (* Test 2: SET_CONFIG *)
  let config2 := {| cfg_speed := 100; cfg_mode := 2;
                    cfg_name := strncpy32 "test_device" |} in
  match sys_ioctl d1 IOCTL_SET_CONFIG (config_arg config2) with
  | None => None
  | Some (ret2, errno2, d2, _) =>
  let out2 := if ret2 <? 0 then Failed errno2
              else Passed [cfg_speed config2; cfg_mode config2]
                     (c_str (cfg_name config2)) in
  (* Test 3: SET_VALUE *)
  match sys_ioctl d2 IOCTL_SET_VALUE (int_arg 42) with
  | None => None
  | Some (ret3, errno3, d3, _) =>
  let out3 := if ret3 <? 0 then Failed errno3 else Passed [42] [] in
  (* Test 4: GET_VALUE *)
  match sys_ioctl d3 IOCTL_GET_VALUE (int_arg 0) with
  | None => None
  | Some (ret4, errno4, d4, got4) =>
  let value4 := match got4 with OutInt v => v | _ => 0 end in
  let out4 := if ret4 <? 0 then Failed errno4 else Passed [value4] [] in
  (* Test 5: GET_STATS *)
  match sys_ioctl d4 IOCTL_GET_STATS stats_arg with
  | None => None
  | Some (ret5, errno5, d5, got5) =>
  let out5 := if ret5 <? 0 then Failed errno5
              else Passed (match got5 with
                           | OutStats st => stats_numbers st
                           | _ => []
                           end) [] in
  (* Test 6: XFER_CONFIG *)
  let config6 := {| cfg_speed := 999; cfg_mode := 0;
                    cfg_name := strncpy32 "new_name" |} in
  match sys_ioctl d5 IOCTL_XFER_CONFIG (config_arg config6) with
  | None => None
  | Some (ret6, errno6, d6, got6) =>
  let config6' := match got6 with OutConfig c => c | _ => config6 end in
  let out6 := if ret6 <? 0 then Failed errno6
              else Passed [cfg_speed config6'; cfg_mode config6']
                     (c_str (cfg_name config6')) in
  (* Test 7: invalid command *)
  match sys_ioctl d6 (_IO IOCTL_MAGIC 99) no_arg with
  | None => None
  | Some (ret7, errno7, d7, _) =>
  let out7 := if ret7 <? 0 then Failed errno7 else Passed [] [] in
  (* Test 8: invalid configuration *)
  let config8 := {| cfg_speed := 9999; cfg_mode := 0;
                    cfg_name := strncpy32 "invalid" |} in
  match sys_ioctl d7 IOCTL_SET_CONFIG (config_arg config8) with
  | None => None
  | Some (ret8, errno8, d8, _) =>
  let out8 := if ret8 <? 0 then Failed errno8 else Passed [] [] in
  (* Final statistics *)
  match sys_ioctl d8 IOCTL_GET_STATS stats_arg with
  | None => None
  | Some (ret9, errno9, d9, got9) =>
  let out9 := if ret9 =? 0
              then Passed (match got9 with
                           | OutStats st => stats_numbers st
                           | _ => []
                           end) []
              else Failed errno9 in
  Some ([out1; out2; out3; out4; out5; out6; out7; out8; out9], d9)
  end end end end end end end end end.

(** What the program is written to print: tests 1 to 6 succeed, tests 7
    and 8 fail with [ENOTTY] and [EINVAL], and the statistics count the
    calls since the reset. *)
Definition test_ioctl_expected : list test_output :=
  [ Passed [] [];
    Passed [100; 2] (list_ascii_of_string "test_device");
    Passed [42] [];
    Passed [42] [];
    Passed [0; 0; 4; 0] [];
    Passed [100; 2] (list_ascii_of_string "test_device");
    Failed ENOTTY;
    Failed EINVAL;
    Passed [0; 0; 7; - EINVAL] [] ].

End IoctlDevice.

(** ** part11/rtc-driver/rtc_demo.c *)

Module RtcDemo.
Import CInt Errno.

(** [struct rtc_time] of <uapi/linux/rtc.h>. *)
Record rtc_time : Type := {
  tm_sec : Z;
  tm_min : Z;
  tm_hour : Z;
  tm_mday : Z;
  tm_mon : Z;
  tm_year : Z;
  tm_wday : Z;
  tm_yday : Z;
  tm_isdst : Z
}.

(** [struct demo_rtc]: the software clock and the alarm.  [alarm_timer]
    is [Some j] while the alarm timer is pending, [j] jiffies ahead. *)
Record demo_rtc : Type := {
  base_time : Z;
  base_ktime : Z;
  alarm_timer : option Z;
  alarm_time : Z;
  alarm_enabled : bool;
  alarm_pending : bool
}.

Definition NSEC_PER_SEC : Z := 1000000000.

(** [div_s64]: signed division, truncating. *)
Definition div_s64 (dividend divisor : Z) : Z := s64 (Z.quot dividend divisor).

(** [demo_rtc_get_time64]; [now] is the value of [ktime_get_real()]. *)
Definition demo_rtc_get_time64 (now : Z) (drtc : demo_rtc) : Z :=
  let elapsed_ns := s64 (now - base_ktime drtc) in
  s64 (base_time drtc + div_s64 elapsed_ns NSEC_PER_SEC).

Section Conversions.

(** The calendar conversions of the kernel's RTC library. *)
Variable rtc_tm_to_time64 : rtc_time -> Z.
Variable rtc_time64_to_tm : Z -> rtc_time.

(** [demo_rtc_read_time]: the value returned and the time stored in
    [*tm]. *)
Definition demo_rtc_read_time (now : Z) (drtc : demo_rtc) : Z * rtc_time :=
  let time := demo_rtc_get_time64 now drtc in
  (0, rtc_time64_to_tm time).

(** [demo_rtc_set_time] *)
Definition demo_rtc_set_time (now : Z) (tm : rtc_time) (drtc : demo_rtc)
    : Z * demo_rtc :=
  let new_time := rtc_tm_to_time64 tm in
  (0, {| base_time := new_time; base_ktime := now;
         alarm_timer := alarm_timer drtc; alarm_time := alarm_time drtc;
         alarm_enabled := alarm_enabled drtc;
         alarm_pending := alarm_pending drtc |}).

End Conversions.

(** The clock [demo_rtc_probe] sets up at the instant [now]. *)
Definition demo_rtc_probe (now : Z) : demo_rtc :=
  {| base_time := now / NSEC_PER_SEC; base_ktime := now;
     alarm_timer := None; alarm_time := 0;
     alarm_enabled := false; alarm_pending := false |}.

(** The calendar of the kernel's RTC library (drivers/rtc/lib.c and
    [mktime64]), which is not part of the repository: what its functions
    compute for the years 1970 to 9999, where none of their 32-bit
    intermediate values wraps. *)
Definition is_leap_year (y : Z) : bool :=
  ((y mod 4 =? 0) && negb (y mod 100 =? 0)) || (y mod 400 =? 0).

(** The number of days of the year [y]. *)
Definition days_in_year (y : Z) : Z := if is_leap_year y then 366 else 365.

(** [LEAPS_THRU_END_OF]: the leap years up to the year [y]. *)
Definition leaps_thru_end_of (y : Z) : Z := y / 4 - y / 100 + y / 400.

(** The number of the first day of the year [y], counted from
    1970-01-01. *)
Definition days_before_year (y : Z) : Z :=
  365 * (y - 1970) + leaps_thru_end_of (y - 1) - leaps_thru_end_of 1969.

(** [rtc_month_days]: the number of days of the month, counted from 0. *)
Definition rtc_month_days (month year : Z) : Z :=
  nth (Z.to_nat month) [31; 28; 31; 30; 31; 30; 31; 31; 30; 31; 30; 31] 0
  + (if is_leap_year year && (month =? 1) then 1 else 0).

(** [rtc_year_days]: the number of days from January 1 to the day, from
    the table [rtc_ydays]. *)
Definition rtc_year_days (day month year : Z) : Z :=
  nth (Z.to_nat month) [0; 31; 59; 90; 120; 151; 181; 212; 243; 273; 304; 334] 0
  + (if is_leap_year year && (1 <? month) then 1 else 0)
  + day - 1.

(** [rtc_valid_tm(tm) == 0]: the date and the time of day are in range.
    [tm_wday], [tm_yday] and [tm_isdst] are not looked at. *)
Definition rtc_valid_tm (tm : rtc_time) : bool :=
  (70 <=? tm_year tm) && (tm_year tm <=? 2147483647 - 1900)
  && (0 <=? tm_mon tm) && (tm_mon tm <? 12)
  && (1 <=? tm_mday tm)
  && (tm_mday tm <=? rtc_month_days (tm_mon tm) (tm_year tm + 1900))
  && (0 <=? tm_hour tm) && (tm_hour tm <? 24)
  && (0 <=? tm_min tm) && (tm_min tm <? 60)
  && (0 <=? tm_sec tm) && (tm_sec tm <? 60).

Definition mktime64 (year0 mon0 day hour min sec : Z) : Z :=
  let '(mon, year) :=
    if mon0 - 2 <=? 0 then (mon0 - 2 + 12, year0 - 1) else (mon0 - 2, year0) in
  ((((year / 4 - year / 100 + year / 400 + 367 * mon / 12 + day)
     + year * 365 - 719499) * 24 + hour) * 60 + min) * 60 + sec.

(** [rtc_tm_to_time64] *)
Definition gregorian_tm_to_time64 (tm : rtc_time) : Z :=
  s64 (mktime64 (tm_year tm + 1900) (tm_mon tm + 1) (tm_mday tm)
         (tm_hour tm) (tm_min tm) (tm_sec tm)).

Fixpoint find_year (fuel : nat) (year days : Z) : Z * Z :=
  match fuel with
  | O => (year, days)
  | S fuel' =>
      if days <? days_in_year year then (year, days)
      else find_year fuel' (year + 1) (days - days_in_year year)
  end.

Fixpoint find_month (fuel : nat) (month year days : Z) : Z * Z :=
  match fuel with
  | O => (month, days)
  | S fuel' =>
      if days <? rtc_month_days month year then (month, days)
      else find_month fuel' (month + 1) year (days - rtc_month_days month year)
  end.

(** [rtc_time64_to_tm]: the weekday from the day number (1970-01-01 was
    a Thursday), the year and the month by search, [tm_yday] counted
    from 1 and [tm_isdst] cleared. *)
Definition gregorian_time64_to_tm (time : Z) : rtc_time :=
  let days := time / 86400 in
  let secs := time mod 86400 in
  let '(year, yday) := find_year (Z.to_nat (days / 365 + 1)) 1970 days in
  let '(month, mday) := find_month 11 0 year yday in
  {| tm_sec := secs mod 60; tm_min := (secs / 60) mod 60; tm_hour := secs / 3600;
     tm_mday := mday + 1; tm_mon := month; tm_year := year - 1900;
     tm_wday := (days + 4) mod 7; tm_yday := yday + 1; tm_isdst := 0 |}.

(** [tm] with the three fields the library computes from the date: the
    weekday, the day of the year counted from 1, and no daylight saving
    time. *)
Definition with_computed_fields (tm : rtc_time) : rtc_time :=
  {| tm_sec := tm_sec tm; tm_min := tm_min tm; tm_hour := tm_hour tm;
     tm_mday := tm_mday tm; tm_mon := tm_mon tm; tm_year := tm_year tm;
     tm_wday := (gregorian_tm_to_time64 tm / 86400 + 4) mod 7;
     tm_yday := rtc_year_days (tm_mday tm) (tm_mon tm) (tm_year tm + 1900) + 1;
     tm_isdst := 0 |}.

(** The calendar times of the years 1970 to 9999 that [rtc_valid_tm]
    accepts. *)
Definition valid_until_9999 (tm : rtc_time) : bool :=
  rtc_valid_tm tm && (tm_year tm + 1900 <=? 9999).

(** 2024-02-29 12:34:56, a Thursday, day 60 of the year. *)
Definition leap_day_noon : rtc_time :=
  {| tm_sec := 56; tm_min := 34; tm_hour := 12;
     tm_mday := 29; tm_mon := 1; tm_year := 124;
     tm_wday := 4; tm_yday := 60; tm_isdst := 0 |}.

(** The same instant as a C library fills [struct tm], with [tm_yday]
    counted from 0. *)
Definition leap_day_noon_posix : rtc_time :=
  {| tm_sec := 56; tm_min := 34; tm_hour := 12;
     tm_mday := 29; tm_mon := 1; tm_year := 124;
     tm_wday := 4; tm_yday := 59; tm_isdst := 0 |}.

(** *** The alarm *)

(** [struct rtc_wkalrm] of <uapi/linux/rtc.h>; [enabled] and [pending]
    are [unsigned char]. *)
Record rtc_wkalrm : Type := {
  enabled : Z;
  pending : Z;
  time : rtc_time
}.

Definition set_alarm_timer (t : option Z) (drtc : demo_rtc) : demo_rtc :=
  {| base_time := base_time drtc; base_ktime := base_ktime drtc;
     alarm_timer := t; alarm_time := alarm_time drtc;
     alarm_enabled := alarm_enabled drtc; alarm_pending := alarm_pending drtc |}.

Definition set_alarm_enabled (b : bool) (drtc : demo_rtc) : demo_rtc :=
  {| base_time := base_time drtc; base_ktime := base_ktime drtc;
     alarm_timer := alarm_timer drtc; alarm_time := alarm_time drtc;
     alarm_enabled := b; alarm_pending := alarm_pending drtc |}.

(** [demo_rtc_alarm_callback] *)
Definition demo_rtc_alarm_callback (drtc : demo_rtc) : demo_rtc :=
  {| base_time := base_time drtc; base_ktime := base_ktime drtc;
     alarm_timer := alarm_timer drtc; alarm_time := alarm_time drtc;
     alarm_enabled := alarm_enabled drtc; alarm_pending := true |}.

(** The kernel runs the callback of the pending alarm timer when it
    expires, and the timer is no longer pending while the callback
    runs. *)
Definition alarm_timer_expiry (drtc : demo_rtc) : demo_rtc :=
  match alarm_timer drtc with
  | None => drtc
  | Some _ => demo_rtc_alarm_callback (set_alarm_timer None drtc)
  end.

(** [demo_rtc_read_offset]: the value returned and [*offset]. *)
Definition demo_rtc_read_offset : Z * Z := (0, 0).

(** [demo_rtc_remove] *)
Definition demo_rtc_remove (drtc : demo_rtc) : demo_rtc :=
  set_alarm_timer None drtc.

(** A C truth value as [bool], and back as 0 or 1. *)
Definition truth (v : Z) : bool := negb (v =? 0).

Definition bool_to_Z (b : bool) : Z := if b then 1 else 0.

Section Alarm.

(** The calendar conversions of the kernel's RTC library, and the
    number of jiffies in a second. *)
Variable rtc_tm_to_time64 : rtc_time -> Z.
Variable rtc_time64_to_tm : Z -> rtc_time.
Variable HZ : Z.

(** [(alarm_time - current_time) * HZ], a [time64_t] product stored in
    an [unsigned long]. *)
Definition alarm_delay (alarm current : Z) : Z :=
  u64 (s64 (s64 (alarm - current) * HZ)).

(** [demo_rtc_read_alarm]: the value returned and [*alrm]. *)
Definition demo_rtc_read_alarm (drtc : demo_rtc) : Z * rtc_wkalrm :=
  (0, {| time := rtc_time64_to_tm (alarm_time drtc);
         enabled := bool_to_Z (alarm_enabled drtc);
         pending := bool_to_Z (alarm_pending drtc) |}).

(** [demo_rtc_set_alarm]; [now] is the value of [ktime_get_real()]. *)
Definition demo_rtc_set_alarm (now : Z) (alrm : rtc_wkalrm) (drtc : demo_rtc)
    : Z * demo_rtc :=
  let alarm := rtc_tm_to_time64 (time alrm) in
  let drtc1 :=
    {| base_time := base_time drtc; base_ktime := base_ktime drtc;
       alarm_timer := None; alarm_time := alarm;
       alarm_enabled := truth (enabled alrm); alarm_pending := false |} in
  if truth (enabled alrm) then
    let current_time := demo_rtc_get_time64 now drtc1 in
    if alarm >? current_time
    then (0, set_alarm_timer (Some (alarm_delay alarm current_time)) drtc1)
    else (0, drtc1)
  else (0, drtc1).

(** [demo_rtc_alarm_irq_enable] *)
Definition demo_rtc_alarm_irq_enable (now : Z) (on : Z) (drtc : demo_rtc)
    : Z * demo_rtc :=
  let drtc1 :=
    if truth on && negb (alarm_enabled drtc) then
      let current_time := demo_rtc_get_time64 now drtc in
      if alarm_time drtc >? current_time
      then set_alarm_timer (Some (alarm_delay (alarm_time drtc) current_time)) drtc
      else drtc
    else if negb (truth on) then set_alarm_timer None drtc
    else drtc in
  (0, set_alarm_enabled (truth on) drtc1).

(** What can happen to a registered clock: a call of one of the RTC
    class operations, or the expiry of the alarm timer. *)
Inductive rtc_event : Type :=
| ReadTime (now : Z)
| SetTime (now : Z) (tm : rtc_time)
| ReadAlarm
| SetAlarm (now : Z) (alrm : rtc_wkalrm)
| AlarmIrqEnable (now : Z) (on : Z)
| ReadOffset
| AlarmTimerExpiry.

Definition rtc_step (drtc : demo_rtc) (ev : rtc_event) : demo_rtc :=
  match ev with
  | ReadTime _ => drtc
  | SetTime now tm => snd (demo_rtc_set_time rtc_tm_to_time64 now tm drtc)
  | ReadAlarm => drtc
  | SetAlarm now alrm => snd (demo_rtc_set_alarm now alrm drtc)
  | AlarmIrqEnable now on => snd (demo_rtc_alarm_irq_enable now on drtc)
  | ReadOffset => drtc
  | AlarmTimerExpiry => alarm_timer_expiry drtc
  end.

Definition rtc_run (evs : list rtc_event) (drtc : demo_rtc) : demo_rtc :=
  fold_left rtc_step evs drtc.

End Alarm.

(** A pending alarm timer belongs to an enabled alarm. *)
Definition alarm_inv (drtc : demo_rtc) : Prop :=
  alarm_timer drtc <> None -> alarm_enabled drtc = true.

(** An alarm for 2024-02-29 12:35:00, enabled. *)
Definition leap_day_alarm : rtc_wkalrm :=
  {| enabled := 1; pending := 0;
     time := {| tm_sec := 0; tm_min := 35; tm_hour := 12;
                tm_mday := 29; tm_mon := 1; tm_year := 124;
                tm_wday := 4; tm_yday := 60; tm_isdst := 0 |} |}.

End RtcDemo.

(* ===================================================================== *)
(** * Part II: proofs                                                     *)
(* ===================================================================== *)

(** Decide the integer comparisons of the goal that [lia] settles. *)
Ltac zbool :=
  repeat match goal with
  | |- context [?x >? ?y] => rewrite (Z.gtb_ltb x y)
  | |- context [?x >=? ?y] => rewrite (Z.geb_leb x y)
  | |- context [?x <=? ?y] =>
      first [ rewrite (proj2 (Z.leb_le x y)) by lia
            | rewrite (proj2 (Z.leb_gt x y)) by lia ]
  | |- context [?x <? ?y] =>
      first [ rewrite (proj2 (Z.ltb_lt x y)) by lia
            | rewrite (proj2 (Z.ltb_ge x y)) by lia ]
  | |- context [?x =? ?y] =>
      first [ rewrite (proj2 (Z.eqb_eq x y)) by lia
            | rewrite (proj2 (Z.eqb_neq x y)) by lia ]
  end.

(** Linear arithmetic with division and remainder by constants. *)
Ltac zmod := Z.div_mod_to_equations; lia.

(** Close a case whose hypotheses are contradictory arithmetic. *)
Ltac contra := intros; exfalso; lia.

Module CIntFacts.
Import CInt.

Lemma s64_small z : - 2 ^ 63 <= z < 2 ^ 63 -> s64 z = z.
Proof.
  intros H. unfold s64, wrap_signed.
  change (64 - 1) with 63. rewrite Z.mod_small; lia.
Qed.

Lemma u64_small z : 0 <= z < 2 ^ 64 -> u64 z = z.
Proof. intros H. unfold u64, wrap_unsigned. apply Z.mod_small; lia. Qed.

Lemma u32_small z : 0 <= z < 2 ^ 32 -> u32 z = z.
Proof. intros H. unfold u32, wrap_unsigned. apply Z.mod_small; lia. Qed.

Lemma s32_small z : - 2 ^ 31 <= z < 2 ^ 31 -> s32 z = z.
Proof.
  intros H. unfold s32, wrap_signed.
  change (32 - 1) with 31. rewrite Z.mod_small; lia.
Qed.

End CIntFacts.

(** ** The corpus *)

Module CorpusProofs.
Import Corpus.
Local Open Scope string_scope.

(** ** Entry and exit points *)

(** C1, as amended: every file of the corpus that is neither a header,
    nor a user-space program, nor a KUnit suite, uio_demo.c apart, is a
    loadable module with one entry and one exit point, named with
    [module_init] and [module_exit] or supplied by a [module_*_driver]
    macro.  Every such file except myuser.c is self-contained: it
    declares nothing [extern] and calls into no other file, and
    ioctl_device.c alone includes a header of the repository.  myuser.c
    is the one file that is not: it declares [extern] the four functions
    that mylib.c, the one file with exports, defines for it.  The files
    set apart are the KUnit suite, the two user-space programs and the
    shared header; six drivers use a helper macro. *)
Theorem C1_module_sources_have_entry_and_exit :
  (forall f, In f corpus -> module_source f = true -> file_name f <> "uio_demo.c" ->
     entry_points f = 1%nat /\ exit_points f = 1%nat) /\
  (forall f, In f corpus -> module_source f = true -> file_name f <> "myuser.c" ->
     self_contained f = true /\ externs f = [] /\
     forall g, In g corpus -> calls_into f g = false) /\
  (forall f, In f corpus -> module_source f = true ->
     file_name f <> "ioctl_device.c" -> includes f = []) /\
  map (fun f => (file_name f, externs f))
      (List.filter (fun f => negb (self_contained f)) corpus)
  = [("myuser.c",
      ["mylib_increment"; "mylib_get_count"; "mylib_reset"; "mylib_multiply"])] /\
  map (fun f => (file_name f, exports f))
      (List.filter (fun f => match exports f with [] => false | _ => true end) corpus)
  = [("mylib.c",
      ["mylib_increment"; "mylib_get_count"; "mylib_reset"; "mylib_multiply"])] /\
  map file_name (List.filter (fun f => negb (module_source f)) corpus)
  = ["kunit_example_test.c"; "uio_userspace.c"; "ioctl_example.h"; "test_ioctl.c"] /\
  map file_name (List.filter (fun f => module_source f && negb (has_init_and_exit f)) corpus)
  = ["usb_demo.c"; "pci_skeleton.c"; "platform_driver_demo.c"; "dt_platform_demo.c";
     "i2c_sensor_demo.c"; "spi_flash_demo.c"].
Proof.
  split_and!; [| | |reflexivity|reflexivity|reflexivity|reflexivity].
  - assert (H : forallb (fun f =>
                  implb (module_source f && negb (String.eqb (file_name f) "uio_demo.c"))
                        (Nat.eqb (entry_points f) 1 && Nat.eqb (exit_points f) 1))
                corpus = true) by reflexivity.
    rewrite forallb_forall in H. intros f Hin Hsrc Hname.
    specialize (H f Hin). rewrite Hsrc in H.
    rewrite (proj2 (String.eqb_neq _ _) Hname) in H. cbn [negb andb implb] in H.
    apply andb_true_iff in H. destruct H as [He Hx].
    split; apply Nat.eqb_eq; assumption.
  - assert (H : forallb (fun f =>
                  implb (module_source f && negb (String.eqb (file_name f) "myuser.c"))
                        (self_contained f))
                corpus = true) by reflexivity.
    rewrite forallb_forall in H. intros f Hin Hsrc Hname.
    specialize (H f Hin). rewrite Hsrc in H.
    rewrite (proj2 (String.eqb_neq _ _) Hname) in H. cbn [negb andb implb] in H.
    unfold self_contained in *. unfold calls_into.
    destruct (externs f); [|discriminate H]. auto.
  - assert (H : forallb (fun f =>
                  implb (module_source f && negb (String.eqb (file_name f) "ioctl_device.c"))
                        (match includes f with [] => true | _ => false end))
                corpus = true) by reflexivity.
    rewrite forallb_forall in H. intros f Hin Hsrc Hname.
    specialize (H f Hin). rewrite Hsrc in H.
    rewrite (proj2 (String.eqb_neq _ _) Hname) in H. cbn [negb andb implb] in H.
    destruct (includes f); [reflexivity|discriminate H].
Qed.

Lemma C1_witness :
  let f := source "part1/hello-world" "hello.c" false false false
             (Some "hello_init") (Some "hello_exit") None [] [] [] in
  entry_points f = 1%nat /\ exit_points f = 1%nat.
Proof.
  apply (proj1 C1_module_sources_have_entry_and_exit).
  - unfold corpus. repeat (first [left; reflexivity | right]).
  - reflexivity.
  - discriminate.
Defined.

(** uio_demo.c invokes [module_platform_driver] and, after it,
    [module_init] and [module_exit]. *)
Example uio_demo_entry_points :
  map (fun f => (entry_points f, exit_points f))
      (List.filter (fun f => String.eqb (file_name f) "uio_demo.c") corpus)
  = [(2%nat, 2%nat)].
Proof. reflexivity. Qed.

(** C1 as stated fails twice.  Not every file is a module: test_ioctl.c
    is a user-space program with [main] and neither [module_init] nor
    [module_exit].  Not every module is self-contained: myuser.c
    declares four functions [extern]. *)
Lemma C1_counterexample :
  ~ (forall f, In f corpus -> has_init_and_exit f = true) /\
  ~ (forall f, In f corpus -> module_source f = true -> self_contained f = true).
Proof.
  split; intros H.
  - specialize (H (opening ["/dev/ioctl_example"]
                     (source "part3/ioctl-device" "test_ioctl.c" false true false
                        None None None [] [] ["ioctl_example.h"]))).
    discriminate H.
    unfold corpus. repeat (first [left; reflexivity | right]).
  - specialize (H (source "part2/export-symbol" "myuser.c" false false false
                     (Some "myuser_init") (Some "myuser_exit") None []
                     ["mylib_increment"; "mylib_get_count"; "mylib_reset";
                      "mylib_multiply"] [])).
    discriminate H.
    + unfold corpus. repeat (first [left; reflexivity | right]).
    + reflexivity.
Qed.

End CorpusProofs.

(** ** export-symbol *)

Module ExportSymbolProofs.
Import CInt CIntFacts Corpus ExportSymbol.


(** ** Calls and state between files *)



(** Loaded with the default parameter after a fresh mylib, myuser prints
    the counts 0, 1, ..., 5. *)
Example myuser_init_default :
  myuser_init 5 mylib_init
  = (0, [0; 5; 1; 1; 2; 2; 3; 3; 4; 4; 5; 5; 42; 5], 5).
Proof. reflexivity. Qed.


(** Each of the three parts fails on its own. *)
Example myuser_calls_mylib :
  existsb (fun f => existsb (fun g => negb (same_file f g) && calls_into f g) corpus)
          corpus = true.
Proof. reflexivity. Qed.

Example myuser_init_changes_mylib : snd (myuser_init 5 0) = 5.
Proof. reflexivity. Qed.

(** ** What myuser prints *)

(** The loop from step [s] on: each pass prints the number of the step
    and the count [mylib_increment] returns. *)
Lemma myuser_loop_lines i0 c0 n : forall s,
  0 <= i0 -> i0 + Z.of_nat s + Z.of_nat n < 2 ^ 31 ->
  - 2 ^ 31 <= c0 -> c0 + Z.of_nat s + Z.of_nat n < 2 ^ 31 ->
  myuser_loop n (i0 + Z.of_nat s) (c0 + Z.of_nat s)
  = (flat_map (fun k => [i0 + Z.of_nat k + 1; c0 + Z.of_nat k + 1]) (seq s n),
     c0 + Z.of_nat s + Z.of_nat n).
Proof.
  induction n as [|n IH]; intros s Hi Hin Hc Hcn.
  - cbn. f_equal. lia.
  - cbn [myuser_loop seq flat_map]. unfold mylib_increment. cbv zeta.
    rewrite (s32_small (c0 + Z.of_nat s + 1)) by lia.
    rewrite (s32_small (i0 + Z.of_nat s + 1)) by lia.
    replace (i0 + Z.of_nat s + 1) with (i0 + Z.of_nat (S s)) by lia.
    replace (c0 + Z.of_nat s + 1) with (c0 + Z.of_nat (S s)) by lia.
    rewrite IH by lia. cbn [app]. f_equal. lia.
Qed.

(** X28: what [myuser_init] prints and leaves behind.  With the module
    parameter [iterations] and mylib's counter at [counter], it returns
    0 and prints the count it finds, the parameter, then for each step
    [k] from 1 to [iterations] the step and the count [counter + k],
    then 42 for the product and the final count; mylib's counter is
    left raised by [iterations].  With a parameter that is zero or
    negative the loop does not run: nothing is printed for it and the
    counter is left as it was. *)
Theorem X28_myuser_init_output iterations counter :
  iterations < 2 ^ 31 ->
  - 2 ^ 31 <= counter -> counter + Z.max 0 iterations < 2 ^ 31 ->
  myuser_init iterations counter
  = (0,
     [counter; iterations]
     ++ flat_map (fun k => [Z.of_nat k + 1; counter + Z.of_nat k + 1])
          (seq 0 (Z.to_nat iterations))
     ++ [42; counter + Z.max 0 iterations],
     counter + Z.max 0 iterations).
Proof.
  intros Hit Hlo Hhi. unfold myuser_init, mylib_get_count.
  pose proof (myuser_loop_lines 0 counter (Z.to_nat iterations) 0) as H.
  cbn [Z.of_nat] in H. rewrite !Z.add_0_r in H.
  rewrite H by lia. clear H.
  replace (0 + Z.of_nat (Z.to_nat iterations)) with (Z.max 0 iterations) by lia.
  replace (counter + Z.of_nat (Z.to_nat iterations))
    with (counter + Z.max 0 iterations) by lia.
  reflexivity.
Qed.

Lemma X28_witness :
  myuser_init 2 10
  = (0,
     [10; 2]
     ++ flat_map (fun k => [Z.of_nat k + 1; 10 + Z.of_nat k + 1])
          (seq 0 (Z.to_nat 2))
     ++ [42; 10 + Z.max 0 2],
     10 + Z.max 0 2).
Proof. apply (X28_myuser_init_output 2 10); lia. Defined.

(** Loaded with a negative parameter, myuser prints its four fixed
    lines and leaves the counter. *)
Example myuser_init_negative :
  myuser_init (-3) 7 = (0, [7; -3; 42; 7], 7).
Proof. reflexivity. Qed.

End ExportSymbolProofs.

(** ** RAM disk *)

Module RamdiskProofs.
Import CInt CIntFacts Ramdisk.

Lemma total_len_nil : total_len [] = 0.
Proof. reflexivity. Qed.

Lemma total_len_cons b rest : total_len (b :: rest) = bv_len b + total_len rest.
Proof. unfold total_len, bv_len. simpl. rewrite length_app. lia. Qed.

Lemma total_len_nonneg l : 0 <= total_len l.
Proof. unfold total_len. lia. Qed.

Lemma bv_len_nonneg b : 0 <= bv_len b.
Proof. unfold bv_len. lia. Qed.

Lemma total_len_take_le k l : total_len (take k l) <= total_len l.
Proof.
  revert k. induction l as [|b l IH]; intros [|k]; simpl;
    rewrite ?total_len_nil, ?total_len_cons; try lia.
  - pose proof (total_len_nonneg l). pose proof (bv_len_nonneg b). lia.
  - specialize (IH k). lia.
Qed.

(** Two copies back to back are one copy of the concatenation. *)
Lemma memcpy_to_data_app d pos b1 b2 a :
  memcpy_to_data (memcpy_to_data d pos b1) (pos + bv_len b1) b2 a
  = memcpy_to_data d pos (b1 ++ b2) a.
Proof.
  unfold memcpy_to_data, bv_len. rewrite length_app, Nat2Z.inj_add.
  destruct (Z.lt_ge_cases a pos) as [H1|H1];
    [|destruct (Z.lt_ge_cases a (pos + Z.of_nat (length b1))) as [H2|H2];
      [|destruct (Z.lt_ge_cases a (pos + Z.of_nat (length b1) + Z.of_nat (length b2)))
          as [H3|H3]]];
    zbool; simpl; try reflexivity.
  - rewrite app_nth1 by lia. reflexivity.
  - rewrite app_nth2 by lia. f_equal. lia.
Qed.

Lemma memcpy_to_data_outside d pos buf a :
  a < pos \/ pos + bv_len buf <= a -> memcpy_to_data d pos buf a = d a.
Proof.
  intros H. unfold memcpy_to_data.
  destruct (pos <=? a) eqn:E1, (a <? pos + bv_len buf) eqn:E2; simpl; try reflexivity; lia.
Qed.

Lemma memcpy_to_data_nil d pos a : memcpy_to_data d pos [] a = d a.
Proof. apply memcpy_to_data_outside. unfold bv_len. simpl. lia. Qed.

Lemma memcpy_to_data_inside d pos buf i :
  0 <= i < bv_len buf ->
  memcpy_to_data d pos buf (pos + i) = nth (Z.to_nat i) buf x00.
Proof.
  intros H. unfold memcpy_to_data. zbool. simpl. f_equal. lia.
Qed.

(** Reading [length b] bytes gives [b] when the store holds [b] there. *)
Lemma memcpy_from_data_eq d pos (b : list byte) :
  (forall i, 0 <= i < bv_len b -> d (pos + i) = nth (Z.to_nat i) b x00) ->
  memcpy_from_data d pos (length b) = b.
Proof.
  revert pos. induction b as [|x b IH]; intros pos H; [reflexivity|].
  unfold memcpy_from_data. cbn [length seq map]. f_equal.
  - change (Z.of_nat 0) with 0.
    rewrite (H 0) by (unfold bv_len; cbn [length]; lia). reflexivity.
  - rewrite <- seq_shift, map_map.
    transitivity (memcpy_from_data d (pos + 1) (length b)).
    + unfold memcpy_from_data. apply map_ext. intros i. f_equal. lia.
    + apply IH. intros i Hi. unfold bv_len in *.
      replace (pos + 1 + i) with (pos + (i + 1)) by lia.
      rewrite H by (cbn [length]; lia).
      replace (Z.to_nat (i + 1)) with (S (Z.to_nat i)) by lia. reflexivity.
Qed.

(** The bytes of segment [k] sit in the concatenation after the bytes of
    the segments before it. *)
Lemma nth_concat_segment (segs : list bio_vec) k b i :
  segs !! k = Some b -> (i < length b)%nat ->
  nth (length (concat (take k segs)) + i) (concat segs) x00 = nth i b x00.
Proof.
  revert k. induction segs as [|s segs IH]; intros k Hk Hi; [discriminate|].
  destruct k as [|k]; simpl in *.
  - injection Hk as ->. rewrite app_nth1 by lia. reflexivity.
  - rewrite length_app. rewrite app_nth2 by lia.
    replace (length s + length (concat (take k segs)) + i - length s)%nat
      with (length (concat (take k segs)) + i)%nat by lia.
    apply IH; assumption.
Qed.

Lemma total_len_take_lookup (segs : list bio_vec) k b :
  segs !! k = Some b -> total_len (take k segs) + bv_len b <= total_len segs.
Proof.
  revert k. induction segs as [|s segs IH]; intros k Hk; [discriminate|].
  destruct k as [|k]; simpl in *.
  - injection Hk as ->. rewrite total_len_nil, total_len_cons.
    pose proof (total_len_nonneg segs). lia.
  - rewrite !total_len_cons. specialize (IH k Hk). lia.
Qed.

(** What the segment loop does when no position computation leaves the
    range of [loff_t]: it processes the first [k] segments, all of which
    fit, and stops either at the end of the list or at segment [k], the
    first not to fit. *)
Lemma rq_for_each_segment_spec dir segs : forall pos dev,
  0 <= pos -> pos + total_len segs <= S64_MAX -> 0 <= size dev <= S64_MAX ->
  exists st dev' out k,
    rq_for_each_segment dir (size dev) segs pos dev = Completed st dev' out /\
    size dev' = size dev /\
    (k <= length segs)%nat /\
    (forall j b, (j < k)%nat -> segs !! j = Some b ->
       pos + total_len (take j segs) + bv_len b <= size dev) /\
    ((st = BLK_STS_OK /\ k = length segs) \/
     (st = BLK_STS_IOERR /\ exists b, segs !! k = Some b /\
        pos + total_len (take k segs) + bv_len b > size dev)) /\
    match dir with
    | WRITE =>
        out = segs /\
        forall a, data dev' a = memcpy_to_data (data dev) pos (concat (take k segs)) a
    | READ =>
        dev' = dev /\ length out = length segs /\
        forall j b, segs !! j = Some b ->
          out !! j = Some (if (j <? k)%nat
                           then memcpy_from_data (data dev)
                                  (pos + total_len (take j segs)) (length b)
                           else b)
    end.
Proof.
  unfold S64_MAX.
  induction segs as [|b rest IH]; intros pos dev Hpos Hmax Hsize.
  - exists BLK_STS_OK, dev, [], 0%nat. cbn [rq_for_each_segment].
    split_and!; [reflexivity | reflexivity | simpl; lia | intros j b Hj; lia
                | left; split; reflexivity | ].
    destruct dir.
    + split_and!; [reflexivity | reflexivity | intros j b Hjb; discriminate].
    + split_and!; [reflexivity | intros a; symmetry; apply memcpy_to_data_nil].
  - rewrite total_len_cons in Hmax.
    pose proof (bv_len_nonneg b) as Hb. pose proof (total_len_nonneg rest) as Hr.
    cbn [rq_for_each_segment]. cbv zeta.
    rewrite (s64_small (pos + bv_len b)) by lia.
    destruct (Z.lt_ge_cases (size dev) (pos + bv_len b)) as [Hchk|Hchk].
    + (* the first segment does not fit *)
      zbool. exists BLK_STS_IOERR, dev, (b :: rest), 0%nat.
      split_and!; [reflexivity | reflexivity | simpl; lia | intros j b' Hj; lia | | ].
      * right. split; [reflexivity|]. exists b. split; [reflexivity|].
        cbn [take]. rewrite total_len_nil. lia.
      * destruct dir.
        -- split_and!; [reflexivity | reflexivity | ].
           intros j b' Hjb. rewrite Hjb. reflexivity.
        -- split_and!; [reflexivity | intros a; symmetry; apply memcpy_to_data_nil].
    + unfold in_backing_store. zbool. cbn [andb negb].
      destruct dir.
      * (* READ *)
        destruct (IH (pos + bv_len b) dev)
          as (st & dev' & out & k & Hrun & Hsz & Hk & Hfit & Hst & Hdev & Hlen & Hout);
          try lia.
        rewrite Hrun.
        exists st, dev', (memcpy_from_data (data dev) pos (length b) :: out), (S k).
        split_and!; [reflexivity | exact Hsz | simpl; lia | | | exact Hdev | simpl; lia | ].
        -- intros [|j] b' Hj Hjb; cbn [take]; simpl in Hjb.
           ++ injection Hjb as <-. rewrite total_len_nil. lia.
           ++ rewrite total_len_cons. specialize (Hfit j b' ltac:(lia) Hjb). lia.
        -- destruct Hst as [[-> ->]|[-> (b' & Hb' & Hgt)]]; [left; auto|right].
           split; [reflexivity|]. exists b'. split; [exact Hb'|].
           cbn [take]. rewrite total_len_cons. lia.
        -- intros [|j] b' Hjb; simpl in Hjb.
           ++ injection Hjb as <-. cbn [take]. rewrite total_len_nil, Z.add_0_r.
              reflexivity.
           ++ cbn [take]. rewrite total_len_cons.
              change (S j <? S k)%nat with (j <? k)%nat.
              rewrite lookup_cons. etrans; [exact (Hout j b' Hjb)|].
              f_equal. destruct (j <? k)%nat; [|reflexivity].
              unfold memcpy_from_data. apply map_ext. intros i. f_equal. lia.
      * (* WRITE *)
        set (dev1 := {| data := memcpy_to_data (data dev) pos b; size := size dev |}).
        destruct (IH (pos + bv_len b) dev1)
          as (st & dev' & out & k & Hrun & Hsz & Hk & Hfit & Hst & Hout & Hdata);
          try (simpl; lia).
        change (size dev1) with (size dev) in *. rewrite Hrun.
        exists st, dev', (b :: out), (S k).
        split_and!; [reflexivity | exact Hsz | simpl; lia | | | congruence | ].
        -- intros [|j] b' Hj Hjb; cbn [take]; simpl in Hjb.
           ++ injection Hjb as <-. rewrite total_len_nil. lia.
           ++ rewrite total_len_cons. specialize (Hfit j b' ltac:(lia) Hjb). lia.
        -- destruct Hst as [[-> ->]|[-> (b' & Hb' & Hgt)]]; [left; auto|right].
           split; [reflexivity|]. exists b'. split; [exact Hb'|].
           cbn [take]. rewrite total_len_cons. lia.
        -- intros a. rewrite Hdata. subst dev1. cbn [data take concat].
           apply memcpy_to_data_app.
Qed.

Lemma total_len_app l1 l2 : total_len (l1 ++ l2) = total_len l1 + total_len l2.
Proof. unfold total_len. rewrite concat_app, length_app. lia. Qed.

(** With at least one segment, the last segment's end is the request's end. *)
Lemma segments_within_total dev rq :
  rq_bvecs rq <> [] -> segments_within dev rq ->
  rq_sector rq * SECTOR_SIZE + total_len (rq_bvecs rq) <= size dev.
Proof.
  intros Hne Hin. unfold segments_within, seg_pos in Hin.
  destruct (exists_last Hne) as (rest & b0 & E). rewrite E in *.
  specialize (Hin (length rest) b0).
  rewrite lookup_app_r, Nat.sub_diag in Hin by lia.
  specialize (Hin eq_refl).
  rewrite take_app_length in Hin.
  rewrite total_len_app, total_len_cons, total_len_nil. lia.
Qed.

(** The start position, when it is representable. *)
Lemma queue_rq_pos sector :
  0 <= sector -> sector * SECTOR_SIZE <= S64_MAX ->
  s64 (u64 (Z.shiftl sector SECTOR_SHIFT)) = sector * SECTOR_SIZE.
Proof.
  unfold S64_MAX, SECTOR_SIZE, SECTOR_SHIFT. intros H0 H1.
  rewrite Z.shiftl_mul_pow2 by lia. change (2 ^ 9) with 512.
  rewrite u64_small by lia. apply s64_small. lia.
Qed.

Lemma queue_rq_loop dev rq :
  0 <= size dev <= S64_MAX -> 0 <= rq_sector rq ->
  rq_sector rq * SECTOR_SIZE + total_len (rq_bvecs rq) <= S64_MAX ->
  ramdisk_queue_rq dev rq
  = rq_for_each_segment (rq_dir rq) (size dev) (rq_bvecs rq)
      (rq_sector rq * SECTOR_SIZE) dev.
Proof.
  intros Hs H0 H1. unfold ramdisk_queue_rq. cbv zeta.
  pose proof (total_len_nonneg (rq_bvecs rq)).
  rewrite queue_rq_pos by lia.
  rewrite (s64_small (size dev)) by (unfold S64_MAX in *; lia). reflexivity.
Qed.

(** A request inside the device: every segment is copied, in order. *)
Lemma queue_rq_within dev rq :
  0 <= size dev <= S64_MAX -> 0 <= rq_sector rq -> segments_within dev rq ->
  exists dev' out,
    ramdisk_queue_rq dev rq = Completed BLK_STS_OK dev' out /\
    size dev' = size dev /\
    match rq_dir rq with
    | WRITE =>
        out = rq_bvecs rq /\
        forall a, data dev' a
          = memcpy_to_data (data dev) (rq_sector rq * SECTOR_SIZE)
              (concat (rq_bvecs rq)) a
    | READ =>
        dev' = dev /\ length out = length (rq_bvecs rq) /\
        forall j b, rq_bvecs rq !! j = Some b ->
          out !! j = Some (memcpy_from_data (data dev) (seg_pos rq j) (length b))
    end.
Proof.
  intros Hs H0 Hin.
  destruct (decide (rq_bvecs rq = [])) as [Hnil|Hne].
  - exists dev, []. unfold ramdisk_queue_rq. rewrite Hnil. cbn [rq_for_each_segment].
    split_and!; [reflexivity | reflexivity | ].
    destruct (rq_dir rq).
    + split_and!; [reflexivity | reflexivity | intros j b Hjb; discriminate].
    + split; [reflexivity|]. intros a. symmetry. apply memcpy_to_data_nil.
  - pose proof (segments_within_total dev rq Hne Hin) as Htot.
    rewrite queue_rq_loop by lia.
    destruct (rq_for_each_segment_spec (rq_dir rq) (rq_bvecs rq)
                (rq_sector rq * SECTOR_SIZE) dev)
      as (st & dev' & out & k & Hrun & Hsz & Hk & Hfit & Hst & Hdir);
      [unfold SECTOR_SIZE; lia | lia | lia | ].
    destruct Hst as [[-> ->]|[_ (b & Hb & Hgt)]].
    + exists dev', out. split_and!; [exact Hrun | exact Hsz | ].
      rewrite take_ge in Hdir by lia.
      destruct (rq_dir rq).
      * destruct Hdir as (Hdev & Hlen & Hout).
        split_and!; [exact Hdev | exact Hlen | ].
        intros j b Hjb. etrans; [exact (Hout j b Hjb)|].
        apply lookup_lt_Some in Hjb.
        destruct (Nat.ltb_spec j (length (rq_bvecs rq))); [reflexivity|lia].
      * exact Hdir.
    + exfalso. specialize (Hin k b Hb). unfold seg_pos in Hin. lia.
Qed.

(** After the segments [segs] have been copied to [pos], the store holds
    segment [k] after the bytes of the segments before it. *)
Lemma written_segments d pos (segs : list bio_vec) k bvec i :
  segs !! k = Some bvec -> 0 <= i < bv_len bvec ->
  memcpy_to_data d pos (concat segs) (pos + total_len (take k segs) + i)
  = nth (Z.to_nat i) bvec x00.
Proof.
  intros Hk Hi. unfold total_len.
  pose proof (total_len_take_lookup _ _ _ Hk) as Hle. unfold total_len in Hle.
  rewrite <- Z.add_assoc. rewrite memcpy_to_data_inside by (unfold bv_len in *; lia).
  rewrite <- (nth_concat_segment segs k bvec (Z.to_nat i) Hk)
    by (unfold bv_len in *; lia).
  f_equal. lia.
Qed.

Lemma written_segment d rq k bvec i :
  rq_bvecs rq !! k = Some bvec -> 0 <= i < bv_len bvec ->
  memcpy_to_data d (rq_sector rq * SECTOR_SIZE) (concat (rq_bvecs rq)) (seg_pos rq k + i)
  = nth (Z.to_nat i) bvec x00.
Proof. intros Hk Hi. unfold seg_pos. apply written_segments; assumption. Qed.

(** Requests with the same segment lengths have the same segment
    positions. *)
Lemma same_lengths_take (l1 l2 : list bio_vec) k :
  map length l1 = map length l2 ->
  total_len (take k l1) = total_len (take k l2).
Proof.
  revert l2 k. induction l1 as [|b1 l1 IH]; intros [|b2 l2] k H; try discriminate.
  - reflexivity.
  - injection H as Hb Hl. destruct k as [|k]; [reflexivity|].
    cbn [take]. rewrite !total_len_cons. unfold bv_len. rewrite Hb.
    rewrite (IH l2 k Hl). reflexivity.
Qed.

Lemma same_lengths_lookup (l1 l2 : list bio_vec) k b1 :
  map length l1 = map length l2 -> l1 !! k = Some b1 ->
  exists b2, l2 !! k = Some b2 /\ length b1 = length b2.
Proof.
  revert l2 k. induction l1 as [|x l1 IH]; intros [|y l2] k H Hk; try discriminate.
  injection H as Hb Hl. destruct k as [|k]; simpl in Hk.
  - injection Hk as <-. exists y. split; [reflexivity|exact Hb].
  - exact (IH l2 k Hl Hk).
Qed.

(** ** The read and write path of an in-bounds request *)

(** C3: on the 16 MB RAM disk, a request all of whose segments lie
    within the device is completed with [BLK_STS_OK]; a write stores
    segment [k] at the request's byte position advanced by the lengths of
    the segments before it and changes no byte outside the written range;
    a read returns, for segment [k], the bytes of the store at that
    position and leaves the device as it was; and a read of the range just
    written returns exactly the bytes written. *)
Theorem C3_ramdisk_in_bounds_request dev rq :
  size dev = DISK_SIZE -> 0 <= rq_sector rq -> segments_within dev rq ->
  exists dev' out,
    ramdisk_queue_rq dev rq = Completed BLK_STS_OK dev' out /\
    size dev' = size dev /\
    match rq_dir rq with
    | WRITE =>
        out = rq_bvecs rq /\
        (forall k bvec i, rq_bvecs rq !! k = Some bvec -> 0 <= i < bv_len bvec ->
           data dev' (seg_pos rq k + i) = nth (Z.to_nat i) bvec x00) /\
        (forall a, a < seg_pos rq 0 \/ seg_pos rq (length (rq_bvecs rq)) <= a ->
           data dev' a = data dev a) /\
        (forall rq_r, rq_dir rq_r = READ -> rq_sector rq_r = rq_sector rq ->
           map length (rq_bvecs rq_r) = map length (rq_bvecs rq) ->
           ramdisk_queue_rq dev' rq_r = Completed BLK_STS_OK dev' (rq_bvecs rq))
    | READ =>
        dev' = dev /\ length out = length (rq_bvecs rq) /\
        (forall k bvec, rq_bvecs rq !! k = Some bvec ->
           out !! k = Some (memcpy_from_data (data dev) (seg_pos rq k) (length bvec)))
    end.
Proof.
  intros Hsize H0 Hin.
  assert (Hs : 0 <= size dev <= S64_MAX) by (rewrite Hsize; vm_compute; split; discriminate).
  destruct (queue_rq_within dev rq Hs H0 Hin) as (dev' & out & Hrun & Hsz & Hdir).
  exists dev', out. split_and!; [exact Hrun | exact Hsz | ].
  destruct (rq_dir rq) eqn:Edir; [exact Hdir|].
  destruct Hdir as [-> Hdata]. split_and!; [reflexivity | | | ].
  - intros k bvec i Hk Hi. rewrite Hdata. apply written_segment; assumption.
  - intros a Ha. rewrite Hdata. apply memcpy_to_data_outside.
    unfold seg_pos in Ha. rewrite firstn_all in Ha.
    change (take 0 (rq_bvecs rq)) with (@nil (list byte)) in Ha.
    rewrite total_len_nil in Ha.
    unfold total_len in Ha. unfold bv_len. lia.
  - intros rq_r Hdir_r Hsec Hlens.
    assert (Hpos : forall k, seg_pos rq_r k = seg_pos rq k).
    { intros k. unfold seg_pos. rewrite Hsec.
      rewrite (same_lengths_take _ _ k Hlens). reflexivity. }
    assert (Hin_r : segments_within dev' rq_r).
    { intros k b_r Hk. rewrite Hpos.
      destruct (same_lengths_lookup _ _ k b_r Hlens Hk) as (b & Hb & Hlen).
      specialize (Hin k b Hb). unfold bv_len in *. lia. }
    destruct (queue_rq_within dev' rq_r) as (dev'' & out_r & Hrun_r & _ & Hdir');
      [lia | lia | exact Hin_r | ].
    rewrite Hdir_r in Hdir'. destruct Hdir' as (-> & Hlen_r & Hout_r).
    rewrite Hrun_r. f_equal.
    assert (Hlen_eq : length (rq_bvecs rq_r) = length (rq_bvecs rq)).
    { rewrite <- (length_map length (rq_bvecs rq_r)), Hlens. apply length_map. }
    apply list_eq. intros j.
    destruct (rq_bvecs rq_r !! j) as [b_r|] eqn:Hj.
    + destruct (same_lengths_lookup _ _ j b_r Hlens Hj) as (b & Hb & Hlen).
      rewrite (Hout_r j b_r Hj), Hb, Hpos, Hlen. f_equal.
      apply memcpy_from_data_eq. intros i Hi.
      rewrite Hdata. apply written_segment; assumption.
    + apply lookup_ge_None in Hj.
      rewrite (proj2 (lookup_ge_None out_r j)) by lia.
      symmetry. apply lookup_ge_None. lia.
Qed.

Lemma write_two_sectors_within : segments_within ramdisk_init write_two_sectors.
Proof.
  intros k bvec Hk. destruct k as [|[|k]]; simpl in Hk; [| |discriminate];
    injection Hk as <-; vm_compute; discriminate.
Qed.

Lemma C3_witness :
  exists dev' out,
    ramdisk_queue_rq ramdisk_init write_two_sectors = Completed BLK_STS_OK dev' out /\
    size dev' = size ramdisk_init /\
    out = rq_bvecs write_two_sectors /\
    (forall k bvec i, rq_bvecs write_two_sectors !! k = Some bvec ->
       0 <= i < bv_len bvec ->
       data dev' (seg_pos write_two_sectors k + i) = nth (Z.to_nat i) bvec x00) /\
    (forall a, a < seg_pos write_two_sectors 0 \/ seg_pos write_two_sectors 2 <= a ->
       data dev' a = data ramdisk_init a) /\
    (forall rq_r, rq_dir rq_r = READ -> rq_sector rq_r = rq_sector write_two_sectors ->
       map length (rq_bvecs rq_r) = map length (rq_bvecs write_two_sectors) ->
       ramdisk_queue_rq dev' rq_r
       = Completed BLK_STS_OK dev' (rq_bvecs write_two_sectors)).
Proof.
  apply (C3_ramdisk_in_bounds_request ramdisk_init write_two_sectors).
  - reflexivity.
  - simpl. lia.
  - exact write_two_sectors_within.
Defined.

(** Sectors 3 and 4 read back as written. *)
Example read_back_two_sectors :
  match ramdisk_queue_rq ramdisk_init write_two_sectors with
  | Completed _ dev' _ =>
      ramdisk_queue_rq dev' read_two_sectors
      = Completed BLK_STS_OK dev' [repeat x01 512; repeat x02 512]
  | Oops => False
  end.
Proof. vm_compute. reflexivity. Qed.

(** ** Requests that reach past the end of the device *)

(** C4: on the 16 MB RAM disk, a request is always completed, and it is
    completed with [BLK_STS_IOERR] exactly when some segment, at its
    position in iteration order, ends past the device size.  On such an
    error for a write, the segments before the first offending one are
    already in the backing store, and every byte from the offending
    segment's position onward (and before the request's start) is
    unchanged.  The requests are those whose byte positions [loff_t] can
    hold (sector * 512 plus the total segment length at most 2^63 - 1):
    every request inside the capacity of 32768 sectors, which is all the
    block layer hands to the driver, and every request that starts or
    ends up to 2^63 - 1 bytes past it. *)
Theorem C4_ramdisk_ioerr_iff_past_end dev rq :
  size dev = DISK_SIZE -> 0 <= rq_sector rq ->
  rq_sector rq * SECTOR_SIZE + total_len (rq_bvecs rq) <= S64_MAX ->
  exists st dev' out,
    ramdisk_queue_rq dev rq = Completed st dev' out /\
    (st = BLK_STS_IOERR <-> segment_past_end dev rq) /\
    (st = BLK_STS_IOERR -> rq_dir rq = WRITE ->
     exists k bvec,
       rq_bvecs rq !! k = Some bvec /\
       seg_pos rq k + bv_len bvec > size dev /\
       (forall j b i, (j < k)%nat -> rq_bvecs rq !! j = Some b ->
          0 <= i < bv_len b ->
          data dev' (seg_pos rq j + i) = nth (Z.to_nat i) b x00) /\
       (forall a, a < seg_pos rq 0 \/ seg_pos rq k <= a ->
          data dev' a = data dev a)).
Proof.
  intros Hsize H0 Hrep.
  assert (Hs : 0 <= size dev <= S64_MAX) by (rewrite Hsize; vm_compute; split; discriminate).
  rewrite queue_rq_loop by assumption.
  destruct (rq_for_each_segment_spec (rq_dir rq) (rq_bvecs rq)
              (rq_sector rq * SECTOR_SIZE) dev)
    as (st & dev' & out & k & Hrun & Hsz & Hk & Hfit & Hst & Hdir);
    [unfold SECTOR_SIZE; lia | lia | lia | ].
  exists st, dev', out. split_and!; [exact Hrun | | ].
  - split.
    + intros ->. destruct Hst as [[? _]|[_ (b & Hb & Hgt)]]; [discriminate|].
      exists k, b. split; [exact Hb|]. unfold seg_pos. lia.
    + intros (k' & b' & Hb' & Hgt').
      destruct Hst as [[_ ->]|[-> _]]; [|reflexivity].
      pose proof (lookup_lt_Some _ _ _ Hb') as Hlt.
      specialize (Hfit k' b' Hlt Hb'). unfold seg_pos in Hgt'. lia.
  - intros -> Hw. rewrite Hw in Hdir. destruct Hdir as [_ Hdata].
    destruct Hst as [[? _]|[_ (b & Hb & Hgt)]]; [discriminate|].
    exists k, b. split_and!; [exact Hb | unfold seg_pos; lia | | ].
    + intros j bj i Hj Hbj Hi. rewrite Hdata. unfold seg_pos.
      replace (take j (rq_bvecs rq)) with (take j (take k (rq_bvecs rq)))
        by (rewrite take_take; f_equal; lia).
      apply written_segments; [|exact Hi].
      rewrite lookup_take_lt by lia. exact Hbj.
    + intros a Ha. rewrite Hdata. apply memcpy_to_data_outside.
      unfold seg_pos in Ha.
      change (take 0 (rq_bvecs rq)) with (@nil (list byte)) in Ha.
      rewrite total_len_nil in Ha. unfold total_len in Ha. unfold bv_len. lia.
Qed.

Lemma C4_witness :
  exists st dev' out,
    ramdisk_queue_rq ramdisk_init write_across_end = Completed st dev' out /\
    (st = BLK_STS_IOERR <-> segment_past_end ramdisk_init write_across_end) /\
    (st = BLK_STS_IOERR -> rq_dir write_across_end = WRITE ->
     exists k bvec,
       rq_bvecs write_across_end !! k = Some bvec /\
       seg_pos write_across_end k + bv_len bvec > size ramdisk_init /\
       (forall j b i, (j < k)%nat -> rq_bvecs write_across_end !! j = Some b ->
          0 <= i < bv_len b ->
          data dev' (seg_pos write_across_end j + i) = nth (Z.to_nat i) b x00) /\
       (forall a, a < seg_pos write_across_end 0 \/ seg_pos write_across_end k <= a ->
          data dev' a = data ramdisk_init a)).
Proof.
  apply (C4_ramdisk_ioerr_iff_past_end ramdisk_init write_across_end).
  - reflexivity.
  - simpl. lia.
  - vm_compute. discriminate.
Defined.

(** The request [write_across_end] is completed with [BLK_STS_IOERR]
    after its first segment has reached the store. *)
Example write_across_end_partial :
  exists dev', ramdisk_queue_rq ramdisk_init write_across_end
               = Completed BLK_STS_IOERR dev' (rq_bvecs write_across_end) /\
    data dev' (32767 * 512) = x01 /\ data dev' (DISK_SIZE - 1) = x01.
Proof. eexists. split; [reflexivity|]. split; reflexivity. Qed.

(** Outside that range the positions do not fit [loff_t]: the
    one-segment write [write_at_loff_t_limit] starts at byte 2^63 - 512,
    some 2^54 sectors past the end of the 32768-sector device, where
    [pos + len] wraps to a negative [loff_t], the bounds check passes and
    the copy leaves the backing store.  The block layer checks a request
    against the capacity before the driver sees it, so the driver does
    not receive this request. *)
Lemma loff_t_wrap_passes_bounds_check :
  ~ (forall dev rq,
       size dev = DISK_SIZE -> 0 <= rq_sector rq < 2 ^ 64 ->
       ((exists dev' out, ramdisk_queue_rq dev rq = Completed BLK_STS_IOERR dev' out)
        <-> segment_past_end dev rq)).
Proof.
  intros H.
  destruct (H ramdisk_init write_at_loff_t_limit eq_refl) as [_ Hback].
  - simpl. lia.
  - destruct Hback as (dev' & out & Hrun).
    + exists 0%nat, (repeat x01 512). split; [reflexivity|]. vm_compute. reflexivity.
    + vm_compute in Hrun. discriminate Hrun.
Qed.

Example write_at_loff_t_limit_oops :
  ramdisk_queue_rq ramdisk_init write_at_loff_t_limit = Oops.
Proof. reflexivity. Qed.

(** ** Loading and unloading the module *)

(** X1: whatever the kernel answers, [ramdisk_init] returns, and never
    releases an object it does not hold.  When a step fails it returns
    the error of the first failing step having released everything set
    up before it: the module holds nothing.  When every step succeeds
    it returns 0 and holds the zeroed 16 MB store, the tag set and the
    registered disk with a capacity of 32768 sectors, all of which
    [ramdisk_exit] then releases. *)
Theorem X1_ramdisk_init_releases_on_failure
    (vzalloc_ok : bool) (tag_set_err : Z) (disk_err : option Z) (add_disk_err : Z) :
  exists ret m,
    ramdisk_module_init vzalloc_ok tag_set_err disk_err add_disk_err ramdisk_unloaded
    = Some (ret, m) /\
    match first_failure vzalloc_ok tag_set_err disk_err add_disk_err with
    | Some err => ret = err /\ m = ramdisk_unloaded
    | None =>
        ret = 0 /\
        m = {| store := Some ramdisk_init; tag_set := true;
               disk := Some 32768; disk_added := true |} /\
        ramdisk_module_exit m = Some ramdisk_unloaded
    end.
Proof.
  unfold ramdisk_module_init, first_failure.
  destruct vzalloc_ok; cbn [negb].
  - destruct (tag_set_err =? 0); cbn [negb].
    + destruct disk_err as [err|].
      * eexists _, _. split; [reflexivity|]. split; reflexivity.
      * destruct (add_disk_err =? 0); cbn [negb].
        -- eexists _, _. split; [reflexivity|]. split_and!; reflexivity.
        -- eexists _, _. split; [reflexivity|]. split; reflexivity.
    + eexists _, _. split; [reflexivity|]. split; reflexivity.
  - eexists _, _. split; [reflexivity|]. split; reflexivity.
Qed.

(** ** Requests inside the capacity *)

Lemma capacity_bytes : ramdisk_capacity * SECTOR_SIZE = DISK_SIZE.
Proof. reflexivity. Qed.

Lemma within_capacity_segments dev rq :
  size dev = DISK_SIZE -> within_capacity rq -> segments_within dev rq.
Proof.
  intros Hsize [H0 Hcap] k bvec Hk. unfold seg_pos.
  pose proof (total_len_take_lookup _ _ _ Hk).
  rewrite capacity_bytes in Hcap. lia.
Qed.

Lemma disk_size_range dev : size dev = DISK_SIZE -> 0 <= size dev <= S64_MAX.
Proof. intros ->. vm_compute. split; discriminate. Qed.

(** X2: the bounds check of [ramdisk_queue_rq] never fires for the
    requests the block layer lets through.  Served one after the other
    from any state of the 16 MB disk, requests that lie inside the
    capacity [ramdisk_init] set are all completed with [BLK_STS_OK]; no
    copy leaves the backing store, and the store keeps its size. *)
Theorem X2_requests_within_capacity_succeed rqs : forall dev,
  size dev = DISK_SIZE -> Forall within_capacity rqs ->
  exists dev' done,
    ramdisk_serve rqs dev = Some (dev', done) /\
    size dev' = DISK_SIZE /\
    map fst done = repeat BLK_STS_OK (length rqs).
Proof.
  induction rqs as [|rq rqs IH]; intros dev Hsize Hall.
  - exists dev, []. split_and!; [reflexivity | exact Hsize | reflexivity].
  - inversion Hall as [|? ? Hrq Hrest]; subst.
    destruct (queue_rq_within dev rq (disk_size_range dev Hsize) (proj1 Hrq)
                (within_capacity_segments dev rq Hsize Hrq))
      as (dev1 & out & Hrun & Hsz & _).
    destruct (IH dev1 ltac:(congruence) Hrest) as (dev2 & done & Hserve & Hsz2 & Hst).
    exists dev2, ((BLK_STS_OK, out) :: done).
    cbn [ramdisk_serve]. rewrite Hrun, Hserve.
    split_and!; [reflexivity | exact Hsz2 | ].
    cbn [map fst length repeat]. rewrite Hst. reflexivity.
Qed.

Lemma X2_witness :
  exists dev' done,
    ramdisk_serve [write_two_sectors; read_two_sectors] ramdisk_init = Some (dev', done) /\
    size dev' = DISK_SIZE /\
    map fst done = repeat BLK_STS_OK 2.
Proof.
  apply (X2_requests_within_capacity_succeed [write_two_sectors; read_two_sectors]).
  - reflexivity.
  - repeat constructor; vm_compute; discriminate.
Defined.

Lemma memcpy_from_zeroed pos n :
  memcpy_from_data (fun _ => x00) pos n = repeat x00 n.
Proof.
  unfold memcpy_from_data. generalize 0%nat.
  induction n as [|n IH]; intros s; [reflexivity|].
  cbn [seq map repeat]. rewrite IH. reflexivity.
Qed.

(** X3: the store [ramdisk_init] allocates is zeroed, so the new disk
    hands out no stale memory: a read request inside the capacity is
    completed with [BLK_STS_OK], leaves the disk as it is and fills
    every segment with zero bytes. *)
Theorem X3_fresh_disk_reads_zeros rq :
  rq_dir rq = READ -> within_capacity rq ->
  ramdisk_queue_rq ramdisk_init rq
  = Completed BLK_STS_OK ramdisk_init
      (map (fun bvec => repeat x00 (length bvec)) (rq_bvecs rq)).
Proof.
  intros Hdir Hcap.
  destruct (queue_rq_within ramdisk_init rq (disk_size_range ramdisk_init eq_refl)
              (proj1 Hcap)
              (within_capacity_segments ramdisk_init rq eq_refl Hcap))
    as (dev' & out & Hrun & _ & Hread).
  rewrite Hdir in Hread. destruct Hread as (-> & Hlen & Hout).
  rewrite Hrun. f_equal. apply list_eq. intros j.
  rewrite list_lookup_fmap.
  destruct (rq_bvecs rq !! j) as [b|] eqn:Hj; cbn [fmap option_fmap option_map].
  - rewrite (Hout j b Hj). cbn [data ramdisk_init].
    rewrite memcpy_from_zeroed. reflexivity.
  - apply lookup_ge_None. apply lookup_ge_None in Hj. lia.
Qed.

Lemma X3_witness :
  ramdisk_queue_rq ramdisk_init read_two_sectors
  = Completed BLK_STS_OK ramdisk_init
      (map (fun bvec => repeat x00 (length bvec)) (rq_bvecs read_two_sectors)).
Proof.
  apply (X3_fresh_disk_reads_zeros read_two_sectors).
  - reflexivity.
  - vm_compute. split; discriminate.
Defined.

(** ** A read that runs past the end *)

(** X4: a read request with a segment that ends past the device is not
    atomic either.  It is completed with [BLK_STS_IOERR] and the store
    is untouched, but the segments before the first one that does not
    fit have already been filled with the bytes of the store at their
    positions, while that segment and those after it keep what they
    held. *)
Theorem X4_read_past_end_is_partial dev rq :
  size dev = DISK_SIZE -> 0 <= rq_sector rq -> rq_dir rq = READ ->
  rq_sector rq * SECTOR_SIZE + total_len (rq_bvecs rq) <= S64_MAX ->
  segment_past_end dev rq ->
  exists k bvec out,
    ramdisk_queue_rq dev rq = Completed BLK_STS_IOERR dev out /\
    rq_bvecs rq !! k = Some bvec /\
    seg_pos rq k + bv_len bvec > size dev /\
    length out = length (rq_bvecs rq) /\
    (forall j b, (j < k)%nat -> rq_bvecs rq !! j = Some b ->
       seg_pos rq j + bv_len b <= size dev /\
       out !! j = Some (memcpy_from_data (data dev) (seg_pos rq j) (length b))) /\
    (forall j b, (k <= j)%nat -> rq_bvecs rq !! j = Some b -> out !! j = Some b).
Proof.
  intros Hsize H0 Hdir Hrep (k' & b' & Hb' & Hgt').
  pose proof (disk_size_range dev Hsize) as Hs.
  rewrite queue_rq_loop by assumption.
  destruct (rq_for_each_segment_spec (rq_dir rq) (rq_bvecs rq)
              (rq_sector rq * SECTOR_SIZE) dev)
    as (st & dev' & out & k & Hrun & Hsz & Hk & Hfit & Hst & Hspec);
    [unfold SECTOR_SIZE; lia | lia | lia | ].
  rewrite Hdir in Hspec. destruct Hspec as (-> & Hlen & Hout).
  destruct Hst as [[_ ->]|[-> (b & Hb & Hgt)]].
  - exfalso. pose proof (lookup_lt_Some _ _ _ Hb') as Hlt.
    specialize (Hfit k' b' Hlt Hb'). unfold seg_pos in Hgt'. lia.
  - exists k, b, out. rewrite Hrun.
    split_and!; [reflexivity | exact Hb | unfold seg_pos; lia | exact Hlen | | ].
    + intros j bj Hj Hbj. split.
      * specialize (Hfit j bj Hj Hbj). unfold seg_pos. lia.
      * rewrite (Hout j bj Hbj).
        destruct (Nat.ltb_spec j k); [reflexivity|lia].
    + intros j bj Hj Hbj. rewrite (Hout j bj Hbj).
      destruct (Nat.ltb_spec j k); [lia|reflexivity].
Qed.

Lemma X4_witness :
  exists k bvec out,
    ramdisk_queue_rq ramdisk_init read_across_end
    = Completed BLK_STS_IOERR ramdisk_init out /\
    rq_bvecs read_across_end !! k = Some bvec /\
    seg_pos read_across_end k + bv_len bvec > size ramdisk_init /\
    length out = length (rq_bvecs read_across_end) /\
    (forall j b, (j < k)%nat -> rq_bvecs read_across_end !! j = Some b ->
       seg_pos read_across_end j + bv_len b <= size ramdisk_init /\
       out !! j = Some (memcpy_from_data (data ramdisk_init)
                          (seg_pos read_across_end j) (length b))) /\
    (forall j b, (k <= j)%nat -> rq_bvecs read_across_end !! j = Some b ->
       out !! j = Some b).
Proof.
  apply (X4_read_past_end_is_partial ramdisk_init read_across_end).
  - reflexivity.
  - simpl. lia.
  - reflexivity.
  - vm_compute. discriminate.
  - exists 1%nat, (repeat x09 512). split; [reflexivity|]. vm_compute. reflexivity.
Defined.

(** The first segment of [read_across_end] receives the last sector,
    the second keeps its bytes. *)
Example read_across_end_partial :
  ramdisk_queue_rq ramdisk_init read_across_end
  = Completed BLK_STS_IOERR ramdisk_init [repeat x00 512; repeat x09 512].
Proof. vm_compute. reflexivity. Qed.

End RamdiskProofs.

(** ** simple_char *)

Module SimpleCharProofs.
Import CInt CIntFacts Errno SimpleChar.

Ltac unwrap :=
  repeat first
    [ rewrite s64_small by (unfold U64_MAX, S64_MAX, BUFFER_SIZE in *; lia)
    | rewrite u64_small by (unfold U64_MAX, S64_MAX, BUFFER_SIZE in *; lia) ].

Lemma buffer_read_length buf pos n :
  0 <= pos -> 0 <= n -> pos + n <= Z.of_nat (length buf) ->
  Z.of_nat (length (buffer_read buf pos n)) = n.
Proof.
  intros Hp Hn Hle. unfold buffer_read.
  rewrite length_take, length_drop. lia.
Qed.

Lemma buffer_write_length buf pos bytes :
  0 <= pos -> pos + Z.of_nat (length bytes) <= Z.of_nat (length buf) ->
  length (buffer_write buf pos bytes) = length buf.
Proof.
  intros Hp Hle. unfold buffer_write.
  rewrite !length_app, length_take, length_drop. lia.
Qed.

Lemma copy_from_user_fault_length ubuf n :
  Z.of_nat (length ubuf) < n ->
  Z.of_nat (length (copy_from_user_fault ubuf n)) = n.
Proof.
  intros H. unfold copy_from_user_fault. rewrite length_app, repeat_length. lia.
Qed.

(** [schar_read] on a well-formed device and position. *)
Lemma schar_read_spec dev uaccess count pos :
  0 <= size dev <= BUFFER_SIZE -> 0 <= pos <= S64_MAX -> 0 <= count <= U64_MAX ->
  let r := schar_read dev uaccess count pos in
  dev_after r = dev /\
  (size dev <= pos -> ret r = 0 /\ pos_after r = pos /\ to_user r = []) /\
  (pos < size dev ->
   let n := Z.min count (size dev - pos) in
   (n <= uaccess ->
    ret r = n /\ pos_after r = pos + n /\
    to_user r = buffer_read (buffer dev) pos n) /\
   (uaccess < n ->
    ret r = - EFAULT /\ pos_after r = pos /\
    to_user r = take (Z.to_nat uaccess) (buffer_read (buffer dev) pos n))).
Proof.
  intros Hsize Hpos Hcount. cbv zeta. unfold schar_read.
  rewrite (u64_small pos) by (unfold S64_MAX in *; lia).
  destruct (Z.lt_ge_cases pos (size dev)) as [Hlt|Hge].
  - zbool. rewrite (u64_small (size dev - pos)) by (unfold BUFFER_SIZE in *; lia).
    assert (Hn : (if size dev - pos <? count then size dev - pos else count)
                 = Z.min count (size dev - pos)).
    { destruct (Z.lt_ge_cases (size dev - pos) count); zbool; lia. }
    rewrite Hn. set (n := Z.min count (size dev - pos)).
    assert (0 <= n <= BUFFER_SIZE) by lia.
    destruct (Z.lt_ge_cases uaccess n) as [Hf|Hok]; zbool; cbn [ret dev_after pos_after to_user].
    + split_and!; [reflexivity | contra | ]. intros _. split; [contra|]. intros _. auto.
    + unwrap. split_and!; [reflexivity | contra | ]. intros _. split; [|contra].
      intros _. auto.
  - zbool. cbn [ret dev_after pos_after to_user].
    split_and!; [reflexivity | auto | contra].
Qed.

(** [schar_write] on a well-formed device and position. *)
Lemma schar_write_spec dev ubuf count pos :
  0 <= size dev <= BUFFER_SIZE -> 0 <= pos <= S64_MAX -> 0 <= count <= U64_MAX ->
  let r := schar_write dev ubuf count pos in
  (BUFFER_SIZE <= pos ->
   ret r = - ENOSPC /\ dev_after r = dev /\ pos_after r = pos) /\
  (pos < BUFFER_SIZE ->
   let n := Z.min count (BUFFER_SIZE - pos) in
   (n <= Z.of_nat (length ubuf) ->
    ret r = n /\ pos_after r = pos + n /\
    size (dev_after r) = Z.max (size dev) (pos + n) /\
    buffer (dev_after r) = buffer_write (buffer dev) pos (take (Z.to_nat n) ubuf)) /\
   (Z.of_nat (length ubuf) < n ->
    ret r = - EFAULT /\ pos_after r = pos /\ size (dev_after r) = size dev /\
    buffer (dev_after r)
    = buffer_write (buffer dev) pos (copy_from_user_fault ubuf n))).
Proof.
  intros Hsize Hpos Hcount. cbv zeta. unfold schar_write.
  destruct (Z.lt_ge_cases pos BUFFER_SIZE) as [Hlt|Hge].
  - zbool. rewrite (u64_small (BUFFER_SIZE - pos)) by (unfold BUFFER_SIZE in *; lia).
    assert (Hn : (if BUFFER_SIZE - pos <? count then BUFFER_SIZE - pos else count)
                 = Z.min count (BUFFER_SIZE - pos)).
    { destruct (Z.lt_ge_cases (BUFFER_SIZE - pos) count); zbool; lia. }
    rewrite Hn. set (n := Z.min count (BUFFER_SIZE - pos)).
    assert (0 <= n <= BUFFER_SIZE) by lia.
    destruct (Z.lt_ge_cases (Z.of_nat (length ubuf)) n) as [Hf|Hok]; zbool;
      cbn [ret dev_after pos_after to_user size buffer].
    + split; [contra|]. intros _. split; [contra|]. intros _. auto.
    + unwrap. split; [contra|]. intros _. split; [|contra]. intros _.
      split_and!; [reflexivity | reflexivity | | reflexivity].
      destruct (Z.lt_ge_cases (size dev) (pos + n)); zbool; lia.
  - zbool. cbn [ret dev_after pos_after to_user]. split; [auto|contra].
Qed.

(** [simple_llseek] never touches the device and leaves a non-negative
    position. *)
Lemma simple_llseek_spec dev f_pos offset whence :
  0 <= f_pos <= S64_MAX -> - 2 ^ 63 <= offset <= S64_MAX ->
  let r := simple_llseek dev f_pos offset whence in
  dev_after r = dev /\ 0 <= pos_after r <= S64_MAX.
Proof.
  intros Hpos Hoff. cbv zeta. unfold simple_llseek.
  assert (Hs : forall z, s64 z <= S64_MAX).
  { intros z. unfold s64, wrap_signed, S64_MAX. change (64 - 1) with 63.
    pose proof (Z.mod_pos_bound (z + 2 ^ 63) (2 ^ 64) eq_refl). lia. }
  assert (Hseek : forall newpos, newpos <= S64_MAX ->
    let r := if newpos <? 0
             then {| ret := - EINVAL; dev_after := dev; pos_after := f_pos; to_user := [] |}
             else {| ret := newpos; dev_after := dev; pos_after := newpos; to_user := [] |} in
    dev_after r = dev /\ 0 <= pos_after r <= S64_MAX).
  { intros newpos Hle. cbv zeta.
    destruct (Z.lt_ge_cases newpos 0); zbool; cbn [dev_after pos_after]; split; auto; lia. }
  destruct (whence =? SEEK_SET); [|destruct (whence =? SEEK_CUR);
    [|destruct (whence =? SEEK_END)]].
  - apply Hseek. lia.
  - apply Hseek. apply Hs.
  - apply Hseek. apply Hs.
  - cbn [dev_after pos_after]. auto.
Qed.

(** One call keeps the invariant and does not shrink the valid length. *)
Lemma file_next_inv st op :
  file_inv st -> file_op_typed op ->
  file_inv (file_next st op) /\ size (fst st) <= size (fst (file_next st op)).
Proof.
  destruct st as [dev pos]. unfold file_inv, file_next. cbn [fst snd].
  intros (Hlen & Hsize & Hpos) Hty.
  destruct op as [uaccess count|ubuf count|offset whence]; cbn [file_step file_op_typed] in *.
  - destruct (schar_read_spec dev uaccess count pos Hsize Hpos Hty) as (Hdev & Heof & Hrd).
    cbv zeta in Hrd. rewrite Hdev.
    assert (Hp : 0 <= pos_after (schar_read dev uaccess count pos) <= S64_MAX).
    { destruct (Z.lt_ge_cases pos (size dev)) as [Hlt|Hge].
      - destruct (Hrd Hlt) as [Hok Hfault].
        destruct (Z.lt_ge_cases uaccess (Z.min count (size dev - pos))) as [Hf|Hk].
        + destruct (Hfault Hf) as (_ & -> & _). lia.
        + destruct (Hok Hk) as (_ & -> & _). unfold S64_MAX, BUFFER_SIZE in *. lia.
      - destruct (Heof Hge) as (_ & -> & _). lia. }
    split_and!; solve [assumption | lia].
  - destruct (schar_write_spec dev ubuf count pos Hsize Hpos Hty) as (Hfull & Hwr).
    cbv zeta in Hwr.
    destruct (Z.lt_ge_cases pos BUFFER_SIZE) as [Hlt|Hge].
    + destruct (Hwr Hlt) as [Hok Hfault].
      destruct (Z.lt_ge_cases (Z.of_nat (length ubuf)) (Z.min count (BUFFER_SIZE - pos)))
        as [Hf|Hk].
      * destruct (Hfault Hf) as (_ & -> & -> & ->).
        rewrite buffer_write_length;
          [ | lia | rewrite copy_from_user_fault_length by lia;
                    rewrite Hlen; unfold BUFFER_SIZE in *; lia ].
        split_and!; solve [assumption | lia].
      * destruct (Hok Hk) as (_ & -> & -> & ->).
        rewrite buffer_write_length;
          [ | lia | rewrite length_take, Hlen; unfold BUFFER_SIZE in *; lia ].
        split_and!; solve [assumption | unfold S64_MAX, BUFFER_SIZE in *; lia].
    + destruct (Hfull Hge) as (_ & -> & ->). split_and!; solve [assumption | lia].
  - destruct (simple_llseek_spec dev pos offset whence Hpos Hty) as (-> & Hp).
    split_and!; solve [assumption | lia].
Qed.

Lemma sys_next_inv st c :
  sys_inv st -> sys_op_typed c ->
  sys_inv (sys_next st c) /\ size (fst st) <= size (fst (sys_next st c)).
Proof.
  destruct st as [dev files]. unfold sys_inv. cbn [fst snd].
  intros (Hlen & Hsize & Hfiles) Hty.
  destruct c as [|fd op]; cbn [sys_next fst snd sys_op_typed] in *.
  - split_and!; try assumption; try lia.
    apply Forall_app. split; [exact Hfiles|].
    constructor; [unfold S64_MAX; lia | constructor].
  - destruct (files !! fd) as [pos|] eqn:Hfd; cbn [fst snd].
    + assert (Hpos : 0 <= pos <= S64_MAX).
      { rewrite Forall_lookup in Hfiles. exact (Hfiles fd pos Hfd). }
      destruct (file_next_inv (dev, pos) op) as [(Hlen' & Hsize' & Hpos') Hle];
        [unfold file_inv; cbn [fst snd]; auto | exact Hty | ].
      unfold file_next in *. cbn [fst snd] in *.
      split_and!; try assumption; try lia.
      apply Forall_insert; assumption.
    + split_and!; try assumption; lia.
Qed.

Lemma sys_run_inv ops : forall st,
  sys_inv st -> Forall sys_op_typed ops ->
  sys_inv (sys_run ops st) /\ size (fst st) <= size (fst (sys_run ops st)).
Proof.
  induction ops as [|c ops IH]; intros st Hinv Hty.
  - split; [exact Hinv | cbn; lia].
  - inversion Hty as [|? ? Hc Hops]; subst.
    destruct (sys_next_inv st c Hinv Hc) as [Hinv1 Hle1].
    destruct (IH (sys_next st c) Hinv1 Hops) as [Hinv2 Hle2].
    unfold sys_run in *. cbn [fold_left]. split; [exact Hinv2 | lia].
Qed.

(** ** Reading *)

(** C6, as amended: for a read at a non-negative file position [pos]
    with request length [count], the device is never changed; at or past
    the valid length the read returns 0 and leaves the position; before
    it, with [n = min(count, size - pos)], the read hands the caller the
    [n] buffer bytes from [pos], advances the position by [n] and returns
    [n], provided the caller's buffer takes [n] bytes; if it does not,
    the read returns [-EFAULT] and the position stays, and the part of
    the caller's buffer that can be written has received the buffer
    bytes from [pos] that fit in it. *)
Theorem C6_schar_read dev uaccess count pos :
  length (buffer dev) = Z.to_nat BUFFER_SIZE ->
  0 <= size dev <= BUFFER_SIZE -> 0 <= pos <= S64_MAX -> 0 <= count <= U64_MAX ->
  let r := schar_read dev uaccess count pos in
  dev_after r = dev /\
  (size dev <= pos -> ret r = 0 /\ pos_after r = pos /\ to_user r = []) /\
  (pos < size dev ->
   let n := Z.min count (size dev - pos) in
   (n <= uaccess ->
    ret r = n /\ pos_after r = pos + n /\
    to_user r = take (Z.to_nat n) (drop (Z.to_nat pos) (buffer dev)) /\
    Z.of_nat (length (to_user r)) = n) /\
   (uaccess < n ->
    ret r = - EFAULT /\ pos_after r = pos /\
    to_user r = take (Z.to_nat uaccess) (drop (Z.to_nat pos) (buffer dev)) /\
    Z.of_nat (length (to_user r)) = Z.max 0 uaccess)).
Proof.
  intros Hlen Hsize Hpos Hcount.
  destruct (schar_read_spec dev uaccess count pos Hsize Hpos Hcount) as (Hdev & Heof & Hrd).
  cbv zeta in *. split_and!; [exact Hdev | exact Heof | ].
  intros Hlt. destruct (Hrd Hlt) as [Hok Hfault]. split.
  - intros Hk. destruct (Hok Hk) as (Hret & Hp & Hu).
    split_and!; [exact Hret | exact Hp | exact Hu | ].
    rewrite Hu. apply buffer_read_length; rewrite ?Hlen; unfold BUFFER_SIZE in *; lia.
  - intros Hk. destruct (Hfault Hk) as (Hret & Hp & Hu).
    assert (Hpre : to_user (schar_read dev uaccess count pos)
                   = take (Z.to_nat uaccess) (drop (Z.to_nat pos) (buffer dev))).
    { rewrite Hu. unfold buffer_read. rewrite take_take. f_equal. lia. }
    split_and!; [exact Hret | exact Hp | exact Hpre | ].
    rewrite Hpre, length_take, length_drop, Hlen. unfold BUFFER_SIZE in *. lia.
Qed.

Lemma C6_witness :
  let r := schar_read four_bytes 16 3 1 in
  dev_after r = four_bytes /\
  (size four_bytes <= 1 -> ret r = 0 /\ pos_after r = 1 /\ to_user r = []) /\
  (1 < size four_bytes ->
   let n := Z.min 3 (size four_bytes - 1) in
   (n <= 16 ->
    ret r = n /\ pos_after r = 1 + n /\
    to_user r = take (Z.to_nat n) (drop (Z.to_nat 1) (buffer four_bytes)) /\
    Z.of_nat (length (to_user r)) = n) /\
   (16 < n ->
    ret r = - EFAULT /\ pos_after r = 1 /\
    to_user r = take (Z.to_nat 16) (drop (Z.to_nat 1) (buffer four_bytes)) /\
    Z.of_nat (length (to_user r)) = Z.max 0 16)).
Proof.
  apply (C6_schar_read four_bytes 16 3 1).
  - reflexivity.
  - vm_compute. split; discriminate.
  - vm_compute. split; discriminate.
  - vm_compute. split; discriminate.
Defined.

Example read_three_of_four :
  let r := schar_read four_bytes 16 8 1 in
  ret r = 3 /\ pos_after r = 4 /\ to_user r = [x02; x03; x04].
Proof. vm_compute. auto. Qed.

(** A read of 4 bytes into a buffer of which only 2 bytes can be
    written faults after it has delivered the first two. *)
Example read_faults_after_two :
  let r := schar_read four_bytes 2 4 0 in
  ret r = - EFAULT /\ pos_after r = 0 /\ to_user r = [x01; x02].
Proof. vm_compute. auto. Qed.

(** C6 as stated fails when the caller's buffer cannot be written: the
    read of 4 bytes at position 0 of [four_bytes] into an inaccessible
    buffer returns [-EFAULT] and does not advance the position. *)
Lemma C6_counterexample :
  ~ (forall dev uaccess count pos,
       file_inv (dev, pos) -> 0 <= count <= U64_MAX ->
       let r := schar_read dev uaccess count pos in
       if size dev <=? pos
       then ret r = 0 /\ dev_after r = dev /\ pos_after r = pos
       else ret r = Z.min count (size dev - pos) /\
            pos_after r = pos + Z.min count (size dev - pos) /\
            to_user r = buffer_read (buffer dev) pos (Z.min count (size dev - pos))).
Proof.
  intros H. specialize (H four_bytes 0 4 0).
  assert (Hinv : file_inv (four_bytes, 0)).
  { unfold file_inv. cbn [fst snd]. split_and!; try reflexivity; vm_compute; discriminate. }
  specialize (H Hinv). cbv zeta in H. vm_compute in H.
  destruct H as [Hret _]; [split; discriminate|]. discriminate Hret.
Qed.

(** ** The valid length over sequences of calls *)

(** C7, as amended: from any state satisfying the invariant, every
    sequence of opens and of read, write and llseek calls on the open
    files keeps [0 <= size <= 4096] (with the buffer at its declared
    length and every file position non-negative) and never decreases
    [size]; in the state reached, at the position of any open file, a
    write at [pos >= 4096] returns [-ENOSPC] and changes nothing; a write
    at [pos < 4096] whose [n = min(count, 4096 - pos)] bytes can be read
    from the caller stores them at [pos], returns [n], advances the
    position by [n] and sets [size] to [max(size, pos + n)]; a write that
    faults returns [-EFAULT] with [size] and the position unchanged; and
    read and llseek leave the device, buffer and [size], as it was. *)
Theorem C7_simple_char_size_invariant ops st :
  sys_inv st -> Forall sys_op_typed ops ->
  let st' := sys_run ops st in
  sys_inv st' /\ size (fst st) <= size (fst st') /\
  (forall pos, In pos (snd st') ->
     write_contract (fst st') pos /\ read_llseek_keep_device (fst st') pos).
Proof.
  intros Hinv Hty. cbv zeta.
  destruct (sys_run_inv ops st Hinv Hty) as [Hinv' Hle].
  split_and!; [exact Hinv' | exact Hle | ].
  intros pos Hin. destruct Hinv' as (Hlen & Hsize & Hfiles).
  rewrite Forall_forall in Hfiles.
  assert (Hpos : 0 <= pos <= S64_MAX) by (apply Hfiles, list_elem_of_In, Hin).
  split.
  - intros ubuf count Hcount.
    destruct (schar_write_spec (fst (sys_run ops st)) ubuf count pos Hsize Hpos Hcount)
      as (Hfull & Hwr).
    cbv zeta in *. split; [exact Hfull|].
    intros Hlt. destruct (Hwr Hlt) as [Hok Hfault]. split; [exact Hok|].
    intros Hf. destruct (Hfault Hf) as (? & ? & ? & _). auto.
  - split.
    + intros uaccess count. unfold schar_read.
      destruct (_ >=? _); [reflexivity|]. destruct (_ >? _); reflexivity.
    + intros offset whence. unfold simple_llseek.
      repeat (destruct (_ =? _)); try reflexivity; destruct (_ <? _); reflexivity.
Qed.

Lemma C7_witness :
  let st' := sys_run short_session (simple_init, []) in
  sys_inv st' /\ size (fst (simple_init, @nil Z)) <= size (fst st') /\
  (forall pos, In pos (snd st') ->
     write_contract (fst st') pos /\ read_llseek_keep_device (fst st') pos).
Proof.
  apply (C7_simple_char_size_invariant short_session (simple_init, [])).
  - unfold sys_inv. cbn [fst snd]. split; [reflexivity|].
    split; [vm_compute; split; discriminate | constructor].
  - unfold short_session. repeat constructor; vm_compute; discriminate.
Defined.

(** The session ends with the buffer full: 4096 valid bytes, the first
    file back at the end of the data after reading all of it, the second
    at the end of the buffer with its last write refused. *)
Example short_session_end :
  let st' := sys_run short_session (simple_init, []) in
  size (fst st') = 4096 /\ snd st' = [4096; 4096] /\
  ret (schar_write (fst st') [x07] 1 4096) = - ENOSPC.
Proof. vm_compute. auto. Qed.

(** C7 as stated fails for a write whose source cannot be read: on the
    fresh device, a write of 4 bytes at position 0 from an inaccessible
    buffer returns [-EFAULT] and leaves [size] at 0. *)
Lemma C7_counterexample :
  ~ (forall dev ubuf count pos,
       file_inv (dev, pos) -> 0 <= count <= U64_MAX -> pos < BUFFER_SIZE ->
       let r := schar_write dev ubuf count pos in
       ret r = Z.min count (BUFFER_SIZE - pos) /\
       size (dev_after r) = Z.max (size dev) (pos + Z.min count (BUFFER_SIZE - pos))).
Proof.
  intros H. specialize (H simple_init [] 4 0).
  assert (Hinv : file_inv (simple_init, 0)).
  { unfold file_inv. cbn [fst snd]. split; [reflexivity|].
    split; vm_compute; split; discriminate. }
  specialize (H Hinv). cbv zeta in H. vm_compute in H.
  destruct H as [Hret _]; [split; discriminate | reflexivity | discriminate Hret].
Qed.

(** ** Loading and unloading the module *)

(** X5: whatever the kernel answers, [simple_init] returns, and never
    releases a registration it does not hold.  When a step fails it
    returns that step's error having undone, in reverse order, every
    registration made before it: nothing stays registered.  When all
    four steps succeed it returns 0 with the device number region, the
    cdev, the class and the device node registered, all of which
    [simple_exit] then releases. *)
Theorem X5_simple_init_unwinds_on_failure
    (region_ret cdev_ret : Z) (class_err device_err : option Z) :
  exists r m,
    simple_module_init region_ret cdev_ret class_err device_err simple_unloaded
    = Some (r, m) /\
    match first_failure region_ret cdev_ret class_err device_err with
    | Some err => r = err /\ m = simple_unloaded
    | None =>
        r = 0 /\
        m = {| chrdev_region := true; cdev_added := true;
               class_created := true; device_created := true |} /\
        simple_module_exit m = Some simple_unloaded
    end.
Proof.
  unfold simple_module_init, first_failure.
  destruct (region_ret <? 0).
  - eexists _, _. split; [reflexivity|]. split; reflexivity.
  - destruct (cdev_ret <? 0).
    + eexists _, _. split; [reflexivity|]. split; reflexivity.
    + destruct class_err as [err|].
      * eexists _, _. split; [reflexivity|]. split; reflexivity.
      * destruct device_err as [err|].
        -- eexists _, _. split; [reflexivity|]. split; reflexivity.
        -- eexists _, _. split; [reflexivity|]. split_and!; reflexivity.
Qed.

(** ** Writing and reading back *)

Lemma buffer_read_write buf pos bytes :
  0 <= pos -> (Z.to_nat pos <= length buf)%nat ->
  buffer_read (buffer_write buf pos bytes) pos (Z.of_nat (length bytes)) = bytes.
Proof.
  intros Hpos Hle. unfold buffer_read, buffer_write.
  rewrite drop_app_length' by (rewrite length_take; lia).
  rewrite Nat2Z.id. rewrite take_app_length. reflexivity.
Qed.

Lemma buffer_write_lookup buf pos bytes i :
  0 <= pos -> (Z.to_nat pos + length bytes <= length buf)%nat ->
  (i < Z.to_nat pos \/ Z.to_nat pos + length bytes <= i)%nat ->
  buffer_write buf pos bytes !! i = buf !! i.
Proof.
  intros Hpos Hle Hi. unfold buffer_write.
  destruct Hi as [Hlt|Hge].
  - rewrite lookup_app_l by (rewrite length_take; lia).
    apply lookup_take_lt. exact Hlt.
  - rewrite lookup_app_r by (rewrite length_take; lia).
    rewrite lookup_app_r by (rewrite length_take; lia).
    rewrite lookup_drop. f_equal. rewrite length_take. lia.
Qed.

(** X6: what a write stores, a read of the same range returns.  From a
    position inside the buffer, a write whose
    [n = min(count, 4096 - pos)] bytes can be read from the caller
    returns [n]; after a seek back to [pos], a read of [n] bytes into a
    buffer that takes them returns [n] and hands back exactly the first
    [n] bytes the writer supplied, leaving the position at [pos + n]. *)
Theorem X6_write_seek_read_round_trip dev ubuf count pos uaccess :
  length (buffer dev) = Z.to_nat BUFFER_SIZE ->
  0 <= size dev <= BUFFER_SIZE -> 0 <= pos < BUFFER_SIZE ->
  0 <= count <= U64_MAX ->
  Z.min count (BUFFER_SIZE - pos) <= Z.of_nat (length ubuf) ->
  Z.min count (BUFFER_SIZE - pos) <= uaccess ->
  let n := Z.min count (BUFFER_SIZE - pos) in
  let w := schar_write dev ubuf count pos in
  let s := simple_llseek (dev_after w) (pos_after w) pos SEEK_SET in
  let r := schar_read (dev_after s) uaccess n (pos_after s) in
  ret w = n /\ ret s = pos /\ ret r = n /\
  to_user r = take (Z.to_nat n) ubuf /\ pos_after r = pos + n.
Proof.
  intros Hlen Hsize Hpos Hcount Hubuf Hua. cbv zeta.
  set (n := Z.min count (BUFFER_SIZE - pos)) in *.
  assert (Hn : 0 <= n <= BUFFER_SIZE) by (unfold BUFFER_SIZE in *; lia).
  assert (HposS : 0 <= pos <= S64_MAX) by (unfold BUFFER_SIZE, S64_MAX in *; lia).
  destruct (schar_write_spec dev ubuf count pos Hsize HposS Hcount) as (_ & Hwr).
  cbv zeta in Hwr. destruct (Hwr (proj2 Hpos)) as [Hok _].
  destruct (Hok Hubuf) as (Hret & Hp & Hsz & Hbuf). fold n in Hret, Hp, Hsz, Hbuf.
  set (w := schar_write dev ubuf count pos) in *.
  assert (Hseek : simple_llseek (dev_after w) (pos_after w) pos SEEK_SET
                  = {| ret := pos; dev_after := dev_after w; pos_after := pos;
                       to_user := [] |}).
  { unfold simple_llseek. cbn [Z.eqb SEEK_SET]. zbool. reflexivity. }
  rewrite Hseek. cbn [ret dev_after pos_after].
  assert (Hsize' : 0 <= size (dev_after w) <= BUFFER_SIZE) by lia.
  assert (HnU : 0 <= n <= U64_MAX) by (unfold U64_MAX, BUFFER_SIZE in *; lia).
  destruct (schar_read_spec (dev_after w) uaccess n pos Hsize' HposS HnU)
    as (_ & Heof & Hrd).
  cbv zeta in Hrd.
  destruct (Z.lt_ge_cases pos (size (dev_after w))) as [Hlt|Hge].
  - destruct (Hrd Hlt) as [Hgood _].
    replace (Z.min n (size (dev_after w) - pos)) with n in Hgood by lia.
    destruct (Hgood Hua) as (Hr & Hpr & Hu).
    split_and!; [exact Hret | reflexivity | exact Hr | | exact Hpr].
    rewrite Hu, Hbuf.
    replace n with (Z.of_nat (length (take (Z.to_nat n) ubuf))) at 2
      by (rewrite length_take; lia).
    apply buffer_read_write; [lia | rewrite Hlen; unfold BUFFER_SIZE in *; lia].
  - destruct (Heof ltac:(lia)) as (Hr & Hpr & Hu).
    assert (n = 0) by lia.
    split_and!; [exact Hret | reflexivity | lia | | lia].
    rewrite Hu. replace (Z.to_nat n) with 0%nat by lia. reflexivity.
Qed.

Lemma X6_witness :
  let n := Z.min 3 (BUFFER_SIZE - 4094) in
  let w := schar_write four_bytes [x07; x08; x09] 3 4094 in
  let s := simple_llseek (dev_after w) (pos_after w) 4094 SEEK_SET in
  let r := schar_read (dev_after s) 16 n (pos_after s) in
  ret w = n /\ ret s = 4094 /\ ret r = n /\
  to_user r = take (Z.to_nat n) [x07; x08; x09] /\ pos_after r = 4094 + n.
Proof.
  apply (X6_write_seek_read_round_trip four_bytes [x07; x08; x09] 3 4094 16).
  - reflexivity.
  - vm_compute. split; discriminate.
  - vm_compute. split; [discriminate|reflexivity].
  - vm_compute. split; discriminate.
  - vm_compute. discriminate.
  - vm_compute. discriminate.
Defined.

Lemma take_add_drop {A} (a b : nat) : forall l : list A,
  take (a + b) l = take a l ++ take b (drop a l).
Proof.
  induction a as [|a IH]; intros [|x l]; cbn [take drop Nat.add app].
  - rewrite take_nil. reflexivity.
  - reflexivity.
  - rewrite take_nil. reflexivity.
  - rewrite IH. reflexivity.
Qed.

Lemma buffer_read_split buf pos n1 n2 :
  0 <= pos -> 0 <= n1 -> 0 <= n2 ->
  buffer_read buf pos (n1 + n2)
  = buffer_read buf pos n1 ++ buffer_read buf (pos + n1) n2.
Proof.
  intros Hpos H1 H2. unfold buffer_read.
  rewrite !Z2Nat.inj_add by lia.
  rewrite take_add_drop, drop_drop. reflexivity.
Qed.

(** X7: reading in two pieces returns what one read returns.  A read of
    [c1] bytes followed by a read of [c2] bytes from where the first
    stopped hands over, in total, the same bytes as one read of
    [c1 + c2] bytes from the starting position, returns the same total
    and leaves the same position, provided each caller's buffer takes
    what is asked for. *)
Theorem X7_split_read_equals_whole_read dev pos c1 c2 ua1 ua2 ua :
  0 <= size dev <= BUFFER_SIZE -> 0 <= pos <= S64_MAX ->
  0 <= c1 -> 0 <= c2 -> c1 + c2 <= U64_MAX ->
  c1 <= ua1 -> c2 <= ua2 -> c1 + c2 <= ua ->
  let r1 := schar_read dev ua1 c1 pos in
  let r2 := schar_read dev ua2 c2 (pos_after r1) in
  let r := schar_read dev ua (c1 + c2) pos in
  ret r = ret r1 + ret r2 /\
  to_user r = to_user r1 ++ to_user r2 /\
  pos_after r = pos_after r2.
Proof.
  intros Hsize Hpos H1 H2 Hsum Hua1 Hua2 Hua. cbv zeta.
  destruct (schar_read_spec dev ua1 c1 pos Hsize Hpos ltac:(lia)) as (_ & Heof1 & Hrd1).
  destruct (schar_read_spec dev ua (c1 + c2) pos Hsize Hpos ltac:(lia))
    as (_ & Heof & Hrd).
  cbv zeta in *.
  destruct (Z.lt_ge_cases pos (size dev)) as [Hlt|Hge].
  - destruct (Hrd1 Hlt) as [Hgood1 _]. destruct (Hgood1 ltac:(lia)) as (Hr1 & Hp1 & Hu1).
    destruct (Hrd Hlt) as [Hgood _]. destruct (Hgood ltac:(lia)) as (Hr & Hp & Hu).
    set (n1 := Z.min c1 (size dev - pos)) in *.
    rewrite Hp1.
    assert (Hpos2 : 0 <= pos + n1 <= S64_MAX) by (unfold S64_MAX, BUFFER_SIZE in *; lia).
    destruct (schar_read_spec dev ua2 c2 (pos + n1) Hsize Hpos2 ltac:(lia))
      as (_ & Heof2 & Hrd2).
    cbv zeta in *.
    destruct (Z.lt_ge_cases (pos + n1) (size dev)) as [Hlt2|Hge2].
    + destruct (Hrd2 Hlt2) as [Hgood2 _].
      destruct (Hgood2 ltac:(lia)) as (Hr2 & Hp2 & Hu2).
      set (n2 := Z.min c2 (size dev - (pos + n1))) in *.
      assert (Hn : Z.min (c1 + c2) (size dev - pos) = n1 + n2) by lia.
      rewrite Hr, Hr1, Hr2, Hu, Hu1, Hu2, Hp, Hp2, Hn.
      split_and!; [reflexivity | | lia].
      apply buffer_read_split; lia.
    + destruct (Heof2 ltac:(lia)) as (Hr2 & Hp2 & Hu2).
      assert (Hn : Z.min (c1 + c2) (size dev - pos) = n1) by lia.
      rewrite Hr, Hr1, Hr2, Hu, Hu1, Hu2, Hp, Hp2, Hn, app_nil_r.
      split_and!; [lia | reflexivity | reflexivity].
  - destruct (Heof1 ltac:(lia)) as (Hr1 & Hp1 & Hu1).
    destruct (Heof ltac:(lia)) as (Hr & Hp & Hu).
    rewrite Hp1.
    destruct (schar_read_spec dev ua2 c2 pos Hsize Hpos ltac:(lia)) as (_ & Heof2 & _).
    destruct (Heof2 ltac:(lia)) as (Hr2 & Hp2 & Hu2).
    rewrite Hr, Hr1, Hr2, Hu, Hu1, Hu2, Hp, Hp2.
    split_and!; reflexivity.
Qed.

Lemma X7_witness :
  let r1 := schar_read four_bytes 8 1 1 in
  let r2 := schar_read four_bytes 8 5 (pos_after r1) in
  let r := schar_read four_bytes 8 (1 + 5) 1 in
  ret r = ret r1 + ret r2 /\
  to_user r = to_user r1 ++ to_user r2 /\
  pos_after r = pos_after r2.
Proof.
  apply (X7_split_read_equals_whole_read four_bytes 1 1 5 8 8 8).
  - vm_compute. split; discriminate.
  - vm_compute. split; discriminate.
  - lia.
  - lia.
  - vm_compute. discriminate.
  - lia.
  - lia.
  - lia.
Defined.

(** ** A write that faults *)

(** X8: a write that faults is not a no-op.  It returns [-EFAULT] with
    [size] and the position unchanged, but the [n] bytes at [pos] have
    been overwritten with the bytes that could be read from the caller
    followed by zeros: when that range was valid data, a read of it
    afterwards returns those bytes and not what was stored before. *)
Theorem X8_faulting_write_overwrites dev ubuf count pos uaccess :
  length (buffer dev) = Z.to_nat BUFFER_SIZE ->
  0 <= size dev <= BUFFER_SIZE -> 0 <= pos -> 0 <= count <= U64_MAX ->
  pos + Z.min count (BUFFER_SIZE - pos) <= size dev ->
  Z.of_nat (length ubuf) < Z.min count (BUFFER_SIZE - pos) ->
  Z.min count (BUFFER_SIZE - pos) <= uaccess ->
  let n := Z.min count (BUFFER_SIZE - pos) in
  let w := schar_write dev ubuf count pos in
  let r := schar_read (dev_after w) uaccess n (pos_after w) in
  ret w = - EFAULT /\ size (dev_after w) = size dev /\ pos_after w = pos /\
  ret r = n /\
  to_user r = ubuf ++ repeat x00 (Z.to_nat n - length ubuf).
Proof.
  intros Hlen Hsize Hpos Hcount Hvalid Hfault Hua. cbv zeta.
  set (n := Z.min count (BUFFER_SIZE - pos)) in *.
  assert (Hn : 0 < n <= BUFFER_SIZE) by (unfold BUFFER_SIZE in *; lia).
  assert (Hlt : pos < BUFFER_SIZE) by lia.
  assert (HposS : 0 <= pos <= S64_MAX) by (unfold BUFFER_SIZE, S64_MAX in *; lia).
  destruct (schar_write_spec dev ubuf count pos Hsize HposS Hcount) as (_ & Hwr).
  cbv zeta in Hwr. destruct (Hwr Hlt) as [_ Hbad].
  destruct (Hbad Hfault) as (Hret & Hp & Hsz & Hbuf). fold n in Hbuf.
  set (w := schar_write dev ubuf count pos) in *.
  rewrite Hp.
  assert (Hsize' : 0 <= size (dev_after w) <= BUFFER_SIZE) by lia.
  assert (HnU : 0 <= n <= U64_MAX) by (unfold U64_MAX, BUFFER_SIZE in *; lia).
  destruct (schar_read_spec (dev_after w) uaccess n pos Hsize' HposS HnU)
    as (_ & _ & Hrd).
  cbv zeta in Hrd. destruct (Hrd ltac:(lia)) as [Hgood _].
  replace (Z.min n (size (dev_after w) - pos)) with n in Hgood by lia.
  destruct (Hgood Hua) as (Hr & _ & Hu).
  split_and!; [exact Hret | exact Hsz | reflexivity | exact Hr | ].
  rewrite Hu, Hbuf. fold (copy_from_user_fault ubuf n).
  replace n with (Z.of_nat (length (copy_from_user_fault ubuf n))) at 2
    by (rewrite copy_from_user_fault_length; lia).
  apply buffer_read_write; [lia | rewrite Hlen; unfold BUFFER_SIZE in *; lia].
Qed.

Lemma X8_witness :
  let n := Z.min 3 (BUFFER_SIZE - 1) in
  let w := schar_write four_bytes [x09] 3 1 in
  let r := schar_read (dev_after w) 8 n (pos_after w) in
  ret w = - EFAULT /\ size (dev_after w) = size four_bytes /\ pos_after w = 1 /\
  ret r = n /\
  to_user r = [x09] ++ repeat x00 (Z.to_nat n - length [x09]).
Proof.
  apply (X8_faulting_write_overwrites four_bytes [x09] 3 1 8).
  - reflexivity.
  - vm_compute. split; discriminate.
  - lia.
  - vm_compute. split; discriminate.
  - vm_compute. discriminate.
  - vm_compute. reflexivity.
  - vm_compute. discriminate.
Defined.

(** X9: a write touches only its own range.  Whether it succeeds,
    faults or finds no space, [schar_write] leaves the buffer at its
    length and changes no byte before [pos] or from [pos + n] on, where
    [n = min(count, 4096 - pos)] is the number of bytes it was to
    store. *)
Theorem X9_write_changes_only_its_range dev ubuf count pos i :
  length (buffer dev) = Z.to_nat BUFFER_SIZE ->
  0 <= size dev <= BUFFER_SIZE -> 0 <= pos <= S64_MAX -> 0 <= count <= U64_MAX ->
  0 <= i -> i < pos \/ pos + Z.min count (BUFFER_SIZE - pos) <= i ->
  let w := schar_write dev ubuf count pos in
  length (buffer (dev_after w)) = Z.to_nat BUFFER_SIZE /\
  buffer (dev_after w) !! Z.to_nat i = buffer dev !! Z.to_nat i.
Proof.
  intros Hlen Hsize Hpos Hcount Hi Hout. cbv zeta.
  destruct (schar_write_spec dev ubuf count pos Hsize Hpos Hcount) as (Hfull & Hwr).
  cbv zeta in Hwr.
  destruct (Z.lt_ge_cases pos BUFFER_SIZE) as [Hlt|Hge].
  - set (n := Z.min count (BUFFER_SIZE - pos)) in *.
    assert (Hn : 0 <= n <= BUFFER_SIZE - pos) by lia.
    destruct (Hwr Hlt) as [Hok Hbad].
    assert (Hbw : forall bytes, length bytes = Z.to_nat n ->
              length (buffer_write (buffer dev) pos bytes) = Z.to_nat BUFFER_SIZE /\
              buffer_write (buffer dev) pos bytes !! Z.to_nat i
              = buffer dev !! Z.to_nat i).
    { intros bytes Hb. split.
      - rewrite buffer_write_length; [exact Hlen | lia | rewrite Hlen, Hb; lia].
      - apply buffer_write_lookup; [lia | rewrite Hlen, Hb; lia | rewrite Hb; lia]. }
    destruct (Z.lt_ge_cases (Z.of_nat (length ubuf)) n) as [Hf|Hg].
    + destruct (Hbad Hf) as (_ & _ & _ & ->). apply Hbw.
      pose proof (copy_from_user_fault_length ubuf n Hf). lia.
    + destruct (Hok ltac:(lia)) as (_ & _ & _ & ->). apply Hbw.
      rewrite length_take. lia.
  - destruct (Hfull Hge) as (_ & -> & _). split; [exact Hlen | reflexivity].
Qed.

Lemma X9_witness :
  let w := schar_write four_bytes [x09] 3 1 in
  length (buffer (dev_after w)) = Z.to_nat BUFFER_SIZE /\
  buffer (dev_after w) !! Z.to_nat 0 = buffer four_bytes !! Z.to_nat 0.
Proof.
  apply (X9_write_changes_only_its_range four_bytes [x09] 3 1 0).
  - reflexivity.
  - vm_compute. split; discriminate.
  - vm_compute. split; discriminate.
  - vm_compute. split; discriminate.
  - lia.
  - left. lia.
Defined.

End SimpleCharProofs.

(** ** threaded_irq_demo *)

Module ThreadedIrqProofs.
Import CInt CIntFacts Errno ThreadedIrq.

Lemma data_show_lines_spec d count n : forall from,
  length (data_buffer d) = Z.to_nat BUFFER_SIZE ->
  0 <= data_head d < BUFFER_SIZE -> 0 <= count <= BUFFER_SIZE -> 0 <= from ->
  from + Z.of_nat n <= count ->
  data_show_lines d count from n
  = Some (map (fun i =>
                 (from + Z.of_nat i,
                  default 0 (data_buffer d
                    !! Z.to_nat ((data_head d - count + (from + Z.of_nat i) + 64) mod 64))))
              (seq 0 n)).
Proof.
  unfold BUFFER_SIZE.
  induction n as [|n IH]; intros from Hlen Hhead Hcount Hfrom Hn; [reflexivity|].
  cbn [data_show_lines]. unfold BUFFER_SIZE.
  rewrite s32_small by lia. rewrite Z.rem_mod_nonneg by lia.
  assert (Hidx : 0 <= (data_head d - count + from + 64) mod 64 < 64)
    by (apply Z.mod_pos_bound; lia).
  unfold buffer_load. zbool.
  destruct (lookup_lt_is_Some_2 (data_buffer d)
              (Z.to_nat ((data_head d - count + from + 64) mod 64))) as [v Hv]; [lia|].
  rewrite Hv. rewrite IH by lia.
  cbn [seq map]. rewrite <- seq_shift, map_map.
  f_equal. f_equal.
  - replace (from + Z.of_nat 0) with from by lia. rewrite Hv. reflexivity.
  - apply map_ext. intros i.
    replace (from + Z.of_nat (S i)) with (from + 1 + Z.of_nat i) by lia. reflexivity.
Qed.

Lemma data_show_spec d :
  ring_inv d ->
  data_show d
  = Some (0, data_count d,
          map (fun i => (Z.of_nat i,
                 default 0 (data_buffer d
                   !! Z.to_nat ((data_head d - data_count d + Z.of_nat i + 64) mod 64))))
              (seq 0 (Z.to_nat (data_count d))),
          d).
Proof.
  intros (Hlen & Hcount & Hhead & Hmutex).
  unfold data_show, mutex_lock. rewrite Hmutex.
  cbn [set_data_mutex data_count].
  rewrite (data_show_lines_spec _ (data_count d) (Z.to_nat (data_count d)) 0);
    cbn [set_data_mutex data_buffer data_head]; try lia; try assumption.
  assert (Hd : mutex_unlock (set_data_mutex true d) = d).
  { destruct d. unfold mutex_unlock, set_data_mutex. cbn in *. congruence. }
  rewrite Hd. reflexivity.
Qed.

Lemma entries_spec d :
  ring_inv d ->
  entries d = Some (ring_values (data_buffer d) (data_head d) (data_count d)).
Proof.
  intros Hinv. unfold entries. rewrite (data_show_spec d Hinv).
  unfold ring_values. rewrite map_map. reflexivity.
Qed.



(** [demo_thread_handler] on a well-formed ring. *)
Lemma demo_thread_handler_spec now d :
  ring_inv d ->
  exists d',
    demo_thread_handler now d = Some (IRQ_HANDLED, d') /\
    data_buffer d' = <[Z.to_nat (data_head d) := hw_data d]> (data_buffer d) /\
    data_head d' = (data_head d + 1) mod 64 /\
    data_count d' = Z.min (data_count d + 1) 64 /\
    data_mutex d' = false /\
    hw_data d' = hw_data d /\ pending_irq d' = pending_irq d /\
    timer d' = timer d /\ running d' = running d /\ interval_ms d' = interval_ms d.
Proof.
  unfold ring_inv, BUFFER_SIZE. intros (Hlen & Hcount & Hhead & Hmutex).
  unfold demo_thread_handler, mutex_lock. cbv zeta.
  cbn [set_stats data_mutex]. rewrite Hmutex.
  cbn [set_data_mutex set_stats data_buffer data_head hw_data data_count].
  unfold buffer_store. rewrite Hlen. zbool. cbn [andb].
  eexists. split; [reflexivity|].
  unfold mutex_unlock, BUFFER_SIZE. cbn.
  rewrite s32_small by lia. rewrite Z.rem_mod_nonneg by lia.
  split_and!; try reflexivity.
  destruct (Z.lt_ge_cases (data_count d) 64); zbool; [rewrite s32_small by lia|]; lia.
Qed.

Lemma demo_thread_handler_inv now d :
  ring_inv d ->
  exists d', demo_thread_handler now d = Some (IRQ_HANDLED, d') /\ ring_inv d'.
Proof.
  intros Hinv.
  destruct (demo_thread_handler_spec now d Hinv)
    as (d' & Hrun & Hbuf & Hhead & Hcount & Hmutex & _).
  exists d'. split; [exact Hrun|].
  destruct Hinv as (Hlen & Hc & Hh & Hm). unfold ring_inv, BUFFER_SIZE in *.
  rewrite Hbuf, Hhead, Hcount, Hmutex, length_insert.
  split_and!; try lia; try reflexivity.
  - apply Z.mod_pos_bound. lia.
  - apply Z.mod_pos_bound. lia.
Qed.

Section ControlFacts.
Variable kstrtouint : list ascii -> option Z.





End ControlFacts.

(** ** The ring buffer *)



Lemma full_ring_inv : ring_inv full_ring.
Proof. unfold ring_inv. cbn. split_and!; try reflexivity; lia. Qed.



(** With the mutex of the full ring held elsewhere, the handler, the
    dump and the reset wait, and the statistics file reports the 64
    entries. *)
Example full_ring_mutex_held :
  let held := set_data_mutex true full_ring in
  demo_thread_handler 0 held = None /\
  data_show held = None /\
  control_write kstrtouint_dec (list_ascii_of_string "reset") 5 held = None /\
  rep_data (snd (stats_show held)) = 64.
Proof. vm_compute. auto. Qed.

(** On the full ring, the handler overwrites the oldest entry, 0. *)
Example full_ring_overwrite :
  entries full_ring = Some (map Z.of_nat (seq 0 64)) /\
  match demo_thread_handler 0 full_ring with
  | Some (_, d') => entries d' = Some (map Z.of_nat (seq 1 63) ++ [48879])
  | None => False
  end.
Proof. split; vm_compute; reflexivity. Qed.

Example control_reset_full_ring :
  match control_write kstrtouint_dec
          (list_ascii_of_string "reset" ++ ["010"%char]) 6 full_ring with
  | Some (r, d') => r = 6 /\ data_count d' = 0 /\ data_head d' = 0 /\ entries d' = Some []
  | None => False
  end.
Proof. vm_compute. auto. Qed.

(** ** Probe, quiescence and remove *)

Lemma quiescent_ring_inv d : quiescent d -> ring_inv d.
Proof.
  unfold quiescent, ring_inv, BUFFER_SIZE.
  intros (_ & _ & _ & _ & _ & -> & -> & -> & Hlen). split_and!; auto; lia.
Qed.

Section QuiescentFacts.
Variable kstrtouint : list ascii -> option Z.

(** While no [start] command is written, nothing takes the device out of
    its quiescent state. *)
Lemma dev_step_quiescent ev d :
  quiescent d -> is_start ev = false ->
  exists d', dev_step kstrtouint ev d = Some d' /\ quiescent d'.
Proof.
  intros Hq Hns. pose proof Hq as (Hrun & Htimer & Hpend & Hhard & Hthr & Hc & Hh & Hm & Hlen).
  destruct ev as [rnd now|now|ubuf count| |]; cbn [dev_step].
  - exists d. unfold timer_expiry. rewrite Htimer. auto.
  - unfold irq_line, demo_hardirq. rewrite Hpend. cbn [Z.eqb].
    eexists. split; [reflexivity|]. unfold quiescent. cbn. auto 10.
  - cbn [is_start] in Hns. unfold control_write. cbv zeta.
    set (len := if count <? 31 then count else 31) in *.
    destruct (Z.lt_ge_cases (Z.of_nat (length ubuf)) len) as [Hf|Hok]; zbool.
    { exists d. auto. }
    rewrite (proj2 (Z.leb_le _ _)) in Hns by lia. cbn [andb] in Hns. rewrite Hns.
    destruct (strcmp_eq _ "stop").
    { eexists. split; [reflexivity|]. unfold quiescent. cbn. auto 10. }
    destruct (strcmp_eq _ "reset").
    { unfold mutex_lock. cbn [set_stats data_mutex]. rewrite Hm.
      eexists. split; [reflexivity|]. unfold quiescent. cbn. auto 10. }
    destruct (strncmp_eq _ "interval " 9); [|exists d; auto].
    destruct (kstrtouint _) as [interval|]; [|exists d; auto].
    destruct (interval >? 0); [|exists d; auto].
    eexists. split; [reflexivity|]. unfold quiescent. cbn. auto 10.
  - rewrite (data_show_spec d (quiescent_ring_inv d Hq)). exists d. auto.
  - exists d. auto.
Qed.

Lemma dev_run_quiescent evs : forall d,
  quiescent d -> forallb (fun ev => negb (is_start ev)) evs = true ->
  exists d', dev_run kstrtouint evs d = Some d' /\ quiescent d'.
Proof.
  induction evs as [|ev evs IH]; intros d Hq Hns.
  - exists d. auto.
  - cbn [forallb] in Hns. apply andb_true_iff in Hns. destruct Hns as [Hev Hevs].
    apply negb_true_iff in Hev.
    destruct (dev_step_quiescent ev d Hq Hev) as (d1 & Hstep & Hq1).
    cbn [dev_run]. rewrite Hstep. apply IH; assumption.
Qed.

End QuiescentFacts.

(** C10: [demo_probe] succeeds exactly when its allocation does, and then
    leaves a device that is not running, with an interval of 100 ms, no
    pending interrupt, the hardirq, thread and spurious counters at zero,
    an empty data buffer and no pending timer.  From that state no
    sequence of timer expiries, interrupt dispatches, data dumps and
    control writes other than [start] produces a simulated interrupt:
    the device stays not running, the timer stays idle and no interrupt
    is pending or counted.  The [start] command arms the timer, whose
    expiry then raises the simulated interrupt.  [demo_remove], on any
    bound device, sets [running] to false and leaves the timer idle. *)
Theorem C10_probe_quiescent_remove_stops
    (kstrtouint : list ascii -> option Z) (mkdir_ok : bool) (m : demo_module) :
  (forall alloc_ok, fst (demo_probe alloc_ok mkdir_ok m) = 0 <-> alloc_ok = true) /\
  (exists dev m',
     demo_probe true mkdir_ok m = (0, m') /\
     drvdata m' = Some dev /\ demo_dev m' = true /\
     running dev = false /\ interval_ms dev = 100 /\ pending_irq dev = 0 /\
     hardirq_count dev = 0 /\ thread_count dev = 0 /\ spurious_count dev = 0 /\
     data_count dev = 0 /\ entries dev = Some [] /\ timer dev = None /\
     (forall evs, forallb (fun ev => negb (is_start ev)) evs = true ->
        exists dev', dev_run kstrtouint evs dev = Some dev' /\
          running dev' = false /\ timer dev' = None /\ pending_irq dev' = 0 /\
          hardirq_count dev' = 0 /\ thread_count dev' = 0 /\ entries dev' = Some []) /\
     (forall ubuf count rnd now, is_start (ControlWrite ubuf count) = true ->
        exists dev', dev_step kstrtouint (ControlWrite ubuf count) dev = Some dev' /\
          running dev' = true /\ timer dev' = Some 100 /\
          pending_irq (timer_expiry rnd now dev') = 1)) /\
  (forall bound dev, drvdata bound = Some dev ->
     exists dev' m',
       demo_remove bound = Some (0, m') /\
       drvdata m' = Some dev' /\ demo_dev m' = false /\
       running dev' = false /\ timer dev' = None /\
       (forall rnd now, timer_expiry rnd now dev' = dev')).
Proof.
  split_and!.
  - intros [|]; cbn; split; intros H; try reflexivity; discriminate H.
  - eexists _, _. split; [reflexivity|]. cbn [drvdata demo_dev].
    set (dev := {| timer := None; pending_irq := 0 |}).
    assert (Hq : quiescent dev) by (unfold quiescent; cbn; auto 10).
    split_and!; try reflexivity.
    + intros evs Hns.
      destruct (dev_run_quiescent kstrtouint evs dev Hq Hns) as (dev' & Hrun & Hq').
      exists dev'. pose proof Hq' as (? & ? & ? & ? & ? & Hc & ? & ? & ?).
      split_and!; try assumption.
      rewrite (entries_spec dev' (quiescent_ring_inv dev' Hq')).
      unfold ring_values. rewrite Hc. reflexivity.
    + intros ubuf count rnd now Hstart. cbn [is_start] in Hstart.
      apply andb_true_iff in Hstart. destruct Hstart as [Hacc Hcmd].
      cbn [dev_step]. unfold control_write. cbv zeta.
      rewrite Z.gtb_ltb. rewrite (proj2 (Z.ltb_ge _ _)) by lia.
      rewrite Hcmd. cbn. eexists. split; [reflexivity|]. cbn. auto.
  - intros bound dev Hdev. unfold demo_remove. rewrite Hdev.
    eexists _, _. split; [reflexivity|]. cbn. split_and!; reflexivity.
Qed.

Lemma C10_witness :
  exists dev' m',
    demo_remove (snd (demo_probe true true demo_unbound)) = Some (0, m') /\
    drvdata m' = Some dev' /\ demo_dev m' = false /\
    running dev' = false /\ timer dev' = None /\
    (forall rnd now, timer_expiry rnd now dev' = dev').
Proof.
  eapply (proj2 (proj2 (C10_probe_quiescent_remove_stops kstrtouint_dec true demo_unbound))).
  reflexivity.
Defined.

(** After a successful probe followed by [start], the first timer expiry
    latches the low 16 bits of the random value and re-arms the timer. *)
Example start_then_expiry :
  let dev := match drvdata (snd (demo_probe true true demo_unbound)) with
             | Some d => d
             | None => full_ring
             end in
  match control_write kstrtouint_dec (list_ascii_of_string "start") 5 dev with
  | Some (r, d1) =>
      r = 5 /\
      let d2 := timer_expiry 305419896 7 d1 in
      pending_irq d2 = 1 /\ hw_data d2 = 22136 /\ timer d2 = Some 100
  | None => False
  end.
Proof. vm_compute. auto. Qed.

(** ** What one event does *)

(** The threaded handler counts itself and leaves the control fields
    and the hardirq counter alone. *)
Lemma demo_thread_handler_counts now d :
  ring_inv d ->
  exists d',
    demo_thread_handler now d = Some (IRQ_HANDLED, d') /\
    thread_count d' = s32 (thread_count d + 1) /\
    hardirq_count d' = hardirq_count d /\
    spurious_count d' = spurious_count d /\
    data_buffer d' = <[Z.to_nat (data_head d) := hw_data d]> (data_buffer d) /\
    hw_data d' = hw_data d /\ pending_irq d' = pending_irq d /\
    timer d' = timer d /\ running d' = running d /\ interval_ms d' = interval_ms d.
Proof.
  unfold ring_inv, BUFFER_SIZE. intros (Hlen & Hcount & Hhead & Hmutex).
  unfold demo_thread_handler, mutex_lock. cbv zeta.
  cbn [set_stats data_mutex]. rewrite Hmutex.
  cbn [set_data_mutex set_stats data_buffer data_head hw_data data_count].
  unfold buffer_store. rewrite Hlen. zbool. cbn [andb].
  eexists. split; [reflexivity|].
  unfold mutex_unlock. cbn. split_and!; reflexivity.
Qed.

Section EventFacts.
Variable kstrtouint : list ascii -> option Z.

(** One event on a well-formed device: what it can do to the control
    fields, to the two interrupt counters, and to the samples. *)
Lemma dev_step_effect ev d :
  ring_inv d ->
  exists d',
    dev_step kstrtouint ev d = Some d' /\ ring_inv d' /\
    ((running d' = running d /\ timer d' = timer d /\ interval_ms d' = interval_ms d) \/
     (running d' = true /\ timer d' = Some (interval_ms d) /\
      interval_ms d' = interval_ms d) \/
     (running d' = false /\ timer d' = None /\ interval_ms d' = interval_ms d) \/
     (running d' = running d /\ timer d' = timer d /\ 0 < interval_ms d')) /\
    ((hardirq_count d' = hardirq_count d /\ thread_count d' = thread_count d) \/
     (hardirq_count d' = s32 (hardirq_count d + 1) /\
      thread_count d' = s32 (thread_count d + 1)) \/
     (hardirq_count d' = 0 /\ thread_count d' = 0)) /\
    (hw_data d' = hw_data d \/ 0 <= hw_data d' < 65536) /\
    (data_buffer d' = data_buffer d \/
     data_buffer d' = <[Z.to_nat (data_head d) := hw_data d]> (data_buffer d)).
Proof.
  intros Hinv. pose proof Hinv as (Hlen & Hc & Hh & Hm).
  destruct ev as [rnd now|now|ubuf count| |]; cbn [dev_step].
  - eexists. split; [reflexivity|].
    unfold timer_expiry, trigger_simulated_irq.
    destruct (timer d) as [ms|] eqn:Ht; [|rewrite Ht; tauto].
    cbn [set_timer running]. destruct (running d) eqn:Hr; cbn [negb].
    + split; [exact Hinv|]. cbn. rewrite Hr.
      split_and!; [right; left; auto | left; auto | right | left; reflexivity].
      rewrite Z.land_ones with (n := 16) by lia.
      apply Z.mod_pos_bound. lia.
    + split; [exact Hinv|]. cbn. rewrite Hr.
      split_and!; [right; right; left; auto | left; auto | left; auto | left; auto].
  - unfold irq_line, demo_hardirq.
    destruct (pending_irq d =? 0).
    + eexists. split; [reflexivity|]. split; [exact Hinv|]. cbn. tauto.
    + match goal with
      | |- context [demo_thread_handler now ?d1] =>
          destruct (demo_thread_handler_counts now d1 Hinv)
            as (d2 & Hrun & Hth & Hhard & _ & Hbuf & Hhw & _ & Htm & Hrn & Hiv);
          destruct (demo_thread_handler_inv now d1 Hinv) as (d3 & Hrun3 & Hinv3);
          rewrite Hrun in Hrun3; injection Hrun3 as <-;
          rewrite Hrun
      end.
      exists d2. split; [reflexivity|]. split; [exact Hinv3|].
      cbn in Hth, Hhard, Hbuf, Hhw, Htm, Hrn, Hiv.
      rewrite Hth, Hhard, Hbuf, Hhw, Htm, Hrn, Hiv.
      split_and!; [left; auto | right; left; auto | left; auto | right; auto].
  - unfold control_write. cbv zeta.
    destruct (_ >? _);
      [eexists; split; [reflexivity|]; split; [exact Hinv|tauto]|].
    destruct (strcmp_eq _ "start").
    { destruct (running d) eqn:Hr; cbn [negb];
        (eexists; split; [reflexivity|]).
      - split; [exact Hinv|tauto].
      - split; [unfold ring_inv; cbn; auto|]. cbn.
        split_and!; [right; left; auto | left; auto | left; auto | left; auto]. }
    destruct (strcmp_eq _ "stop").
    { eexists. split; [reflexivity|]. split; [unfold ring_inv; cbn; auto|]. cbn.
      split_and!; [right; right; left; auto | left; auto | left; auto | left; auto]. }
    destruct (strcmp_eq _ "reset").
    { unfold mutex_lock. cbn [set_stats data_mutex]. rewrite Hm.
      eexists. split; [reflexivity|].
      split; [unfold ring_inv, BUFFER_SIZE in *; cbn; split_and!; auto; lia|]. cbn.
      split_and!; [left; auto | right; right; auto | left; auto | left; auto]. }
    destruct (strncmp_eq _ "interval " 9);
      [|eexists; split; [reflexivity|]; split; [exact Hinv|tauto]].
    destruct (kstrtouint _) as [interval|];
      [|eexists; split; [reflexivity|]; split; [exact Hinv|tauto]].
    destruct (Z.lt_ge_cases 0 interval); zbool;
      (eexists; split; [reflexivity|]); [|split; [exact Hinv|tauto]].
    split; [unfold ring_inv; cbn; auto|]. cbn.
    split_and!; [right; right; right; auto | left; auto | left; auto | left; auto].
  - rewrite (data_show_spec d Hinv). exists d. split; [reflexivity|].
    split; [exact Hinv|tauto].
  - exists d. split; [reflexivity|]. split; [exact Hinv|tauto].
Qed.



Lemma dev_run_sample_inv evs : forall d,
  ring_inv d -> sample_inv d ->
  exists d', dev_run kstrtouint evs d = Some d' /\ ring_inv d' /\ sample_inv d'.
Proof.
  induction evs as [|ev evs IH]; intros d Hinv [Hhw Hbuf].
  - exists d. unfold sample_inv. auto.
  - destruct (dev_step_effect ev d Hinv) as (d1 & Hstep & Hinv1 & _ & _ & Hhw1 & Hbuf1).
    cbn [dev_run]. rewrite Hstep. apply IH; [exact Hinv1|].
    split.
    + destruct Hhw1 as [->|H]; assumption.
    + destruct Hbuf1 as [->| ->]; [exact Hbuf|].
      apply Forall_insert; assumption.
Qed.

End EventFacts.

Lemma ring_values_Forall (P : Z -> Prop) buf head count :
  P 0 -> Forall P buf -> Forall P (ring_values buf head count).
Proof.
  intros H0 Hbuf. unfold ring_values. apply Forall_forall. intros v Hv.
  apply list_elem_of_In, in_map_iff in Hv. destruct Hv as (i & <- & _).
  destruct (buf !! _) as [x|] eqn:E; cbn [default]; [|exact H0].
  rewrite Forall_lookup in Hbuf. exact (Hbuf _ _ E).
Qed.


Lemma full_ring_sample_inv : sample_inv full_ring.
Proof.
  unfold sample_inv. split; [cbn; lia|].
  apply Forall_forall. intros v Hv. cbn [full_ring data_buffer] in Hv.
  apply list_elem_of_In, in_map_iff in Hv. destruct Hv as (i & <- & Hi).
  apply in_seq in Hi.
  zmod.
Qed.

(** ** The timer and the running flag *)



(** ** The samples *)

(** X20: every sample is a 16-bit value.  The timer callback masks the
    random word with 0xFFFF before the handlers see it, so from a
    well-formed device whose register and buffer hold 16-bit values, as
    after [demo_probe], every sequence of events leaves only 16-bit
    values in the register and the buffer, and every entry that
    [data_show] prints lies between 0 and 65535. *)
Theorem X20_samples_are_16_bit
    (kstrtouint : list ascii -> option Z) evs d :
  ring_inv d -> sample_inv d ->
  exists d' shown,
    dev_run kstrtouint evs d = Some d' /\
    sample_inv d' /\
    entries d' = Some shown /\
    Forall (fun v => 0 <= v < 65536) shown.
Proof.
  intros Hinv Hs.
  destruct (dev_run_sample_inv kstrtouint evs d Hinv Hs) as (d' & Hrun & Hinv' & Hs').
  exists d', (ring_values (data_buffer d') (data_head d') (data_count d')).
  split_and!; [exact Hrun | exact Hs' | apply entries_spec; exact Hinv' | ].
  apply ring_values_Forall; [lia | exact (proj2 Hs')].
Qed.

Lemma X20_witness :
  exists d' shown,
    dev_run kstrtouint_dec
      [TimerExpiry 4294967295 1000; IrqLine 1500;
       TimerExpiry 305419896 2000; IrqLine 2100; DataShow] full_ring = Some d' /\
    sample_inv d' /\
    entries d' = Some shown /\
    Forall (fun v => 0 <= v < 65536) shown.
Proof.
  apply (X20_samples_are_16_bit kstrtouint_dec _ full_ring).
  - exact full_ring_inv.
  - exact full_ring_sample_inv.
Defined.

(** ** Commands with a trailing newline *)

Lemma control_cmd_newline s :
  control_cmd (s ++ ["010"%char]) (Z.of_nat (length s) + 1) = s.
Proof.
  unfold control_cmd.
  replace (Z.to_nat (Z.of_nat (length s) + 1)) with (length s + 1)%nat by lia.
  rewrite take_ge by (rewrite length_app; cbn; lia).
  rewrite last_snoc. change (Ascii.eqb "010" "010") with true. cbv iota.
  replace (length s + 1 - 1)%nat with (length s) by lia.
  apply take_app_length.
Qed.

Lemma control_cmd_plain s :
  last s <> Some "010"%char -> control_cmd s (Z.of_nat (length s)) = s.
Proof.
  intros Hlast. unfold control_cmd. rewrite Nat2Z.id, firstn_all.
  destruct (last s) as [c|]; [|reflexivity].
  destruct (Ascii.eqb c "010") eqn:E; [|reflexivity].
  apply Ascii.eqb_eq in E. congruence.
Qed.

(** X22: one trailing newline makes no difference to a command.  For a
    command of at most 30 bytes that does not itself end in a newline,
    writing it followed by a newline does to the device exactly what
    writing it alone does, fails with the same error when it fails, and
    otherwise returns the one byte more that was written. *)
Theorem X22_trailing_newline_ignored
    (kstrtouint : list ascii -> option Z) s d :
  (length s <= 30)%nat -> last s <> Some "010"%char ->
  control_write kstrtouint (s ++ ["010"%char]) (Z.of_nat (length s) + 1) d
  = (fun '(r, d') => (if r <? 0 then r else r + 1, d'))
      <$> control_write kstrtouint s (Z.of_nat (length s)) d.
Proof.
  intros Hlen Hlast. unfold control_write. cbv zeta.
  assert (H1 : (if Z.of_nat (length s) + 1 <? 31 then Z.of_nat (length s) + 1 else 31)
               = Z.of_nat (length s) + 1)
    by (destruct (Z.lt_ge_cases (Z.of_nat (length s) + 1) 31); zbool; lia).
  assert (H0 : (if Z.of_nat (length s) <? 31 then Z.of_nat (length s) else 31)
               = Z.of_nat (length s))
    by (destruct (Z.lt_ge_cases (Z.of_nat (length s)) 31); zbool; lia).
  rewrite H1, H0, control_cmd_newline, (control_cmd_plain s Hlast).
  rewrite length_app. cbn [length]. zbool.
  rewrite !s64_small by lia.
  assert (Hr : (Z.of_nat (length s) <? 0) = false) by (zbool; reflexivity).
  destruct (strcmp_eq s "start").
  { destruct (negb (running d)); cbn; rewrite Hr; reflexivity. }
  destruct (strcmp_eq s "stop"); [cbn; rewrite Hr; reflexivity|].
  destruct (strcmp_eq s "reset").
  { destruct (mutex_lock _) as [d2|]; [|reflexivity].
    unfold holding_mutex.
    destruct (data_mutex d2); cbn; [rewrite Hr|]; reflexivity. }
  destruct (strncmp_eq s "interval " 9); [|reflexivity].
  destruct (kstrtouint _) as [interval|]; [|cbn; rewrite Hr; reflexivity].
  destruct (interval >? 0); cbn; rewrite Hr; reflexivity.
Qed.

Lemma X22_witness :
  control_write kstrtouint_dec (list_ascii_of_string "interval 250" ++ ["010"%char])
    (Z.of_nat (length (list_ascii_of_string "interval 250")) + 1) full_ring
  = (fun '(r, d') => (if r <? 0 then r else r + 1, d'))
      <$> control_write kstrtouint_dec (list_ascii_of_string "interval 250")
            (Z.of_nat (length (list_ascii_of_string "interval 250"))) full_ring.
Proof.
  apply (X22_trailing_newline_ignored kstrtouint_dec
           (list_ascii_of_string "interval 250") full_ring).
  - vm_compute. lia.
  - vm_compute. discriminate.
Defined.

End ThreadedIrqProofs.

(** ** ioctl_device *)

Module IoctlDeviceProofs.
Import CInt CIntFacts Errno IoctlDevice.

(** ** Rejected commands *)

(** C9: a command whose type field differs from [IOCTL_MAGIC] or whose
    number exceeds [IOCTL_MAXNR] is answered with [-ENOTTY] before the
    mutex is taken, whether it is free or held, and leaves the whole
    device, [ioctl_count] and [last_error] included, as it was; a command
    that passes both checks and is none of the six defined commands
    takes the mutex, increments [ioctl_count], sets [last_error] to
    [-ENOTTY], releases the mutex and is answered with [-ENOTTY], with
    every other field unchanged. *)
Theorem C9_ioctl_rejects_unknown_commands d cmd arg :
  (_IOC_TYPE cmd <> IOCTL_MAGIC \/ _IOC_NR cmd > IOCTL_MAXNR ->
   ioctl_ioctl d cmd arg = Some (- ENOTTY, d, NoOut)) /\
  (_IOC_TYPE cmd = IOCTL_MAGIC -> _IOC_NR cmd <= IOCTL_MAXNR ->
   ~ In cmd known_commands -> lock d = false ->
   ioctl_ioctl d cmd arg
   = Some (- ENOTTY,
           set_last_error (- ENOTTY) (set_ioctl_count (u64 (ioctl_count d + 1)) d),
           NoOut)).
Proof.
  unfold ioctl_ioctl. split.
  - intros [Htype|Hnr].
    + rewrite (proj2 (Z.eqb_neq _ _) Htype). reflexivity.
    + destruct (_ =? _); cbn [negb]; [|reflexivity]. zbool. reflexivity.
  - intros Htype Hnr Hunknown Hlock.
    rewrite (proj2 (Z.eqb_eq _ _) Htype). cbn [negb]. zbool.
    unfold mutex_lock. rewrite Hlock.
    unfold ioctl_switch. cbv zeta.
    unfold known_commands in Hunknown. cbn [In] in Hunknown.
    repeat match goal with
    | |- context [cmd =? ?c] =>
        rewrite (proj2 (Z.eqb_neq cmd c)) by (intros E; apply Hunknown; auto 10)
    end.
    destruct d. cbn in Hlock. subst. reflexivity.
Qed.

Lemma C9_witness :
  ioctl_ioctl ioctl_init (_IO 88 0) no_arg = Some (- ENOTTY, ioctl_init, NoOut) /\
  ioctl_ioctl ioctl_init (_IOW IOCTL_MAGIC 0 sizeof_int) no_arg
  = Some (- ENOTTY,
          set_last_error (- ENOTTY)
            (set_ioctl_count (u64 (ioctl_count ioctl_init + 1)) ioctl_init),
          NoOut).
Proof.
  split.
  - apply (proj1 (C9_ioctl_rejects_unknown_commands ioctl_init (_IO 88 0) no_arg)).
    left. vm_compute. discriminate.
  - apply (proj2 (C9_ioctl_rejects_unknown_commands ioctl_init
                    (_IOW IOCTL_MAGIC 0 sizeof_int) no_arg)).
    + reflexivity.
    + vm_compute. discriminate.
    + vm_compute. intros H. repeat destruct H as [H|H]; try discriminate H. exact H.
    + reflexivity.
Defined.

(** The invalid command of the test program, [_IO(IOCTL_MAGIC, 99)], is
    stopped by the number check, even while another caller holds the
    mutex; a command with the right type and number but another direction
    or size reaches the default case. *)
Example ioctl_invalid_number :
  ioctl_ioctl (set_lock true ioctl_init) (_IO IOCTL_MAGIC 99) no_arg
  = Some (- ENOTTY, set_lock true ioctl_init, NoOut).
Proof. reflexivity. Qed.

Example ioctl_wrong_direction :
  match ioctl_ioctl ioctl_init (_IOW IOCTL_MAGIC 0 sizeof_int) no_arg with
  | Some (r, d', out) =>
      r = - ENOTTY /\ ioctl_count d' = 1 /\ last_error d' = - ENOTTY /\
      name d' = name ioctl_init /\ lock d' = false
  | None => False
  end.
Proof. vm_compute. auto 10. Qed.

(** The six commands of the header pass both checks. *)
Example known_commands_pass_checks :
  forallb (fun cmd => (_IOC_TYPE cmd =? IOCTL_MAGIC) && (_IOC_NR cmd <=? IOCTL_MAXNR))
          known_commands = true.
Proof. reflexivity. Qed.

(** ** The device name as a C string *)

Lemma c_str_app_zero s r : c_str (s ++ zero :: r) = c_str s.
Proof.
  induction s as [|c s IH]; cbn [c_str app].
  - reflexivity.
  - destruct (Ascii.eqb c zero); [reflexivity | rewrite IH; reflexivity].
Qed.

Lemma c_str_length s : (length (c_str s) <= length s)%nat.
Proof.
  induction s as [|c s IH]; cbn [c_str length]; [lia|].
  destruct (Ascii.eqb c zero); cbn [length]; lia.
Qed.

Lemma c_str_take_c_str s : forall k, c_str (take k (c_str s)) = take k (c_str s).
Proof.
  induction s as [|c s IH]; intros k; cbn [c_str].
  - rewrite take_nil. reflexivity.
  - destruct (Ascii.eqb c zero) eqn:E.
    + rewrite take_nil. reflexivity.
    + destruct k as [|k]; cbn [take c_str]; [reflexivity|].
      rewrite E, IH. reflexivity.
Qed.

Lemma c_str_short s : (length (c_str s) < 32)%nat -> take 31 (c_str s) = c_str s.
Proof. intros H. apply take_ge. lia. Qed.

Lemma strscpy32_length dest src :
  length dest = 32%nat -> length (strscpy32 dest src) = 32%nat.
Proof.
  intros H. unfold strscpy32. cbv zeta.
  rewrite !length_app, length_drop, length_take. cbn [length]. lia.
Qed.

Lemma strscpy32_c_str dest src :
  c_str (strscpy32 dest src) = take 31 (c_str src).
Proof.
  unfold strscpy32. cbv zeta. cbn [app].
  rewrite c_str_app_zero. apply c_str_take_c_str.
Qed.

Lemma strscpy32_terminated dest src :
  (length (c_str (strscpy32 dest src)) < 32)%nat.
Proof. rewrite strscpy32_c_str, length_take. lia. Qed.

Lemma zeroed_name_terminated : (length (c_str (repeat zero 32)) < 32)%nat.
Proof. vm_compute. lia. Qed.

(** The array after [copy_from_user] of [bytes] and the terminator
    stored behind them. *)
Lemma array_store_terminate dest bytes :
  (length bytes < length dest)%nat ->
  <[length bytes := zero]> (array_store dest bytes)
  = bytes ++ zero :: drop (length bytes + 1) dest.
Proof.
  intros H. unfold array_store.
  rewrite insert_app_r_alt by lia. rewrite Nat.sub_diag.
  destruct (drop (length bytes) dest) as [|c rest] eqn:E.
  - apply (f_equal length) in E. rewrite length_drop in E. cbn in E. lia.
  - cbn. f_equal. f_equal.
    rewrite <- drop_drop, E. reflexivity.
Qed.

Lemma array_store_take_terminate dest ubuf k :
  (k <= length ubuf)%nat -> (k < length dest)%nat ->
  <[k := zero]> (array_store dest (take k ubuf))
  = take k ubuf ++ zero :: drop (k + 1) dest.
Proof.
  intros Hk Hd.
  assert (E : length (take k ubuf) = k) by (rewrite length_take; lia).
  rewrite <- E at 1. rewrite array_store_terminate by lia.
  rewrite E. reflexivity.
Qed.

Lemma unlock_count d (n e : Z) :
  lock d = false ->
  mutex_unlock (set_last_error e (set_ioctl_count n (set_lock true d)))
  = set_last_error e (set_ioctl_count n d).
Proof. destruct d. cbn. intros ->. reflexivity. Qed.

Lemma unlock_count_only d (n : Z) :
  lock d = false ->
  mutex_unlock (set_ioctl_count n (set_lock true d)) = set_ioctl_count n d.
Proof. destruct d. cbn. intros ->. reflexivity. Qed.

(** A command of the header passes the two checks of [ioctl_ioctl]. *)
Lemma ioctl_ioctl_known d cmd arg :
  In cmd known_commands -> lock d = false ->
  ioctl_ioctl d cmd arg
  = let '(r, d2, out) :=
      ioctl_switch (set_ioctl_count (u64 (ioctl_count d + 1)) (set_lock true d)) cmd arg in
    Some (r, mutex_unlock d2, out).
Proof.
  intros Hin Hlock. unfold ioctl_ioctl, mutex_lock. rewrite Hlock.
  unfold known_commands in Hin. cbn [In] in Hin.
  repeat destruct Hin as [<-|Hin]; try reflexivity. destruct Hin.
Qed.

(** The switch keeps the name array at its length and terminated. *)
Lemma ioctl_switch_name d cmd arg :
  length (name d) = 32%nat -> (length (c_str (name d)) < 32)%nat ->
  let d' := snd (fst (ioctl_switch d cmd arg)) in
  length (name d') = 32%nat /\ (length (c_str (name d')) < 32)%nat /\
  lock d' = lock d.
Proof.
  intros Hlen Hterm. cbv zeta. unfold ioctl_switch. cbv zeta.
  pose proof zeroed_name_terminated as Hz.
  repeat match goal with
  | |- context [if ?b then _ else _] => destruct b
  | |- context [match ?o with Some _ => _ | None => _ end] => destruct o
  end; cbn [fst snd name lock set_last_error set_config set_value];
    auto using strscpy32_length, strscpy32_terminated.
Qed.

Lemma ioctl_ioctl_name_inv d cmd arg :
  name_inv d ->
  exists r d' out, ioctl_ioctl d cmd arg = Some (r, d', out) /\ name_inv d'.
Proof.
  intros (Hlen & Hterm & Hlock). unfold ioctl_ioctl.
  destruct (negb _); [exists (- ENOTTY), d, NoOut; split; [reflexivity|];
                      split_and!; assumption|].
  destruct (_ >? _); [exists (- ENOTTY), d, NoOut; split; [reflexivity|];
                      split_and!; assumption|].
  unfold mutex_lock. rewrite Hlock.
  match goal with
  | |- context [ioctl_switch ?d1 cmd arg] =>
      pose proof (ioctl_switch_name d1 cmd arg Hlen Hterm) as Hsw;
      destruct (ioctl_switch d1 cmd arg) as [[r d2] out]
  end.
  cbv zeta in Hsw. cbn [fst snd] in Hsw. destruct Hsw as (Hl & Ht & _).
  exists r, (mutex_unlock d2), out. split; [reflexivity|].
  unfold name_inv. destruct d2. cbn in *. auto.
Qed.

Lemma ioctl_read_name_inv d uaccess count ppos :
  name_inv d ->
  exists r d' pos bytes,
    ioctl_read d uaccess count ppos = Some (r, d', pos, bytes) /\ name_inv d'.
Proof.
  intros (Hlen & Hterm & Hlock). unfold ioctl_read, mutex_lock. rewrite Hlock.
  cbv zeta.
  assert (Hinv : name_inv (mutex_unlock
            (set_read_count (u64 (read_count (set_lock true d) + 1)) (set_lock true d)))).
  { unfold name_inv. destruct d. cbn in *. auto. }
  destruct (ppos >? 0); [eexists _, _, _, _; split; [reflexivity|exact Hinv]|].
  destruct (_ >? uaccess); eexists _, _, _, _; (split; [reflexivity|exact Hinv]).
Qed.

Lemma ioctl_write_name_inv d ubuf count :
  name_inv d ->
  exists r d', ioctl_write d ubuf count = Some (r, d') /\ name_inv d'.
Proof.
  intros (Hlen & Hterm & Hlock). unfold ioctl_write, mutex_lock. rewrite Hlock.
  cbv zeta.
  set (n := if count >? 31 then 31 else count).
  assert (Hn : n <= 31) by (subst n; destruct (Z.lt_ge_cases 31 count); zbool; lia).
  destruct (Z.lt_ge_cases (Z.of_nat (length ubuf)) n) as [Hf|Hok]; zbool.
  - eexists _, _. split; [reflexivity|].
    unfold name_inv. destruct d. cbn in *. subst.
    replace (Z.to_nat n - length ubuf)%nat
      with (S (Z.to_nat n - length ubuf - 1))%nat by lia.
    cbn [repeat]. unfold array_store.
    rewrite <- app_assoc. cbn [app]. rewrite c_str_app_zero.
    repeat first [rewrite length_app | rewrite length_drop | rewrite repeat_length
                 | progress cbn [length]].
    pose proof (c_str_length ubuf).
    split_and!; [lia | lia | reflexivity].
  - eexists _, _. split; [reflexivity|].
    unfold name_inv. destruct d. cbn in *. subst.
    assert (Hk : length (take (Z.to_nat n) ubuf) = Z.to_nat n)
      by (rewrite length_take; lia).
    rewrite array_store_take_terminate by lia.
    rewrite c_str_app_zero, length_app. cbn [length]. rewrite length_drop.
    pose proof (c_str_length (take (Z.to_nat n) ubuf)).
    split_and!; [lia | lia | reflexivity].
Qed.

Lemma dev_next_name_inv op d :
  name_inv d -> exists d', dev_next op d = Some d' /\ name_inv d'.
Proof.
  intros Hinv. destruct op as [cmd arg|uaccess count ppos|ubuf count]; cbn [dev_next].
  - destruct (ioctl_ioctl_name_inv d cmd arg Hinv) as (r & d' & out & -> & H).
    exists d'. auto.
  - destruct (ioctl_read_name_inv d uaccess count ppos Hinv)
      as (r & d' & pos & bytes & -> & H).
    exists d'. auto.
  - destruct (ioctl_write_name_inv d ubuf count Hinv) as (r & d' & -> & H).
    exists d'. auto.
Qed.

Lemma ioctl_init_name_inv : name_inv ioctl_init.
Proof. vm_compute. split_and!; [reflexivity | lia | reflexivity]. Qed.

(** X10: the device name is always a terminated string inside its
    array.  Starting from a device whose 32-byte name array holds a
    terminated string and whose mutex is free, as [ioctl_init] leaves
    it, every sequence of ioctl, read and write calls, with any
    arguments and any faults of the user copies, completes with the
    mutex released and leaves the array at 32 bytes with a NUL among
    them. *)
Theorem X10_name_stays_terminated ops : forall d,
  name_inv d -> exists d', dev_run ops d = Some d' /\ name_inv d'.
Proof.
  induction ops as [|op ops IH]; intros d Hinv.
  - exists d. auto.
  - destruct (dev_next_name_inv op d Hinv) as (d1 & Hstep & Hinv1).
    cbn [dev_run]. rewrite Hstep. apply IH. exact Hinv1.
Qed.

Lemma X10_witness :
  exists d',
    dev_run [DoWrite (list_ascii_of_string "a name of more than thirty-one bytes") 36;
             DoIoctl IOCTL_SET_CONFIG no_arg; DoRead 0 32 0;
             DoWrite [] 5; DoIoctl IOCTL_RESET no_arg] ioctl_init = Some d' /\
    name_inv d'.
Proof.
  apply (X10_name_stays_terminated _ ioctl_init). exact ioctl_init_name_inv.
Defined.

(** ** Writing the name and reading it back *)

Lemma ioctl_write_ok d ubuf count :
  lock d = false -> 0 <= count -> Z.min count 31 <= Z.of_nat (length ubuf) ->
  ioctl_write d ubuf count
  = Some (Z.min count 31,
          set_name (<[Z.to_nat (Z.min count 31) := zero]>
                      (array_store (name d) (take (Z.to_nat (Z.min count 31)) ubuf)))
            (set_write_count (u64 (write_count d + 1)) d)).
Proof.
  intros Hlock Hcount Hubuf.
  unfold ioctl_write, mutex_lock. rewrite Hlock. cbv zeta.
  assert (Hn : (if count >? 31 then 31 else count) = Z.min count 31)
    by (destruct (Z.lt_ge_cases 31 count); zbool; lia).
  rewrite Hn. zbool. rewrite s64_small by lia.
  destruct d. cbn in *. subst. reflexivity.
Qed.

Lemma ioctl_read_ok d uaccess count :
  lock d = false -> length (name d) = 32%nat -> 32 <= uaccess -> 32 <= count ->
  ioctl_read d uaccess count 0
  = Some (32, set_read_count (u64 (read_count d + 1)) d, 32, name d).
Proof.
  intros Hlock Hlen Hua Hc.
  unfold ioctl_read, mutex_lock. rewrite Hlock. cbv zeta.
  change (0 >? 0) with false. cbv iota.
  assert (Hn : (if count >? 32 then 32 else count) = 32)
    by (destruct (Z.lt_ge_cases 32 count); zbool; lia).
  rewrite Hn. zbool. change (s64 32) with 32. change (Z.to_nat 32) with 32%nat.
  destruct d. cbn in *. subst. rewrite take_ge by lia. reflexivity.
Qed.

Lemma ioctl_read_eof d uaccess count ppos :
  lock d = false -> 0 < ppos ->
  ioctl_read d uaccess count ppos
  = Some (0, set_read_count (u64 (read_count d + 1)) d, ppos, []).
Proof.
  intros Hlock Hpos.
  unfold ioctl_read, mutex_lock. rewrite Hlock. cbv zeta. zbool.
  destruct d. cbn in *. subst. reflexivity.
Qed.

(** X11: [ioctl_write] stores the caller's bytes as the device name and
    [ioctl_read] returns it.  A write whose [n = min(count, 31)] bytes
    can be read from the caller returns [n] and counts one write; a
    read from position 0 into a buffer of at least 32 bytes then returns
    the whole 32-byte array, which read as a string is the string of the
    [n] bytes written, moves the position to 32 and counts one read; and
    every read from that position returns 0. *)
Theorem X11_write_then_read_name d ubuf count uaccess rcount :
  length (name d) = 32%nat -> lock d = false -> 0 <= count ->
  Z.min count 31 <= Z.of_nat (length ubuf) ->
  32 <= uaccess -> 32 <= rcount ->
  exists d1 d2 bytes,
    ioctl_write d ubuf count = Some (Z.min count 31, d1) /\
    write_count d1 = u64 (write_count d + 1) /\
    ioctl_read d1 uaccess rcount 0 = Some (32, d2, 32, bytes) /\
    read_count d2 = u64 (read_count d + 1) /\
    bytes = name d1 /\ length bytes = 32%nat /\
    c_str bytes = c_str (take (Z.to_nat (Z.min count 31)) ubuf) /\
    (forall ua c, exists d3, ioctl_read d2 ua c 32 = Some (0, d3, 32, [])).
Proof.
  intros Hlen Hlock Hcount Hubuf Hua Hrc.
  rewrite (ioctl_write_ok d ubuf count Hlock Hcount Hubuf).
  set (n := Z.min count 31) in *.
  assert (Hname : <[Z.to_nat n := zero]>
                    (array_store (name d) (take (Z.to_nat n) ubuf))
                  = take (Z.to_nat n) ubuf
                    ++ zero :: drop (Z.to_nat n + 1) (name d)).
  { apply array_store_take_terminate; lia. }
  assert (Hl : length (<[Z.to_nat n := zero]>
                    (array_store (name d) (take (Z.to_nat n) ubuf))) = 32%nat).
  { rewrite Hname, length_app. cbn [length]. rewrite length_drop, length_take. lia. }
  eexists _, _, _. split; [reflexivity|]. split; [reflexivity|].
  rewrite ioctl_read_ok; [ | destruct d; exact Hlock | exact Hl | exact Hua | exact Hrc].
  split; [reflexivity|].
  split_and!; [reflexivity | reflexivity | exact Hl | | ].
  - cbn [name set_name set_config]. rewrite Hname. apply c_str_app_zero.
  - intros ua c. eexists. apply ioctl_read_eof; [destruct d; exact Hlock | lia].
Qed.

Lemma X11_witness :
  exists d1 d2 bytes,
    ioctl_write ioctl_init (list_ascii_of_string "sensor") 6 = Some (Z.min 6 31, d1) /\
    write_count d1 = u64 (write_count ioctl_init + 1) /\
    ioctl_read d1 64 4096 0 = Some (32, d2, 32, bytes) /\
    read_count d2 = u64 (read_count ioctl_init + 1) /\
    bytes = name d1 /\ length bytes = 32%nat /\
    c_str bytes
    = c_str (take (Z.to_nat (Z.min 6 31)) (list_ascii_of_string "sensor")) /\
    (forall ua c, exists d3, ioctl_read d2 ua c 32 = Some (0, d3, 32, [])).
Proof.
  apply (X11_write_then_read_name ioctl_init (list_ascii_of_string "sensor") 6 64 4096).
  - reflexivity.
  - reflexivity.
  - lia.
  - vm_compute. discriminate.
  - lia.
  - lia.
Defined.

(** ** The commands that transfer data *)

Lemma set_config_cmd :
  (IOCTL_SET_CONFIG =? IOCTL_RESET) = false /\
  (IOCTL_SET_CONFIG =? IOCTL_GET_STATS) = false /\
  (IOCTL_SET_CONFIG =? IOCTL_GET_VALUE) = false /\
  (IOCTL_SET_CONFIG =? IOCTL_SET_CONFIG) = true.
Proof. vm_compute. auto. Qed.

(** X12: [IOCTL_SET_CONFIG] stores a configuration exactly when its
    speed is within 0..1000 and its mode within 0..3.  A valid
    configuration is answered with 0: speed and mode are stored and the
    name becomes the caller's string cut to 31 bytes, terminated inside
    the 32-byte array.  An invalid one is answered with [-EINVAL]: the
    call is counted and [last_error] set, and speed, mode, name and
    value stay as they were. *)
Theorem X12_set_config_validates d config arg :
  lock d = false -> length (name d) = 32%nat -> arg_config arg = Some config ->
  (config_valid config ->
   exists d',
     ioctl_ioctl d IOCTL_SET_CONFIG arg = Some (0, d', NoOut) /\
     speed d' = cfg_speed config /\ mode d' = cfg_mode config /\
     c_str (name d') = take 31 (c_str (cfg_name config)) /\
     length (name d') = 32%nat /\
     value d' = value d /\ last_error d' = last_error d /\
     ioctl_count d' = u64 (ioctl_count d + 1) /\ lock d' = false) /\
  (~ config_valid config ->
   ioctl_ioctl d IOCTL_SET_CONFIG arg
   = Some (- EINVAL,
           set_last_error (- EINVAL) (set_ioctl_count (u64 (ioctl_count d + 1)) d),
           NoOut)).
Proof.
  intros Hlock Hlen Harg.
  rewrite ioctl_ioctl_known by (assumption || (unfold known_commands; cbn; auto)).
  unfold ioctl_switch. cbv zeta.
  destruct set_config_cmd as (-> & -> & -> & ->). rewrite Harg.
  unfold config_valid. split.
  - intros [Hs Hm]. zbool. cbn [orb].
    eexists. split; [reflexivity|].
    cbn [mutex_unlock set_lock set_config set_ioctl_count speed mode name value
         last_error ioctl_count lock].
    split_and!; try reflexivity.
    + apply strscpy32_c_str.
    + apply strscpy32_length. exact Hlen.
  - intros Hbad.
    destruct (Z.lt_ge_cases (cfg_speed config) 0) as [H1|H1]; zbool; cbn [orb].
    { rewrite unlock_count by assumption. reflexivity. }
    destruct (Z.lt_ge_cases 1000 (cfg_speed config)) as [H2|H2]; zbool; cbn [orb].
    { rewrite unlock_count by assumption. reflexivity. }
    destruct (Z.lt_ge_cases (cfg_mode config) 0) as [H3|H3]; zbool; cbn [orb].
    { rewrite unlock_count by assumption. reflexivity. }
    destruct (Z.lt_ge_cases 3 (cfg_mode config)) as [H4|H4]; zbool; cbn [orb].
    { rewrite unlock_count by assumption. reflexivity. }
    exfalso. apply Hbad. lia.
Qed.

Lemma X12_witness :
  let good := {| cfg_speed := 1000; cfg_mode := 3;
                 cfg_name := list_ascii_of_string "fast" |} in
  let bad := {| cfg_speed := 1001; cfg_mode := 0;
                cfg_name := list_ascii_of_string "too fast" |} in
  (exists d',
     ioctl_ioctl ioctl_init IOCTL_SET_CONFIG (config_arg good) = Some (0, d', NoOut) /\
     speed d' = cfg_speed good /\ mode d' = cfg_mode good /\
     c_str (name d') = take 31 (c_str (cfg_name good)) /\
     length (name d') = 32%nat /\
     value d' = value ioctl_init /\ last_error d' = last_error ioctl_init /\
     ioctl_count d' = u64 (ioctl_count ioctl_init + 1) /\ lock d' = false) /\
  ioctl_ioctl ioctl_init IOCTL_SET_CONFIG (config_arg bad)
  = Some (- EINVAL,
          set_last_error (- EINVAL)
            (set_ioctl_count (u64 (ioctl_count ioctl_init + 1)) ioctl_init),
          NoOut).
Proof.
  intros good bad. split.
  - apply (proj1 (X12_set_config_validates ioctl_init good (config_arg good)
                    eq_refl eq_refl eq_refl)).
    vm_compute. repeat split; discriminate.
  - apply (proj2 (X12_set_config_validates ioctl_init bad (config_arg bad)
                    eq_refl eq_refl eq_refl)).
    vm_compute. intros [[_ H] _]. apply H. reflexivity.
Defined.

(** X13: [IOCTL_XFER_CONFIG] reports and never stores.  Whatever
    configuration the caller passes in, the call is answered with 0 and
    writes back the device's speed, mode and name; the device changes in
    nothing but its count of ioctl calls. *)
Theorem X13_xfer_config_reports_without_storing d config arg :
  name_inv d -> arg_config arg = Some config -> arg_writable arg = true ->
  exists cfg,
    ioctl_ioctl d IOCTL_XFER_CONFIG arg
    = Some (0, set_ioctl_count (u64 (ioctl_count d + 1)) d, OutConfig cfg) /\
    cfg_speed cfg = speed d /\ cfg_mode cfg = mode d /\
    c_str (cfg_name cfg) = c_str (name d).
Proof.
  intros (Hlen & Hterm & Hlock) Hcfg Hw.
  rewrite ioctl_ioctl_known by (assumption || (unfold known_commands; cbn; auto 10)).
  unfold ioctl_switch. cbv zeta.
  change (IOCTL_XFER_CONFIG =? IOCTL_RESET) with false.
  change (IOCTL_XFER_CONFIG =? IOCTL_GET_STATS) with false.
  change (IOCTL_XFER_CONFIG =? IOCTL_GET_VALUE) with false.
  change (IOCTL_XFER_CONFIG =? IOCTL_SET_CONFIG) with false.
  change (IOCTL_XFER_CONFIG =? IOCTL_SET_VALUE) with false.
  change (IOCTL_XFER_CONFIG =? IOCTL_XFER_CONFIG) with true.
  cbv iota. rewrite Hcfg, Hw.
  eexists. rewrite unlock_count_only by assumption.
  split; [reflexivity|].
  cbn [cfg_speed cfg_mode cfg_name set_ioctl_count set_lock speed mode name].
  split_and!; [reflexivity | reflexivity | ].
  rewrite strscpy32_c_str. apply c_str_short. exact Hterm.
Qed.

Lemma X13_witness :
  exists cfg,
    ioctl_ioctl ioctl_init IOCTL_XFER_CONFIG
      (config_arg {| cfg_speed := 999; cfg_mode := 0;
                     cfg_name := strncpy32 "new_name" |})
    = Some (0, set_ioctl_count (u64 (ioctl_count ioctl_init + 1)) ioctl_init,
            OutConfig cfg) /\
    cfg_speed cfg = speed ioctl_init /\ cfg_mode cfg = mode ioctl_init /\
    c_str (cfg_name cfg) = c_str (name ioctl_init).
Proof.
  apply (X13_xfer_config_reports_without_storing ioctl_init
           {| cfg_speed := 999; cfg_mode := 0; cfg_name := strncpy32 "new_name" |}).
  - exact ioctl_init_name_inv.
  - reflexivity.
  - reflexivity.
Defined.

(** X14: a value set is the value got.  [IOCTL_SET_VALUE] with a
    readable [int] stores it, and the next [IOCTL_GET_VALUE] with a
    writable argument hands the same value back; both are answered with
    0, both are counted, and the configuration is untouched. *)
Theorem X14_set_value_then_get_value d v arg_set arg_get :
  lock d = false -> arg_int arg_set = Some v -> arg_writable arg_get = true ->
  exists d1 d2,
    ioctl_ioctl d IOCTL_SET_VALUE arg_set = Some (0, d1, NoOut) /\
    ioctl_ioctl d1 IOCTL_GET_VALUE arg_get = Some (0, d2, OutInt v) /\
    value d2 = v /\
    ioctl_count d2 = u64 (u64 (ioctl_count d + 1) + 1) /\
    speed d2 = speed d /\ mode d2 = mode d /\ name d2 = name d /\
    last_error d2 = last_error d /\ lock d2 = false.
Proof.
  intros Hlock Hint Hw.
  rewrite ioctl_ioctl_known by (assumption || (unfold known_commands; cbn; auto 10)).
  unfold ioctl_switch at 1. cbv zeta.
  change (IOCTL_SET_VALUE =? IOCTL_RESET) with false.
  change (IOCTL_SET_VALUE =? IOCTL_GET_STATS) with false.
  change (IOCTL_SET_VALUE =? IOCTL_GET_VALUE) with false.
  change (IOCTL_SET_VALUE =? IOCTL_SET_CONFIG) with false.
  change (IOCTL_SET_VALUE =? IOCTL_SET_VALUE) with true.
  cbv iota. rewrite Hint.
  eexists _, _. split; [reflexivity|].
  rewrite ioctl_ioctl_known by (reflexivity || (unfold known_commands; cbn; auto 10)).
  unfold ioctl_switch. cbv zeta.
  change (IOCTL_GET_VALUE =? IOCTL_RESET) with false.
  change (IOCTL_GET_VALUE =? IOCTL_GET_STATS) with false.
  change (IOCTL_GET_VALUE =? IOCTL_GET_VALUE) with true.
  cbv iota. rewrite Hw.
  split; [reflexivity|]. split_and!; reflexivity.
Qed.

Lemma X14_witness :
  exists d1 d2,
    ioctl_ioctl ioctl_init IOCTL_SET_VALUE (int_arg 42) = Some (0, d1, NoOut) /\
    ioctl_ioctl d1 IOCTL_GET_VALUE (int_arg 0) = Some (0, d2, OutInt 42) /\
    value d2 = 42 /\
    ioctl_count d2 = u64 (u64 (ioctl_count ioctl_init + 1) + 1) /\
    speed d2 = speed ioctl_init /\ mode d2 = mode ioctl_init /\
    name d2 = name ioctl_init /\
    last_error d2 = last_error ioctl_init /\ lock d2 = false.
Proof.
  apply (X14_set_value_then_get_value ioctl_init 42 (int_arg 42) (int_arg 0));
    reflexivity.
Defined.

(** X15: [IOCTL_RESET] clears everything, its own count included.
    After a reset of any device with a free mutex the configuration, the
    value, the three counters and [last_error] are zero and the name is
    empty, so the [IOCTL_GET_STATS] that follows reports no reads, no
    writes, no error and exactly one ioctl call: itself. *)
Theorem X15_reset_then_get_stats d arg_reset arg_stats :
  lock d = false -> arg_writable arg_stats = true ->
  exists d1 d2,
    ioctl_ioctl d IOCTL_RESET arg_reset = Some (0, d1, NoOut) /\
    d1 = {| lock := false; speed := 0; mode := 0; name := repeat zero 32;
            value := 0; read_count := 0; write_count := 0; ioctl_count := 0;
            last_error := 0 |} /\
    ioctl_ioctl d1 IOCTL_GET_STATS arg_stats
    = Some (0, d2, OutStats {| reads := 0; writes := 0; ioctls := 1;
                               stats_last_error := 0 |}) /\
    d2 = set_ioctl_count 1 d1.
Proof.
  intros Hlock Hw.
  rewrite ioctl_ioctl_known by (assumption || (unfold known_commands; cbn; auto 10)).
  unfold ioctl_switch at 1. cbv zeta.
  change (IOCTL_RESET =? IOCTL_RESET) with true. cbv iota.
  eexists _, _. split; [reflexivity|]. split; [reflexivity|].
  rewrite ioctl_ioctl_known by (reflexivity || (unfold known_commands; cbn; auto 10)).
  unfold ioctl_switch. cbv zeta.
  change (IOCTL_GET_STATS =? IOCTL_RESET) with false.
  change (IOCTL_GET_STATS =? IOCTL_GET_STATS) with true.
  cbv iota. rewrite Hw. split; reflexivity.
Qed.

Lemma X15_witness :
  exists d1 d2,
    ioctl_ioctl ioctl_init IOCTL_RESET no_arg = Some (0, d1, NoOut) /\
    d1 = {| lock := false; speed := 0; mode := 0; name := repeat zero 32;
            value := 0; read_count := 0; write_count := 0; ioctl_count := 0;
            last_error := 0 |} /\
    ioctl_ioctl d1 IOCTL_GET_STATS stats_arg
    = Some (0, d2, OutStats {| reads := 0; writes := 0; ioctls := 1;
                               stats_last_error := 0 |}) /\
    d2 = set_ioctl_count 1 d1.
Proof.
  apply (X15_reset_then_get_stats ioctl_init no_arg stats_arg); reflexivity.
Defined.

(** X16: a bad pointer is answered with [-EFAULT] and changes no
    setting.  Each of the five commands that transfer data, called with
    an argument that can be neither read nor written, returns
    [-EFAULT]; the call is counted and [last_error] set to [-EFAULT],
    and speed, mode, name, value and the other counters stay as they
    were. *)
Theorem X16_bad_pointer_is_efault d cmd :
  lock d = false ->
  In cmd [IOCTL_GET_STATS; IOCTL_GET_VALUE; IOCTL_SET_CONFIG;
          IOCTL_SET_VALUE; IOCTL_XFER_CONFIG] ->
  ioctl_ioctl d cmd no_arg
  = Some (- EFAULT,
          set_last_error (- EFAULT) (set_ioctl_count (u64 (ioctl_count d + 1)) d),
          NoOut).
Proof.
  intros Hlock Hin.
  rewrite ioctl_ioctl_known
    by (assumption || (unfold known_commands; cbn [In] in *; tauto)).
  cbn [In] in Hin.
  repeat destruct Hin as [<-|Hin]; try destruct Hin;
    cbv beta iota zeta delta [ioctl_switch no_arg arg_config arg_int arg_writable];
    match goal with
    | |- context [?c =? IOCTL_RESET] =>
        change (c =? IOCTL_RESET) with false
    end;
    repeat match goal with
    | |- context [?a =? ?b] =>
        first [change (a =? b) with true | change (a =? b) with false]
    end; cbv iota;
    rewrite unlock_count by assumption; reflexivity.
Qed.

Lemma X16_witness :
  ioctl_ioctl ioctl_init IOCTL_SET_VALUE no_arg
  = Some (- EFAULT,
          set_last_error (- EFAULT)
            (set_ioctl_count (u64 (ioctl_count ioctl_init + 1)) ioctl_init),
          NoOut).
Proof.
  apply (X16_bad_pointer_is_efault ioctl_init IOCTL_SET_VALUE).
  - reflexivity.
  - cbn [In]. auto 10.
Defined.

(** ** The test program *)

(** X17: the driver passes its own test program, from any state.
    Whatever the device holds when [test_ioctl] opens it with the mutex
    free, the program prints what it was written to print: tests 1 to 6
    succeed and show speed 100, mode 2, the name [test_device] and the
    value 42, test 7 fails with [ENOTTY], test 8 fails with [EINVAL],
    and the statistics count 4 and then 7 ioctl calls since the reset,
    the invalid command of test 7 not counted.  The device is left with
    the configuration of test 2. *)
Theorem X17_test_program_output d0 :
  lock d0 = false ->
  test_ioctl_main d0
  = Some (test_ioctl_expected,
          {| lock := false; speed := 100; mode := 2;
             name := strncpy32 "test_device"; value := 42;
             read_count := 0; write_count := 0; ioctl_count := 7;
             last_error := - EINVAL |}).
Proof.
  destruct d0 as [l sp md nm v rc wc ic le]. cbn [lock]. intros ->.
  vm_compute. reflexivity.
Qed.

Lemma X17_witness :
  test_ioctl_main ioctl_init
  = Some (test_ioctl_expected,
          {| lock := false; speed := 100; mode := 2;
             name := strncpy32 "test_device"; value := 42;
             read_count := 0; write_count := 0; ioctl_count := 7;
             last_error := - EINVAL |}).
Proof. apply (X17_test_program_output ioctl_init). reflexivity. Defined.

End IoctlDeviceProofs.

(** ** rtc_demo *)

Module RtcDemoProofs.
Import CInt CIntFacts Errno RtcDemo.

(** ** The calendar *)

Lemma leap_year_step y :
  leaps_thru_end_of y - leaps_thru_end_of (y - 1) = if is_leap_year y then 1 else 0.
Proof.
  unfold leaps_thru_end_of, is_leap_year.
  destruct (y mod 4 =? 0) eqn:E4; destruct (y mod 100 =? 0) eqn:E100;
    destruct (y mod 400 =? 0) eqn:E400; cbn [andb orb negb];
    rewrite ?Z.eqb_eq, ?Z.eqb_neq in *; zmod.
Qed.

Lemma days_before_year_succ y :
  days_before_year (y + 1) = days_before_year y + days_in_year y.
Proof.
  unfold days_before_year, days_in_year.
  pose proof (leap_year_step y) as H.
  replace (y + 1 - 1) with y by lia.
  destruct (is_leap_year y); lia.
Qed.

Lemma days_before_year_mono y0 y :
  y0 <= y -> days_before_year y0 <= days_before_year y.
Proof.
  unfold days_before_year, leaps_thru_end_of. intros H. zmod.
Qed.

(** [find_year] finds the year of a day number. *)
Lemma find_year_spec fuel : forall y0 y yday,
  y0 <= y -> 0 <= yday < days_in_year y -> y - y0 < Z.of_nat fuel ->
  find_year fuel y0 (days_before_year y - days_before_year y0 + yday) = (y, yday).
Proof.
  induction fuel as [|fuel IH]; intros y0 y yday Hy Hyday Hfuel; [lia|].
  cbn [find_year].
  destruct (Z.eq_dec y0 y) as [->|Hne].
  - replace (days_before_year y - days_before_year y + yday) with yday by lia.
    zbool. reflexivity.
  - pose proof (days_before_year_succ y0) as Hs.
    pose proof (days_before_year_mono (y0 + 1) y ltac:(lia)) as Hm.
    zbool.
    replace (days_before_year y - days_before_year y0 + yday - days_in_year y0)
      with (days_before_year y - days_before_year (y0 + 1) + yday) by lia.
    apply IH; lia.
Qed.

Ltac month_cases m :=
  let H := fresh in
  assert (H : m = 0 \/ m = 1 \/ m = 2 \/ m = 3 \/ m = 4 \/ m = 5 \/ m = 6 \/
              m = 7 \/ m = 8 \/ m = 9 \/ m = 10 \/ m = 11) by lia;
  destruct H as [->|[->|[->|[->|[->|[->|[->|[->|[->|[->|[->| ->]]]]]]]]]]].

Lemma rtc_month_days_pos month year :
  0 <= month < 12 -> 28 <= rtc_month_days month year <= 31.
Proof.
  intros Hm. unfold rtc_month_days.
  month_cases month; destruct (is_leap_year year); vm_compute; split; discriminate.
Qed.

(** The table [rtc_ydays] holds the sums of [rtc_month_days]. *)
Lemma rtc_year_days_succ month year :
  0 <= month < 11 ->
  rtc_year_days 1 (month + 1) year
  = rtc_year_days 1 month year + rtc_month_days month year.
Proof.
  intros Hm. unfold rtc_year_days, rtc_month_days.
  month_cases month; try lia; destruct (is_leap_year year); reflexivity.
Qed.

Lemma rtc_year_days_mono year n : forall m0,
  0 <= m0 -> m0 + Z.of_nat n < 12 ->
  rtc_year_days 1 m0 year <= rtc_year_days 1 (m0 + Z.of_nat n) year.
Proof.
  induction n as [|n IH]; intros m0 H0 Hn.
  - replace (m0 + Z.of_nat 0) with m0 by lia. lia.
  - replace (m0 + Z.of_nat (S n)) with (m0 + Z.of_nat n + 1) by lia.
    rewrite rtc_year_days_succ by lia.
    pose proof (rtc_month_days_pos (m0 + Z.of_nat n) year ltac:(lia)).
    specialize (IH m0 H0 ltac:(lia)). lia.
Qed.

Lemma rtc_year_days_day day month year :
  rtc_year_days day month year = rtc_year_days 1 month year + (day - 1).
Proof. unfold rtc_year_days. lia. Qed.

(** [find_month] finds the month of a day of the year. *)
Lemma find_month_from year month dd fuel : forall m0,
  0 <= m0 <= month -> month < 12 -> 0 <= dd < rtc_month_days month year ->
  month - m0 <= Z.of_nat fuel ->
  find_month fuel m0 year
    (rtc_year_days 1 month year - rtc_year_days 1 m0 year + dd)
  = (month, dd).
Proof.
  induction fuel as [|fuel IH]; intros m0 Hm0 Hm Hdd Hfuel.
  - replace m0 with month by lia. cbn [find_month]. f_equal. lia.
  - cbn [find_month].
    destruct (Z.eq_dec m0 month) as [->|Hne].
    + replace (rtc_year_days 1 month year - rtc_year_days 1 month year + dd)
        with dd by lia.
      zbool. reflexivity.
    + pose proof (rtc_year_days_succ m0 year ltac:(lia)) as Hs.
      pose proof (rtc_year_days_mono year (Z.to_nat (month - (m0 + 1))) (m0 + 1)
                    ltac:(lia) ltac:(lia)) as Hmono.
      replace (m0 + 1 + Z.of_nat (Z.to_nat (month - (m0 + 1)))) with month in Hmono by lia.
      zbool.
      replace (rtc_year_days 1 month year - rtc_year_days 1 m0 year + dd
               - rtc_month_days m0 year)
        with (rtc_year_days 1 month year - rtc_year_days 1 (m0 + 1) year + dd) by lia.
      apply IH; lia.
Qed.

Lemma find_month_spec year month day :
  0 <= month < 12 -> 1 <= day <= rtc_month_days month year ->
  find_month 11 0 year (rtc_year_days day month year) = (month, day - 1).
Proof.
  intros Hm Hd.
  rewrite rtc_year_days_day.
  pose proof (find_month_from year month (day - 1) 11 0
                ltac:(lia) ltac:(lia) ltac:(lia) ltac:(lia)) as H.
  replace (rtc_year_days 1 0 year) with 0 in H
    by (unfold rtc_year_days; destruct (is_leap_year year); reflexivity).
  rewrite Z.sub_0_r in H. exact H.
Qed.

(** The day number [mktime64] computes. *)
Lemma mktime64_days year mon day hour min sec :
  0 <= mon < 12 ->
  mktime64 year (mon + 1) day hour min sec
  = (days_before_year year + rtc_year_days day mon year) * 86400
    + (hour * 3600 + min * 60 + sec).
Proof.
  intros Hm. unfold mktime64, days_before_year, rtc_year_days.
  pose proof (leap_year_step year) as Hstep. unfold leaps_thru_end_of in *.
  month_cases mon; destruct (is_leap_year year); zbool; cbv beta iota zeta;
    cbn [andb];
    match goal with
    | |- context [nth ?n ?l ?d] =>
        let v := eval vm_compute in (nth n l d) in change (nth n l d) with v
    end;
    zmod.
Qed.

Lemma rtc_year_days_bound day month year :
  0 <= month < 12 -> 1 <= day <= rtc_month_days month year ->
  0 <= rtc_year_days day month year < days_in_year year.
Proof.
  intros Hm Hd. rewrite rtc_year_days_day.
  assert (H : 0 <= rtc_year_days 1 month year /\
              rtc_year_days 1 month year + rtc_month_days month year
              <= days_in_year year).
  { unfold rtc_year_days, rtc_month_days, days_in_year.
    month_cases month; destruct (is_leap_year year); vm_compute; split; discriminate. }
  lia.
Qed.

Lemma rtc_valid_tm_fields tm :
  rtc_valid_tm tm = true ->
  70 <= tm_year tm <= 2147483647 - 1900 /\ 0 <= tm_mon tm < 12 /\
  1 <= tm_mday tm <= rtc_month_days (tm_mon tm) (tm_year tm + 1900) /\
  0 <= tm_hour tm < 24 /\ 0 <= tm_min tm < 60 /\ 0 <= tm_sec tm < 60.
Proof.
  unfold rtc_valid_tm. rewrite !andb_true_iff, !Z.leb_le, !Z.ltb_lt. tauto.
Qed.

(** The second a calendar time denotes: its day number and its second
    of the day. *)
Lemma gregorian_tm_to_time64_days tm :
  valid_until_9999 tm = true ->
  gregorian_tm_to_time64 tm
  = (days_before_year (tm_year tm + 1900)
     + rtc_year_days (tm_mday tm) (tm_mon tm) (tm_year tm + 1900)) * 86400
    + (tm_hour tm * 3600 + tm_min tm * 60 + tm_sec tm) /\
  0 <= gregorian_tm_to_time64 tm < 2 ^ 40.
Proof.
  unfold valid_until_9999. rewrite andb_true_iff, Z.leb_le. intros [Hv Hy].
  destruct (rtc_valid_tm_fields tm Hv) as (Hyear & Hmon & Hday & Hh & Hm & Hs).
  pose proof (rtc_year_days_bound _ _ _ Hmon Hday) as Hyd.
  assert (Hdays : 0 <= days_before_year (tm_year tm + 1900) <= 3000000)
    by (unfold days_before_year, leaps_thru_end_of; zmod).
  assert (Hlen : days_in_year (tm_year tm + 1900) <= 366)
    by (unfold days_in_year; destruct (is_leap_year _); lia).
  unfold gregorian_tm_to_time64. rewrite mktime64_days by assumption.
  rewrite s64_small by lia. split; [reflexivity|lia].
Qed.

(** Converted to seconds and back, a calendar time keeps its date and
    its time of day, and gets the weekday, the day of the year and the
    daylight saving flag the library computes. *)
Lemma gregorian_round_trip tm :
  valid_until_9999 tm = true ->
  gregorian_time64_to_tm (gregorian_tm_to_time64 tm) = with_computed_fields tm.
Proof.
  intros Hvalid. unfold with_computed_fields.
  destruct (gregorian_tm_to_time64_days tm Hvalid) as [Htime _].
  unfold valid_until_9999 in Hvalid. rewrite andb_true_iff, Z.leb_le in Hvalid.
  destruct Hvalid as [Hv Hy].
  destruct (rtc_valid_tm_fields tm Hv) as (Hyear & Hmon & Hday & Hh & Hm & Hs).
  pose proof (rtc_year_days_bound _ _ _ Hmon Hday) as Hyd.
  set (year := tm_year tm + 1900) in *.
  set (yday := rtc_year_days (tm_mday tm) (tm_mon tm) year) in *.
  set (secs := tm_hour tm * 3600 + tm_min tm * 60 + tm_sec tm) in *.
  assert (Hsecs : 0 <= secs < 86400) by (unfold secs; lia).
  assert (Hbefore : 365 * (year - 1970) <= days_before_year year)
    by (unfold days_before_year, leaps_thru_end_of; zmod).
  rewrite Htime. unfold gregorian_time64_to_tm.
  assert (Hdiv : ((days_before_year year + yday) * 86400 + secs) / 86400
                 = days_before_year year + yday) by zmod.
  assert (Hmod : ((days_before_year year + yday) * 86400 + secs) mod 86400 = secs)
    by zmod.
  rewrite Hdiv, Hmod.
  assert (Hfind : find_year (Z.to_nat ((days_before_year year + yday) / 365 + 1)) 1970
                    (days_before_year year + yday) = (year, yday)).
  { pose proof (find_year_spec
                  (Z.to_nat ((days_before_year year + yday) / 365 + 1))
                  1970 year yday ltac:(lia) Hyd) as H.
    replace (days_before_year 1970) with 0 in H by reflexivity.
    rewrite Z.sub_0_r in H. apply H. zmod. }
  rewrite Hfind.
  unfold yday at 1. rewrite find_month_spec by assumption.
  f_equal; unfold secs; try zmod; lia.
Qed.

Section Clock.
Variable rtc_tm_to_time64 : rtc_time -> Z.
Variable rtc_time64_to_tm : Z -> rtc_time.

(** The clock reads its base plus the whole seconds elapsed since the
    base was recorded. *)
Lemma demo_rtc_get_time64_elapsed now drtc :
  0 <= base_ktime drtc <= now -> now <= S64_MAX ->
  - 2 ^ 63 <= base_time drtc ->
  base_time drtc + (now - base_ktime drtc) / NSEC_PER_SEC <= S64_MAX ->
  demo_rtc_get_time64 now drtc
  = base_time drtc + (now - base_ktime drtc) / NSEC_PER_SEC.
Proof.
  unfold S64_MAX, NSEC_PER_SEC. intros Hk Hnow Hb Hsum.
  unfold demo_rtc_get_time64, div_s64, NSEC_PER_SEC. cbv zeta.
  rewrite (s64_small (now - base_ktime drtc)) by lia.
  rewrite Z.quot_div_nonneg by lia.
  assert (0 <= (now - base_ktime drtc) / 1000000000 <= now - base_ktime drtc).
  { split; [apply Z.div_pos; lia|]. apply Z.div_le_upper_bound; lia. }
  rewrite (s64_small ((now - base_ktime drtc) / 1000000000)) by lia.
  apply s64_small. lia.
Qed.

(** Set at the instant [t0] and read at [t1], the clock shows the second
    set plus the whole seconds from [t0] to [t1]. *)
Lemma set_time_then_read tm t0 t1 drtc :
  0 <= t0 <= t1 -> t1 <= S64_MAX ->
  - 2 ^ 62 <= rtc_tm_to_time64 tm <= 2 ^ 62 ->
  demo_rtc_read_time rtc_time64_to_tm t1
    (snd (demo_rtc_set_time rtc_tm_to_time64 t0 tm drtc))
  = (0, rtc_time64_to_tm (rtc_tm_to_time64 tm + (t1 - t0) / NSEC_PER_SEC)).
Proof.
  intros Ht Ht1 Hrange.
  assert (Hel : 0 <= (t1 - t0) / NSEC_PER_SEC <= 2 ^ 34).
  { unfold NSEC_PER_SEC, S64_MAX in *. split; [apply Z.div_pos; lia|].
    apply Z.div_le_upper_bound; lia. }
  unfold demo_rtc_set_time, demo_rtc_read_time. cbn [fst snd].
  rewrite demo_rtc_get_time64_elapsed; cbn [base_time base_ktime];
    unfold S64_MAX in *; try lia.
  reflexivity.
Qed.

End Clock.

(** ** The software clock *)

(** C8, as amended: [demo_rtc_read_time] at the instant [t1] returns the
    calendar form of the base time plus the whole seconds from the
    instant the base was recorded to [t1]; after [demo_rtc_set_time] of
    [tm] at the instant [t0] that is the second [tm] denotes plus the
    whole seconds from [t0] to [t1], whatever calendar conversions the
    kernel supplies.  With the conversions of the kernel's RTC library,
    for every calendar time [tm] of the years 1970 to 9999 that
    [rtc_valid_tm] accepts, the clock read at [t0] itself, with no time
    elapsed, returns the seconds, minutes, hours, day, month and year of
    [tm], with the weekday, the day of the year counted from 1 and a
    cleared daylight saving flag as the library computes them from the
    date: it returns [tm] again exactly when [tm] carried these three
    values. *)
Theorem C8_rtc_set_then_read
    (rtc_tm_to_time64 : rtc_time -> Z) (rtc_time64_to_tm : Z -> rtc_time)
    drtc tm t0 t1 :
  0 <= t0 <= t1 -> t1 <= S64_MAX ->
  (0 <= base_ktime drtc <= t1 -> - 2 ^ 63 <= base_time drtc ->
   base_time drtc + (t1 - base_ktime drtc) / NSEC_PER_SEC <= S64_MAX ->
   demo_rtc_read_time rtc_time64_to_tm t1 drtc
   = (0, rtc_time64_to_tm (base_time drtc + (t1 - base_ktime drtc) / NSEC_PER_SEC))) /\
  (- 2 ^ 62 <= rtc_tm_to_time64 tm <= 2 ^ 62 ->
   let drtc' := snd (demo_rtc_set_time rtc_tm_to_time64 t0 tm drtc) in
   fst (demo_rtc_set_time rtc_tm_to_time64 t0 tm drtc) = 0 /\
   base_time drtc' = rtc_tm_to_time64 tm /\ base_ktime drtc' = t0 /\
   demo_rtc_read_time rtc_time64_to_tm t1 drtc'
   = (0, rtc_time64_to_tm (rtc_tm_to_time64 tm + (t1 - t0) / NSEC_PER_SEC)) /\
   demo_rtc_read_time rtc_time64_to_tm t0 drtc'
   = (0, rtc_time64_to_tm (rtc_tm_to_time64 tm))) /\
  (valid_until_9999 tm = true ->
   let drtc' := snd (demo_rtc_set_time gregorian_tm_to_time64 t0 tm drtc) in
   demo_rtc_read_time gregorian_time64_to_tm t1 drtc'
   = (0, gregorian_time64_to_tm
           (gregorian_tm_to_time64 tm + (t1 - t0) / NSEC_PER_SEC)) /\
   demo_rtc_read_time gregorian_time64_to_tm t0 drtc' = (0, with_computed_fields tm) /\
   (demo_rtc_read_time gregorian_time64_to_tm t0 drtc' = (0, tm) <->
    tm_wday tm = (gregorian_tm_to_time64 tm / 86400 + 4) mod 7 /\
    tm_yday tm = rtc_year_days (tm_mday tm) (tm_mon tm) (tm_year tm + 1900) + 1 /\
    tm_isdst tm = 0)).
Proof.
  intros Ht Ht1.
  assert (Hsame : forall to_time to_tm,
            - 2 ^ 62 <= to_time tm <= 2 ^ 62 ->
            demo_rtc_read_time to_tm t0 (snd (demo_rtc_set_time to_time t0 tm drtc))
            = (0, to_tm (to_time tm))).
  { intros to_time to_tm Hrange.
    rewrite (set_time_then_read to_time to_tm tm t0 t0 drtc)
      by (unfold S64_MAX in *; lia).
    rewrite Z.sub_diag. unfold NSEC_PER_SEC. rewrite Zdiv_0_l, Z.add_0_r.
    reflexivity. }
  split_and!.
  - intros Hk Hb Hs. unfold demo_rtc_read_time.
    rewrite demo_rtc_get_time64_elapsed by assumption. reflexivity.
  - intros Hrange. cbv zeta. split_and!; try reflexivity.
    + apply set_time_then_read; assumption.
    + apply Hsame. exact Hrange.
  - intros Hvalid. cbv zeta.
    destruct (gregorian_tm_to_time64_days tm Hvalid) as [_ Hrange].
    assert (Hread : demo_rtc_read_time gregorian_time64_to_tm t0
                      (snd (demo_rtc_set_time gregorian_tm_to_time64 t0 tm drtc))
                    = (0, with_computed_fields tm)).
    { rewrite Hsame by lia. rewrite gregorian_round_trip by exact Hvalid.
      reflexivity. }
    split_and!.
    + apply set_time_then_read; [assumption | assumption | lia].
    + exact Hread.
    + rewrite Hread. unfold with_computed_fields. split.
      * intros H. injection H as H. rewrite <- H. cbn. auto.
      * intros (Hw & Hy & Hd). rewrite <- Hw, <- Hy, <- Hd.
        destruct tm; reflexivity.
Qed.

Lemma C8_witness :
  (let drtc' := snd (demo_rtc_set_time gregorian_tm_to_time64 5000000000
                       leap_day_noon (demo_rtc_probe 0)) in
   fst (demo_rtc_set_time gregorian_tm_to_time64 5000000000 leap_day_noon
          (demo_rtc_probe 0)) = 0 /\
   base_time drtc' = gregorian_tm_to_time64 leap_day_noon /\
   base_ktime drtc' = 5000000000 /\
   demo_rtc_read_time gregorian_time64_to_tm 8999999999 drtc'
   = (0, gregorian_time64_to_tm
           (gregorian_tm_to_time64 leap_day_noon
            + (8999999999 - 5000000000) / NSEC_PER_SEC)) /\
   demo_rtc_read_time gregorian_time64_to_tm 5000000000 drtc'
   = (0, gregorian_time64_to_tm (gregorian_tm_to_time64 leap_day_noon))) /\
  (let drtc' := snd (demo_rtc_set_time gregorian_tm_to_time64 5000000000
                       leap_day_noon (demo_rtc_probe 0)) in
   demo_rtc_read_time gregorian_time64_to_tm 8999999999 drtc'
   = (0, gregorian_time64_to_tm
           (gregorian_tm_to_time64 leap_day_noon
            + (8999999999 - 5000000000) / NSEC_PER_SEC)) /\
   demo_rtc_read_time gregorian_time64_to_tm 5000000000 drtc'
   = (0, with_computed_fields leap_day_noon) /\
   (demo_rtc_read_time gregorian_time64_to_tm 5000000000 drtc' = (0, leap_day_noon) <->
    tm_wday leap_day_noon = (gregorian_tm_to_time64 leap_day_noon / 86400 + 4) mod 7 /\
    tm_yday leap_day_noon
    = rtc_year_days (tm_mday leap_day_noon) (tm_mon leap_day_noon)
        (tm_year leap_day_noon + 1900) + 1 /\
    tm_isdst leap_day_noon = 0)).
Proof.
  destruct (C8_rtc_set_then_read gregorian_tm_to_time64 gregorian_time64_to_tm
              (demo_rtc_probe 0) leap_day_noon 5000000000 8999999999)
    as (_ & Hset & Hcal).
  - lia.
  - vm_compute. discriminate.
  - split.
    + apply Hset. vm_compute. split; discriminate.
    + apply Hcal. vm_compute. reflexivity.
Defined.

(** C8 as stated fails for a calendar time whose day of the year is
    counted from 0, as a C library fills [struct tm]: [rtc_valid_tm]
    accepts it, and the clock set to it reads day 60, not day 59. *)
Lemma C8_counterexample :
  ~ (forall tm t0 drtc,
       rtc_valid_tm tm = true ->
       snd (demo_rtc_read_time gregorian_time64_to_tm t0
              (snd (demo_rtc_set_time gregorian_tm_to_time64 t0 tm drtc)))
       = tm).
Proof.
  intros H.
  specialize (H leap_day_noon_posix 5000000000 (demo_rtc_probe 0) eq_refl).
  vm_compute in H. discriminate H.
Qed.

(** Set to the leap day as the kernel fills it, the clock reads it
    back; set to the leap day with day 59, it reads day 60. *)
Example leap_day_round_trip :
  let read tm :=
    snd (demo_rtc_read_time gregorian_time64_to_tm 5000000000
           (snd (demo_rtc_set_time gregorian_tm_to_time64 5000000000 tm
                   (demo_rtc_probe 0)))) in
  read leap_day_noon = leap_day_noon /\
  read leap_day_noon_posix = leap_day_noon /\
  valid_until_9999 leap_day_noon_posix = true.
Proof. vm_compute. auto. Qed.

(** Three whole seconds later the clock shows 12:34:59; a clock probed
    at 1.5 s after the epoch and read at 3.2 s shows second 2. *)
Example leap_day_three_seconds_later :
  let set := demo_rtc_set_time gregorian_tm_to_time64 5000000000 leap_day_noon
               (demo_rtc_probe 0) in
  gregorian_tm_to_time64 leap_day_noon = 1709210096 /\
  tm_sec (snd (demo_rtc_read_time gregorian_time64_to_tm 8999999999 (snd set))) = 59.
Proof. vm_compute. auto. Qed.

Example probe_then_read :
  demo_rtc_get_time64 3200000000 (demo_rtc_probe 1500000000) = 2.
Proof. reflexivity. Qed.

(** ** The alarm *)

Section AlarmFacts.
Variable rtc_tm_to_time64 : rtc_time -> Z.
Variable rtc_time64_to_tm : Z -> rtc_time.
Variable HZ : Z.

(** The delay in jiffies, when the product does not overflow. *)
Lemma alarm_delay_small alarm current :
  0 < HZ -> current < alarm -> (alarm - current) * HZ < 2 ^ 63 ->
  alarm_delay HZ alarm current = (alarm - current) * HZ.
Proof.
  intros Hhz Hlt Hprod. unfold alarm_delay.
  assert (alarm - current <= (alarm - current) * HZ) by nia.
  rewrite (s64_small (alarm - current)) by lia.
  rewrite s64_small by nia. apply u64_small. nia.
Qed.

(** X23: an alarm set is the alarm read.  After [demo_rtc_set_alarm],
    [demo_rtc_read_alarm] returns the calendar form of the second the
    alarm time denotes, the enabled flag as 0 or 1 and no pending alarm,
    whether the alarm lies in the future or not, and whatever alarm was
    set or had fired before; the clock itself is not touched.  With the
    conversions of the kernel's RTC library and an alarm time of the
    years 1970 to 9999 that [rtc_valid_tm] accepts, the time read is
    the date and the time of day that were set, with the weekday, the
    day of the year and the daylight saving flag the library
    computes. *)
Theorem X23_set_alarm_then_read_alarm now alrm drtc :
  let set := demo_rtc_set_alarm rtc_tm_to_time64 HZ now alrm drtc in
  fst set = 0 /\
  demo_rtc_read_alarm rtc_time64_to_tm (snd set)
  = (0, {| enabled := bool_to_Z (truth (enabled alrm)); pending := 0;
           time := rtc_time64_to_tm (rtc_tm_to_time64 (time alrm)) |}) /\
  base_time (snd set) = base_time drtc /\ base_ktime (snd set) = base_ktime drtc /\
  (valid_until_9999 (time alrm) = true ->
   demo_rtc_read_alarm gregorian_time64_to_tm
     (snd (demo_rtc_set_alarm gregorian_tm_to_time64 HZ now alrm drtc))
   = (0, {| enabled := bool_to_Z (truth (enabled alrm)); pending := 0;
            time := with_computed_fields (time alrm) |})).
Proof.
  assert (Hany : forall to_time to_tm,
            demo_rtc_read_alarm to_tm (snd (demo_rtc_set_alarm to_time HZ now alrm drtc))
            = (0, {| enabled := bool_to_Z (truth (enabled alrm)); pending := 0;
                     time := to_tm (to_time (time alrm)) |})).
  { intros to_time to_tm. unfold demo_rtc_set_alarm, demo_rtc_read_alarm. cbv zeta.
    destruct (truth (enabled alrm)); [destruct (_ >? _)|]; reflexivity. }
  cbv zeta. split_and!.
  - unfold demo_rtc_set_alarm. cbv zeta.
    destruct (truth (enabled alrm)); [destruct (_ >? _)|]; reflexivity.
  - apply Hany.
  - unfold demo_rtc_set_alarm. cbv zeta.
    destruct (truth (enabled alrm)); [destruct (_ >? _)|]; reflexivity.
  - unfold demo_rtc_set_alarm. cbv zeta.
    destruct (truth (enabled alrm)); [destruct (_ >? _)|]; reflexivity.
  - intros Hvalid. rewrite Hany, gregorian_round_trip by exact Hvalid. reflexivity.
Qed.

(** The clock does not depend on the alarm fields. *)
Lemma get_time64_alarm_fields now drtc t a e p :
  demo_rtc_get_time64 now
    {| base_time := base_time drtc; base_ktime := base_ktime drtc;
       alarm_timer := t; alarm_time := a; alarm_enabled := e; alarm_pending := p |}
  = demo_rtc_get_time64 now drtc.
Proof. reflexivity. Qed.

(** X24: the alarm timer is armed exactly for an enabled alarm in the
    future.  After [demo_rtc_set_alarm] at the instant [now], with the
    clock then showing [current], the alarm timer is pending if and
    only if the alarm is enabled and its second is later than
    [current], and its delay is then the difference in seconds times
    [HZ]; any earlier alarm is cancelled and the pending flag cleared.
    An enabled alarm that is not in the future stays enabled but is
    never armed, so its callback never runs: only an armed alarm
    becomes pending when the timer expires. *)
Theorem X24_alarm_armed_iff_in_future now alrm drtc :
  0 < HZ ->
  (rtc_tm_to_time64 (time alrm) - demo_rtc_get_time64 now drtc) * HZ < 2 ^ 63 ->
  let alarm := rtc_tm_to_time64 (time alrm) in
  let current := demo_rtc_get_time64 now drtc in
  let drtc' := snd (demo_rtc_set_alarm rtc_tm_to_time64 HZ now alrm drtc) in
  alarm_timer drtc'
  = (if truth (enabled alrm) && (alarm >? current)
     then Some ((alarm - current) * HZ) else None) /\
  alarm_enabled drtc' = truth (enabled alrm) /\
  alarm_time drtc' = alarm /\
  alarm_pending drtc' = false /\
  alarm_pending (alarm_timer_expiry drtc')
  = truth (enabled alrm) && (alarm >? current).
Proof.
  intros Hhz Hprod. cbv zeta. unfold demo_rtc_set_alarm. cbv zeta.
  rewrite get_time64_alarm_fields.
  destruct (truth (enabled alrm)); cbn [andb];
    [|cbn; split_and!; reflexivity].
  destruct (Z.lt_ge_cases (demo_rtc_get_time64 now drtc)
              (rtc_tm_to_time64 (time alrm))) as [Hlt|Hge]; zbool.
  - cbn. rewrite alarm_delay_small by assumption. split_and!; reflexivity.
  - cbn. split_and!; reflexivity.
Qed.

Lemma rtc_step_alarm_inv drtc ev :
  alarm_inv drtc -> alarm_inv (rtc_step rtc_tm_to_time64 HZ drtc ev).
Proof.
  unfold alarm_inv. intros Hinv.
  destruct ev as [now|now tm| |now alrm|now on| |]; cbn [rtc_step]; try exact Hinv.
  - unfold demo_rtc_set_alarm. cbv zeta.
    destruct (truth (enabled alrm)) eqn:E; [destruct (_ >? _)|]; cbn; congruence.
  - unfold demo_rtc_alarm_irq_enable. cbv zeta.
    destruct (truth on) eqn:E; cbn [andb negb].
    + destruct (alarm_enabled drtc) eqn:En; cbn [negb]; [cbn; auto|].
      destruct (_ >? _); cbn; auto.
    + cbn. congruence.
  - unfold alarm_timer_expiry.
    destruct (alarm_timer drtc) eqn:E; [cbn; congruence|congruence].
Qed.

Lemma rtc_run_alarm_inv evs : forall drtc,
  alarm_inv drtc -> alarm_inv (rtc_run rtc_tm_to_time64 HZ evs drtc).
Proof.
  induction evs as [|ev evs IH]; intros drtc Hinv; [exact Hinv|].
  unfold rtc_run. cbn [fold_left]. apply IH. apply rtc_step_alarm_inv. exact Hinv.
Qed.

(** X25: a disabled alarm never fires.  From a clock on which a pending
    alarm timer implies an enabled alarm, as after [demo_rtc_probe],
    every sequence of RTC operations and timer expiries leaves it so:
    whenever the alarm is disabled the timer is idle, its expiry does
    nothing, and [alarm_pending] cannot become set. *)
Theorem X25_disabled_alarm_never_fires evs drtc :
  alarm_inv drtc ->
  let drtc' := rtc_run rtc_tm_to_time64 HZ evs drtc in
  (alarm_timer drtc' <> None -> alarm_enabled drtc' = true) /\
  (alarm_enabled drtc' = false ->
   alarm_timer drtc' = None /\ alarm_timer_expiry drtc' = drtc').
Proof.
  intros Hinv. cbv zeta.
  pose proof (rtc_run_alarm_inv evs drtc Hinv) as H. unfold alarm_inv in H.
  split; [exact H|]. intros Hoff.
  unfold alarm_timer_expiry.
  destruct (alarm_timer _) as [j|]; [|auto].
  rewrite H in Hoff by discriminate. discriminate.
Qed.

Lemma alarm_irq_disable now drtc :
  demo_rtc_alarm_irq_enable HZ now 0 drtc
  = (0, set_alarm_enabled false (set_alarm_timer None drtc)).
Proof. reflexivity. Qed.

Lemma alarm_irq_enable_disabled now on drtc :
  on <> 0 -> alarm_enabled drtc = false ->
  demo_rtc_alarm_irq_enable HZ now on drtc
  = (0, set_alarm_enabled true
          (if alarm_time drtc >? demo_rtc_get_time64 now drtc
           then set_alarm_timer
                  (Some (alarm_delay HZ (alarm_time drtc) (demo_rtc_get_time64 now drtc)))
                  drtc
           else drtc)).
Proof.
  intros Hon Hoff. unfold demo_rtc_alarm_irq_enable. cbv zeta.
  assert (Ht : truth on = true)
    by (unfold truth; rewrite (proj2 (Z.eqb_neq _ _) Hon); reflexivity).
  rewrite Ht, Hoff. reflexivity.
Qed.

(** X27: disabling the alarm interrupt cancels the timer, and enabling
    it again arms the timer for the time that is left.  After an
    enabled alarm has been set, [demo_rtc_alarm_irq_enable] with 0
    leaves the timer idle and the alarm disabled but remembered; a
    later call with a non-zero argument at the instant [t2] enables it
    and arms the timer with the seconds from the clock's reading at
    [t2] to the alarm, times [HZ], or leaves it idle when the alarm
    second has passed, in which case the alarm is lost. *)
Theorem X27_disable_then_enable_rearms t0 t1 t2 on alrm drtc :
  0 < HZ -> on <> 0 ->
  (rtc_tm_to_time64 (time alrm) - demo_rtc_get_time64 t2 drtc) * HZ < 2 ^ 63 ->
  let alarm := rtc_tm_to_time64 (time alrm) in
  let current := demo_rtc_get_time64 t2 drtc in
  let d1 := snd (demo_rtc_set_alarm rtc_tm_to_time64 HZ t0 alrm drtc) in
  let d2 := snd (demo_rtc_alarm_irq_enable HZ t1 0 d1) in
  let d3 := snd (demo_rtc_alarm_irq_enable HZ t2 on d2) in
  alarm_timer d2 = None /\ alarm_enabled d2 = false /\ alarm_time d2 = alarm /\
  alarm_enabled d3 = true /\ alarm_time d3 = alarm /\
  alarm_timer d3
  = (if alarm >? current then Some ((alarm - current) * HZ) else None).
Proof.
  intros Hhz Hon Hprod. cbv zeta.
  assert (Hd1 : alarm_time (snd (demo_rtc_set_alarm rtc_tm_to_time64 HZ t0 alrm drtc))
                = rtc_tm_to_time64 (time alrm) /\
                base_time (snd (demo_rtc_set_alarm rtc_tm_to_time64 HZ t0 alrm drtc))
                = base_time drtc /\
                base_ktime (snd (demo_rtc_set_alarm rtc_tm_to_time64 HZ t0 alrm drtc))
                = base_ktime drtc).
  { unfold demo_rtc_set_alarm. cbv zeta.
    destruct (truth _); [destruct (_ >? _)|]; cbn; auto. }
  destruct Hd1 as (Hat & Hbt & Hbk).
  set (d1 := snd (demo_rtc_set_alarm rtc_tm_to_time64 HZ t0 alrm drtc)) in *.
  rewrite (alarm_irq_disable t1 d1). cbn [snd].
  rewrite (alarm_irq_enable_disabled t2 on
             (set_alarm_enabled false (set_alarm_timer None d1)) Hon eq_refl).
  cbn [snd].
  assert (Hcur : demo_rtc_get_time64 t2
                   (set_alarm_enabled false (set_alarm_timer None d1))
                 = demo_rtc_get_time64 t2 drtc).
  { unfold demo_rtc_get_time64. cbn. rewrite Hbt, Hbk. reflexivity. }
  rewrite Hcur.
  cbn [set_alarm_enabled set_alarm_timer alarm_enabled alarm_time alarm_timer].
  rewrite Hat.
  destruct (Z.lt_ge_cases (demo_rtc_get_time64 t2 drtc)
              (rtc_tm_to_time64 (time alrm))) as [Hlt|Hge]; zbool; cbn.
  - rewrite alarm_delay_small by assumption. rewrite Hat. split_and!; reflexivity.
  - rewrite Hat. split_and!; reflexivity.
Qed.

End AlarmFacts.

Lemma X23_witness :
  demo_rtc_read_alarm gregorian_time64_to_tm
    (snd (demo_rtc_set_alarm gregorian_tm_to_time64 250 5000000000 leap_day_alarm
            (demo_rtc_probe 0)))
  = (0, {| enabled := bool_to_Z (truth (enabled leap_day_alarm)); pending := 0;
           time := with_computed_fields (time leap_day_alarm) |}).
Proof.
  apply (X23_set_alarm_then_read_alarm gregorian_tm_to_time64 gregorian_time64_to_tm
           250 5000000000 leap_day_alarm (demo_rtc_probe 0)).
  vm_compute. reflexivity.
Defined.

(** The alarm of the leap day is read back as it was set. *)
Example leap_day_alarm_read_back :
  with_computed_fields (time leap_day_alarm) = time leap_day_alarm.
Proof. vm_compute. reflexivity. Qed.

(** The clock set to 12:34:56 on the leap day, at 5 s after boot. *)
Lemma X24_witness :
  let clock := snd (demo_rtc_set_time gregorian_tm_to_time64 5000000000 leap_day_noon
                      (demo_rtc_probe 0)) in
  let alarm := gregorian_tm_to_time64 (time leap_day_alarm) in
  let current := demo_rtc_get_time64 6000000000 clock in
  let drtc' := snd (demo_rtc_set_alarm gregorian_tm_to_time64 250 6000000000
                      leap_day_alarm clock) in
  alarm_timer drtc'
  = (if truth (enabled leap_day_alarm) && (alarm >? current)
     then Some ((alarm - current) * 250) else None) /\
  alarm_enabled drtc' = truth (enabled leap_day_alarm) /\
  alarm_time drtc' = alarm /\
  alarm_pending drtc' = false /\
  alarm_pending (alarm_timer_expiry drtc')
  = truth (enabled leap_day_alarm) && (alarm >? current).
Proof.
  apply (X24_alarm_armed_iff_in_future gregorian_tm_to_time64 250 6000000000
           leap_day_alarm).
  - lia.
  - vm_compute. reflexivity.
Defined.

(** Three seconds before the alarm, at 250 jiffies a second. *)
Example leap_day_alarm_delay :
  alarm_timer
    (snd (demo_rtc_set_alarm gregorian_tm_to_time64 250 6000000000 leap_day_alarm
            (snd (demo_rtc_set_time gregorian_tm_to_time64 5000000000 leap_day_noon
                    (demo_rtc_probe 0)))))
  = Some 750.
Proof. vm_compute. reflexivity. Qed.

Lemma probe_alarm_inv now : alarm_inv (demo_rtc_probe now).
Proof. unfold alarm_inv. cbn. congruence. Qed.

Lemma X25_witness :
  let drtc' :=
    rtc_run gregorian_tm_to_time64 250
      [SetTime 5000000000 leap_day_noon; SetAlarm 6000000000 leap_day_alarm;
       AlarmIrqEnable 7000000000 0; AlarmTimerExpiry; ReadAlarm]
      (demo_rtc_probe 0) in
  (alarm_timer drtc' <> None -> alarm_enabled drtc' = true) /\
  (alarm_enabled drtc' = false ->
   alarm_timer drtc' = None /\ alarm_timer_expiry drtc' = drtc').
Proof.
  apply (X25_disabled_alarm_never_fires gregorian_tm_to_time64 250).
  exact (probe_alarm_inv 0).
Defined.

Lemma X27_witness :
  let clock := snd (demo_rtc_set_time gregorian_tm_to_time64 5000000000 leap_day_noon
                      (demo_rtc_probe 0)) in
  let alarm := gregorian_tm_to_time64 (time leap_day_alarm) in
  let current := demo_rtc_get_time64 8000000000 clock in
  let d1 := snd (demo_rtc_set_alarm gregorian_tm_to_time64 250 6000000000
                   leap_day_alarm clock) in
  let d2 := snd (demo_rtc_alarm_irq_enable 250 7000000000 0 d1) in
  let d3 := snd (demo_rtc_alarm_irq_enable 250 8000000000 1 d2) in
  alarm_timer d2 = None /\ alarm_enabled d2 = false /\ alarm_time d2 = alarm /\
  alarm_enabled d3 = true /\ alarm_time d3 = alarm /\
  alarm_timer d3
  = (if alarm >? current then Some ((alarm - current) * 250) else None).
Proof.
  apply (X27_disable_then_enable_rearms gregorian_tm_to_time64 250
           6000000000 7000000000 8000000000 1 leap_day_alarm).
  - lia.
  - discriminate.
  - vm_compute. reflexivity.
Defined.

(** ** The clock after probe *)

(** X26: the clock never runs backwards and never runs ahead.  A clock
    set up by [demo_rtc_probe] at the instant [t0] and read at a later
    instant [t1] shows the second of [t1] or the one before it (the
    base and the elapsed time are each rounded down to a whole second),
    and a read at a still later instant never shows an earlier
    second. *)
Theorem X26_clock_within_a_second_and_monotonic t0 t1 t2 :
  0 <= t0 <= t1 -> t1 <= t2 -> t2 <= S64_MAX ->
  let drtc := demo_rtc_probe t0 in
  t1 / NSEC_PER_SEC - 1 <= demo_rtc_get_time64 t1 drtc <= t1 / NSEC_PER_SEC /\
  demo_rtc_get_time64 t1 drtc <= demo_rtc_get_time64 t2 drtc.
Proof.
  intros H01 H12 Hmax. cbv zeta.
  assert (Hread : forall t, t0 <= t <= t2 ->
            demo_rtc_get_time64 t (demo_rtc_probe t0)
            = t0 / NSEC_PER_SEC + (t - t0) / NSEC_PER_SEC).
  { intros t Ht. rewrite demo_rtc_get_time64_elapsed; cbn [demo_rtc_probe base_time base_ktime].
    - reflexivity.
    - lia.
    - lia.
    - unfold NSEC_PER_SEC. zmod.
    - unfold S64_MAX, NSEC_PER_SEC in *. zmod. }
  rewrite !Hread by lia. unfold NSEC_PER_SEC. zmod.
Qed.

Lemma X26_witness :
  let drtc := demo_rtc_probe 900000000 in
  1000000000 / NSEC_PER_SEC - 1 <= demo_rtc_get_time64 1000000000 drtc
    <= 1000000000 / NSEC_PER_SEC /\
  demo_rtc_get_time64 1000000000 drtc <= demo_rtc_get_time64 1900000000 drtc.
Proof.
  apply (X26_clock_within_a_second_and_monotonic 900000000 1000000000 1900000000).
  - lia.
  - lia.
  - vm_compute. discriminate.
Defined.

(** The clock can lag by a second: probed at 0.9 s and read at 1.0 s it
    still shows second 0. *)
Example clock_lags_after_probe :
  demo_rtc_get_time64 1000000000 (demo_rtc_probe 900000000) = 0.
Proof. reflexivity. Qed.

End RtcDemoProofs.
